(** * WebSocketFileTransfer_StateMachine: the framing codec and the two
      transfer state machines

    A shallow embedding of [client/client.go] (the sending state machine and
    [sendInt]/[sendBytes]) and of the server program (the per-connection
    receiving state machine and [receiveInt]/[receiveBytes]).

    Conventions.
    - Go's [int] is the 64-bit two's-complement integer of the 64-bit
      targets; every conversion ([int32(x)], [uint32(x)], [int(x)],
      [byte(x)]) is written out as the wrap-around it performs on [Z].
    - A [[]byte] is a [list byte]; a Go [string] is a [string].
    - A Go result pair [(v, err)] is a pair whose second component is an
      [option error] ([None] is [nil]).
    - [net.Conn], [bufio.Reader] and [bufio.Writer] are library objects: they
      are modelled from the documented behaviour of the Go standard library,
      with every outcome the operating system may produce left to an oracle
      carried by the connection or by the [OS] record. *)

From Stdlib Require Import ZArith String Ascii Bool Lia List.
From Stdlib Require Import Strings.Byte.
Import ListNotations.
Open Scope Z_scope.

(** ** Integers, bytes and slices *)

(** Two's-complement wrap-around at [bits] bits. *)
Definition wrap (bits x : Z) : Z :=
  (x + 2 ^ (bits - 1)) mod 2 ^ bits - 2 ^ (bits - 1).

Definition intSize : Z := 64.

(** [int(x)], [int32(x)], [uint32(x)] and [byte(x)]. *)
Definition to_int (x : Z) : Z := wrap intSize x.
Definition to_int32 (x : Z) : Z := wrap 32 x.
Definition to_uint32 (x : Z) : Z := x mod 2 ^ 32.

Definition to_byte (x : Z) : byte :=
  match Byte.of_N (Z.to_N (x mod 256)) with
  | Some b => b
  | None => x00
  end.

(** [uint32(b)] for a byte [b]. *)
Definition byte_val (b : byte) : Z := Z.of_N (Byte.to_N b).

(** [len(s)]. *)
Definition len {A : Type} (s : list A) : Z := Z.of_nat (length s).

(** [make([]byte, n)] for [0 <= n]. *)
Definition zeros (n : Z) : list byte := repeat x00 (Z.to_nat n).

(** [s[lo:hi]] for [0 <= lo <= hi <= len(s)]. *)
Definition slice {A : Type} (s : list A) (lo hi : Z) : list A :=
  firstn (Z.to_nat (hi - lo)) (skipn (Z.to_nat lo) s).

(** The slice [s] after [copy(s[at:], d)], for [at + len(d) <= len(s)]. *)
Definition splice {A : Type} (s : list A) (at_ : Z) (d : list A) : list A :=
  firstn (Z.to_nat at_) s ++ d ++ skipn (Z.to_nat (at_ + len d)) s.

(** ** Results of running Go code *)

(** A Go function returns, or the goroutine dies of a run-time panic; loops
    are run on fuel and [OutOfFuel] says the fuel was too small. *)
Inductive Outcome (A : Type) : Type :=
| Done (a : A)
| Panic (msg : string)
| OutOfFuel.
Arguments Done {A} a.
Arguments Panic {A} msg.
Arguments OutOfFuel {A}.

Definition bind {A B : Type} (o : Outcome A) (k : A -> Outcome B) : Outcome B :=
  match o with
  | Done a => k a
  | Panic msg => Panic msg
  | OutOfFuel => OutOfFuel
  end.

Declare Scope go_scope.
Delimit Scope go_scope with go.
Notation "x <- c ;; k" := (bind c (fun x => k))
  (at level 61, c at next level, right associativity) : go_scope.
Notation "' p <- c ;; k" := (bind c (fun x => let 'p := x in k))
  (at level 61, p pattern, c at next level, right associativity) : go_scope.

(** ** Errors *)

(** The error values the programs meet: [io.EOF], and errors that carry a
    message ([errors.New], and the errors of the operating system). *)
Inductive error : Type :=
| io_EOF
| errors_New (msg : string).

(** The method [err.Error()]. *)
Definition Error (e : error) : string :=
  match e with
  | io_EOF => "EOF"
  | errors_New msg => msg
  end.

(** ** encoding/binary *)

(** [binary.BigEndian.PutUint32(b, v)]: the slice [b] afterwards. *)
Definition PutUint32 (b : list byte) (v : Z) : list byte :=
  splice b 0 [to_byte (Z.shiftr v 24); to_byte (Z.shiftr v 16);
              to_byte (Z.shiftr v 8); to_byte v].

(** [binary.BigEndian.Uint32(b)]. *)
Definition Uint32 (b : list byte) : Z :=
  Z.lor (Z.lor (Z.lor (byte_val (nth 3 b x00))
                      (Z.shiftl (byte_val (nth 2 b x00)) 8))
               (Z.shiftl (byte_val (nth 1 b x00)) 16))
        (Z.shiftl (byte_val (nth 0 b x00)) 24).

(** ** net.Conn *)

(** One end of a TCP connection.  What the peer sends arrives as a sequence
    of segments; a [Read] draws on the first one only, so it may deliver
    fewer bytes than asked for.  Once nothing is left [Read] reports
    [hangup] ([io.EOF] after an orderly close).  The outcome of the [k]-th
    call of [Write] is decided by the oracle [wfault]. *)
Record Conn : Type := mkConn {
  incoming : list (list byte);
  hangup : error;
  outgoing : list (list byte);
  wcount : nat;
  wfault : nat -> option error;
  closed : bool
}.

(** [c.Read(p)] with [n = len(p)]: the bytes stored at the front of [p]. *)
Definition Conn_Read (c : Conn) (n : Z) : (list byte * option error) * Conn :=
  match incoming c with
  | [] => (([], Some (hangup c)), c)
  | seg :: rest =>
      let d := firstn (Z.to_nat n) seg in
      let seg' := skipn (Z.to_nat n) seg in
      ((d, None),
       mkConn (match seg' with [] => rest | _ => seg' :: rest end)
              (hangup c) (outgoing c) (wcount c) (wfault c) (closed c))
  end.

(** [c.Write(p)]. *)
Definition Conn_Write (c : Conn) (p : list byte) : (Z * option error) * Conn :=
  match wfault c (wcount c) with
  | Some e =>
      ((0, Some e),
       mkConn (incoming c) (hangup c) (outgoing c) (S (wcount c)) (wfault c) (closed c))
  | None =>
      ((len p, None),
       mkConn (incoming c) (hangup c) (outgoing c ++ [p]) (S (wcount c)) (wfault c)
              (closed c))
  end.

(** [c.Close()]. *)
Definition Conn_Close (c : Conn) : Conn :=
  mkConn (incoming c) (hangup c) (outgoing c) (wcount c) (wfault c) true.

(** ** bufio *)

Definition defaultBufSize : Z := 4096.

(** A [*bufio.Reader]: the connection it reads from and the bytes it holds
    that were read but not yet handed out ([b.buf[b.r:b.w]]). *)
Record Reader : Type := mkReader {
  rd : Conn;
  rbuf : list byte
}.

Definition NewReader (c : Conn) : Reader := mkReader c [].

(** [b.Read(p)] with [n = len(p)]: at most one [Read] of the connection, and
    as many of the bytes at hand as fit in [p]. *)
Definition Reader_Read (b : Reader) (n : Z) : (list byte * option error) * Reader :=
  if n =? 0 then (([], None), b)
  else
    match rbuf b with
    | [] =>
        if defaultBufSize <=? n then
          let '((d, e), c) := Conn_Read (rd b) n in
          ((d, e), mkReader c [])
        else
          let '((d, e), c) := Conn_Read (rd b) defaultBufSize in
          match d with
          | [] => (([], e), mkReader c [])
          | _ => ((firstn (Z.to_nat n) d, None), mkReader c (skipn (Z.to_nat n) d))
          end
    | _ =>
        ((firstn (Z.to_nat n) (rbuf b), None),
         mkReader (rd b) (skipn (Z.to_nat n) (rbuf b)))
    end.

(** A [*bufio.Writer]: the connection it writes to, the bytes buffered and
    the error it keeps once a write failed. *)
Record Writer : Type := mkWriter {
  wr : Conn;
  wbuf : list byte;
  werr : option error
}.

Definition NewWriter (c : Conn) : Writer := mkWriter c [] None.

(** [b.Flush()]. *)
Definition Writer_Flush (b : Writer) : option error * Writer :=
  match werr b with
  | Some e => (Some e, b)
  | None =>
      match wbuf b with
      | [] => (None, b)
      | _ =>
          let '((_, e), c) := Conn_Write (wr b) (wbuf b) in
          match e with
          | Some e' => (Some e', mkWriter c (wbuf b) (Some e'))
          | None => (None, mkWriter c [] None)
          end
      end
  end.

(** A write that goes to the connection without passing through the buffer
    (the buffer is empty and [p] does not fit in it). *)
Definition Writer_direct (b : Writer) (p : list byte) : (Z * option error) * Writer :=
  let '((n, e), c) := Conn_Write (wr b) p in
  ((n, e), mkWriter c (wbuf b) e).

(** [b.Write(p)]: [p] is buffered when it fits; otherwise the buffer is
    filled and flushed, and what is left is written directly when it is
    larger than the buffer. *)
Definition Writer_Write (b : Writer) (p : list byte) : (Z * option error) * Writer :=
  match werr b with
  | Some e => ((0, Some e), b)
  | None =>
      let avail := defaultBufSize - len (wbuf b) in
      if len p <=? avail then ((len p, None), mkWriter (wr b) (wbuf b ++ p) None)
      else
        match wbuf b with
        | [] => Writer_direct b p
        | _ =>
            let p1 := firstn (Z.to_nat avail) p in
            let p2 := skipn (Z.to_nat avail) p in
            let '(e, b1) := Writer_Flush (mkWriter (wr b) (wbuf b ++ p1) None) in
            match e with
            | Some e' => ((len p1, Some e'), b1)
            | None =>
                if len p2 <=? defaultBufSize
                then ((len p, None), mkWriter (wr b1) p2 None)
                else
                  let '((n, e2), b2) := Writer_direct b1 p2 in
                  ((len p1 + n, e2), b2)
            end
        end
  end.

(** ** The framing codec *)

Definition bufferSize : Z := 1024 * 1024.

(** [sendInt] (client.go). *)
Definition sendInt (writer : Writer) (num : Z) : option error * Writer :=
  let intSend := to_int32 num in
  let buf := PutUint32 (zeros 4) (to_uint32 intSend) in
  let '((_, err), writer) := Writer_Write writer buf in
  match err with
  | Some e => (Some e, writer)
  | None => Writer_Flush writer
  end.

(** The [for] loop of [sendBytes], entered with the current [start]. *)
Fixpoint sendBytes_loop (fuel : nat) (writer : Writer) (data : list byte) (start : Z)
  : Outcome ((Z * option error) * Writer) :=
  if start <? len data then
    match fuel with
    | O => OutOfFuel
    | S fuel' =>
        let end_ := start + bufferSize in
        let end_ := if end_ >? len data then len data else end_ in
        let chunk := slice data start end_ in
        let '((_, err), writer) := Writer_Write writer chunk in
        match err with
        | Some e => Done ((-1, Some e), writer)
        | None =>
            let '(err, writer) := Writer_Flush writer in
            match err with
            | Some e => Done ((-1, Some e), writer)
            | None => sendBytes_loop fuel' writer data (start + bufferSize)
            end
        end
    end
  else Done ((len data, None), writer).

(** [sendBytes] (client.go).  The loop advances [start] by [bufferSize] each
    time round, so [len(data) / bufferSize + 1] rounds are enough. *)
Definition sendBytes (writer : Writer) (data : list byte)
  : Outcome ((Z * option error) * Writer) :=
  let '(err, writer) := sendInt writer (len data) in
  match err with
  | Some e => Done ((-1, Some e), writer)
  | None => sendBytes_loop (Z.to_nat (len data / bufferSize + 1)) writer data 0
  end.

(** [receiveInt] (server). The count returned by [Read] is not looked at. *)
Definition receiveInt (reader : Reader) : (Z * option error) * Reader :=
  let receivedByte := zeros 4 in
  let '((d, err), reader) := Reader_Read reader (len receivedByte) in
  let receivedByte := splice receivedByte 0 d in
  match err with
  | Some e => ((-1, Some e), reader)
  | None => ((to_int (Uint32 receivedByte), None), reader)
  end.

(** The [for] loop of [receiveBytes]. *)
Fixpoint receiveBytes_loop (fuel : nat) (reader : Reader) (data : list byte)
    (size received : Z) : Outcome ((list byte * option error) * Reader) :=
  if received <? size then
    match fuel with
    | O => OutOfFuel
    | S fuel' =>
        let remaining := size - received in
        let readSize := bufferSize in
        let readSize := if remaining <? readSize then remaining else readSize in
        let '((d, err), reader) := Reader_Read reader readSize in
        let data := splice data received d in
        match err with
        | Some e => Done (([], Some e), reader)
        | None => receiveBytes_loop fuel' reader data size (received + len d)
        end
    end
  else Done ((data, None), reader).

(** [receiveBytes] (server).  [make] panics on a negative size.  A round of
    the loop either receives a byte or uses up a segment of the connection,
    which bounds the number of rounds. *)
Definition receiveBytes (reader : Reader)
  : Outcome ((list byte * option error) * Reader) :=
  let '((size, err), reader) := receiveInt reader in
  match err with
  | Some e => Done (([], Some e), reader)
  | None =>
      if size <? 0 then Panic "makeslice: len out of range"
      else
        let data := zeros size in
        receiveBytes_loop (Z.to_nat size + length (incoming (rd reader)) + 1)
                          reader data size 0
  end.

(** ** Shared helpers of the two programs *)

(** [s[i]]: indexing panics outside [0 <= i < len(s)]. *)
Definition index {A : Type} (s : list A) (i : Z) : Outcome A :=
  if (i <? 0) || (len s <=? i) then Panic "index out of range"
  else
    match nth_error s (Z.to_nat i) with
    | Some a => Done a
    | None => Panic "index out of range"
    end.

(** [strings.Contains(s, substr)]. *)
Fixpoint strings_Contains (s substr : string) : bool :=
  String.prefix substr s
  || match s with
     | EmptyString => false
     | String _ s' => strings_Contains s' substr
     end.

(** How [Println] shows an error value. *)
Definition show (e : option error) : string :=
  match e with
  | Some e' => Error e'
  | None => "<nil>"
  end.

(** Counters that stay within the length of a slice ([currentFile],
    [received], [start]) are incremented without a wrap: a Go slice has fewer
    than [2^63] elements. *)

(** ** The client: client/client.go *)

Module Client.

Definition trans : string := "tcp".
Definition arguments : Z := 3.

Inductive ClientState : Type :=
| Initialization
| ValidateArgs
| ParseIP
| ConnetServer
| SendFileCount
| OpenFile
| SendFileName
| ReadAndSendFileData
| SendNextFile
| HandleFatalError
| HandleError
| Terminate.

(** An [*os.File]: what [Stat] will answer (the base name, or an error), and
    whether the descriptor is still open. *)
Record File : Type := mkFile {
  Stat : string + error;
  is_open : bool
}.

Definition File_Close (f : File) : File := mkFile (Stat f) false.

(** The operating system as the client sees it.  [os_Args] is
    [os.Args[1:]].  The answers of [os.Open] and [os.ReadFile] may change
    with time: they take the number of transitions the machine has made. *)
Record OS : Type := mkOS {
  os_Args : list string;
  net_Dial : string -> string -> Conn + error;
  os_Open : nat -> string -> File + error;
  os_ReadFile : nat -> string -> list byte + error
}.

(** The struct [ClientFSM].  The field [con] and the connection inside
    [writer] are one object: [con] is read off [writer] (see [con]).
    [output] collects the lines printed, those of [println] and [log] along
    with those of [fmt], without the time stamps of [log]. *)
Record ClientFSM : Type := mkClientFSM {
  err : option error;
  currentState : ClientState;
  ip : string;
  port : string;
  fileNames : list string;
  currentFile : Z;
  writer : option Writer;
  file : option File;
  output : list string
}.

Definition con (fsm : ClientFSM) : option Conn := option_map wr (writer fsm).

Definition set_err (e : option error) (fsm : ClientFSM) : ClientFSM :=
  mkClientFSM e (currentState fsm) (ip fsm) (port fsm) (fileNames fsm)
              (currentFile fsm) (writer fsm) (file fsm) (output fsm).
Definition set_currentState (s : ClientState) (fsm : ClientFSM) : ClientFSM :=
  mkClientFSM (err fsm) s (ip fsm) (port fsm) (fileNames fsm)
              (currentFile fsm) (writer fsm) (file fsm) (output fsm).
Definition set_ip (s : string) (fsm : ClientFSM) : ClientFSM :=
  mkClientFSM (err fsm) (currentState fsm) s (port fsm) (fileNames fsm)
              (currentFile fsm) (writer fsm) (file fsm) (output fsm).
Definition set_port (s : string) (fsm : ClientFSM) : ClientFSM :=
  mkClientFSM (err fsm) (currentState fsm) (ip fsm) s (fileNames fsm)
              (currentFile fsm) (writer fsm) (file fsm) (output fsm).
Definition set_fileNames (l : list string) (fsm : ClientFSM) : ClientFSM :=
  mkClientFSM (err fsm) (currentState fsm) (ip fsm) (port fsm) l
              (currentFile fsm) (writer fsm) (file fsm) (output fsm).
Definition set_currentFile (i : Z) (fsm : ClientFSM) : ClientFSM :=
  mkClientFSM (err fsm) (currentState fsm) (ip fsm) (port fsm) (fileNames fsm)
              i (writer fsm) (file fsm) (output fsm).
Definition set_writer (w : option Writer) (fsm : ClientFSM) : ClientFSM :=
  mkClientFSM (err fsm) (currentState fsm) (ip fsm) (port fsm) (fileNames fsm)
              (currentFile fsm) w (file fsm) (output fsm).
Definition set_file (f : option File) (fsm : ClientFSM) : ClientFSM :=
  mkClientFSM (err fsm) (currentState fsm) (ip fsm) (port fsm) (fileNames fsm)
              (currentFile fsm) (writer fsm) f (output fsm).
Definition println (line : string) (fsm : ClientFSM) : ClientFSM :=
  mkClientFSM (err fsm) (currentState fsm) (ip fsm) (port fsm) (fileNames fsm)
              (currentFile fsm) (writer fsm) (file fsm) (output fsm ++ [line]).

(** [fsm.file.Close()]. *)
Definition close_file (fsm : ClientFSM) : ClientFSM :=
  set_file (option_map File_Close (file fsm)) fsm.

Definition NewClientFSM : ClientFSM :=
  mkClientFSM None ValidateArgs "" "" [] 0 None None [].

Definition ValidateArgsState (os : OS) (fsm : ClientFSM) : ClientState * ClientFSM :=
  let args := os_Args os in
  if len args <? arguments then
    (HandleFatalError,
     set_err (Some (errors_New
       "invalid number of arguments, <ip> <port> <filename1>...<filenameN>")) fsm)
  else
    let fsm := set_ip (nth 0 args ""%string) fsm in
    let fsm := set_port (nth 1 args ""%string) fsm in
    let fsm := set_fileNames (skipn 2 args) fsm in
    (ParseIP, fsm).

Definition ParseIPState (fsm : ClientFSM) : ClientState * ClientFSM :=
  let fsm :=
    if strings_Contains (ip fsm) ":" then set_ip ("[" ++ ip fsm ++ "]")%string fsm
    else fsm in
  (ConnetServer, fsm).

Definition ConnetServerState (os : OS) (fsm : ClientFSM) : ClientState * ClientFSM :=
  match net_Dial os trans (ip fsm ++ ":" ++ port fsm)%string with
  | inr e => (HandleFatalError, set_err (Some e) (set_writer None fsm))
  | inl c => (SendFileCount, set_writer (Some (NewWriter c)) (set_err None fsm))
  end.

Definition SendFileCountState (fsm : ClientFSM) : Outcome (ClientState * ClientFSM) :=
  match writer fsm with
  | None => Panic "nil pointer dereference"
  | Some w =>
      let '(err, w) := sendInt w (len (fileNames fsm)) in
      let fsm := set_writer (Some w) fsm in
      match err with
      | Some e => Done (HandleFatalError, set_err (Some e) fsm)
      | None => Done (OpenFile, set_currentFile 0 fsm)
      end
  end.

Definition OpenFileState (os : OS) (now : nat) (fsm : ClientFSM)
  : Outcome (ClientState * ClientFSM) :=
  (name <- index (fileNames fsm) (currentFile fsm) ;;
   match os_Open os now name with
   | inr e => Done (HandleError, set_err (Some e) (set_file None fsm))
   | inl f => Done (SendFileName, set_err None (set_file (Some f) fsm))
   end)%go.

(** [Stat] and [Close] on a nil [*os.File] report [os.ErrInvalid]. *)
Definition File_Stat (f : option File) : string + error :=
  match f with
  | Some f' => Stat f'
  | None => inr (errors_New "invalid argument")
  end.

Definition SendFileNameState (fsm : ClientFSM) : Outcome (ClientState * ClientFSM) :=
  match File_Stat (file fsm) with
  | inr e => Done (HandleError, close_file (set_err (Some e) fsm))
  | inl name =>
      let fname := list_byte_of_string name in
      match writer fsm with
      | None => Panic "nil pointer dereference"
      | Some w =>
          ('(_, err, w) <- sendBytes w fname ;;
           let fsm := set_err err (set_writer (Some w) fsm) in
           match err with
           | Some _ => Done (HandleFatalError, close_file fsm)
           | None => Done (ReadAndSendFileData, fsm)
           end)%go
      end
  end.

Definition ReadAndSendFileDataState (os : OS) (now : nat) (fsm : ClientFSM)
  : Outcome (ClientState * ClientFSM) :=
  (name <- index (fileNames fsm) (currentFile fsm) ;;
   match os_ReadFile os now name with
   | inr e => Done (HandleError, close_file (set_err (Some e) fsm))
   | inl fileData =>
       match writer fsm with
       | None => Panic "nil pointer dereference"
       | Some w =>
           '(_, err, w) <- sendBytes w fileData ;;
           let fsm := set_err err (set_writer (Some w) fsm) in
           match err with
           | Some _ => Done (HandleFatalError, close_file fsm)
           | None =>
               let fsm := close_file fsm in
               let fsm := println ("Sent file " ++ name) fsm in
               let fsm := set_currentFile (currentFile fsm + 1) fsm in
               Done (SendNextFile, fsm)
           end
       end
   end)%go.

Definition SendNextFileState (fsm : ClientFSM) : ClientState * ClientFSM :=
  if currentFile fsm >=? len (fileNames fsm) then (Terminate, fsm)
  else (OpenFile, fsm).

Definition HandleFatalErrorState (fsm : ClientFSM) : ClientState * ClientFSM :=
  (Terminate, println ("Fatal Error: " ++ show (err fsm)) fsm).

Definition HandleFileError (fsm : ClientFSM) : ClientState * ClientFSM :=
  let fsm := println ("Error: " ++ show (err fsm)) fsm in
  let fsm := set_currentFile (currentFile fsm + 1) fsm in
  (SendNextFile, fsm).

Definition TerminateState (fsm : ClientFSM) : ClientFSM :=
  let fsm := set_writer
    (option_map (fun w => mkWriter (Conn_Close (wr w)) (wbuf w) (werr w)) (writer fsm))
    fsm in
  println "Client Exiting..." fsm.

(** One round of the [for] loop of [Run] in a state other than [Terminate]:
    the state function is called and its result stored in [currentState].
    The [switch] has no case for [Initialization]: there the round changes
    nothing. *)
Definition step (os : OS) (now : nat) (fsm : ClientFSM) : Outcome ClientFSM :=
  let enter (r : ClientState * ClientFSM) := set_currentState (fst r) (snd r) in
  match currentState fsm with
  | Initialization => Done fsm
  | ValidateArgs => Done (enter (ValidateArgsState os fsm))
  | ParseIP => Done (enter (ParseIPState fsm))
  | ConnetServer => Done (enter (ConnetServerState os fsm))
  | SendFileCount => (r <- SendFileCountState fsm ;; Done (enter r))%go
  | OpenFile => (r <- OpenFileState os now fsm ;; Done (enter r))%go
  | SendFileName => (r <- SendFileNameState fsm ;; Done (enter r))%go
  | ReadAndSendFileData => (r <- ReadAndSendFileDataState os now fsm ;; Done (enter r))%go
  | SendNextFile => Done (enter (SendNextFileState fsm))
  | HandleFatalError => Done (enter (HandleFatalErrorState fsm))
  | HandleError => Done (enter (HandleFileError fsm))
  | Terminate => Done fsm
  end.

(** [n] rounds of the loop of [Run], none of them from [Terminate]. *)
Fixpoint steps (n : nat) (os : OS) (now : nat) (fsm : ClientFSM) : Outcome ClientFSM :=
  match n with
  | O => Done fsm
  | S n' => bind (step os now fsm) (steps n' os (S now))
  end.

(** [Run]: the loop returns from the state [Terminate]; [now] counts the
    rounds made so far. *)
Fixpoint Run (fuel : nat) (os : OS) (now : nat) (fsm : ClientFSM) : Outcome ClientFSM :=
  match fuel with
  | O => OutOfFuel
  | S fuel' =>
      match currentState fsm with
      | Terminate => Done (TerminateState fsm)
      | _ => (fsm' <- step os now fsm ;; Run fuel' os (S now) fsm')%go
      end
  end.

(** The machine as it stands at the head of each round of [Run], the first
    [fuel] rounds at most. *)
Fixpoint rounds (fuel : nat) (os : OS) (now : nat) (fsm : ClientFSM) : list ClientFSM :=
  match fuel with
  | O => []
  | S fuel' =>
      fsm ::
      match currentState fsm with
      | Terminate => []
      | _ =>
          match step os now fsm with
          | Done fsm' => rounds fuel' os (S now) fsm'
          | _ => []
          end
      end
  end.

(** The files the client attempts: a file is attempted each time the machine
    is in [OpenFile], and it is the one under the cursor. *)
Definition attempted (tr : list ClientFSM) : list string :=
  flat_map (fun fsm =>
    match currentState fsm with
    | OpenFile => [nth (Z.to_nat (currentFile fsm)) (fileNames fsm) ""%string]
    | _ => []
    end) tr.

(** [validateArgs] (client.go): the function that [ValidateArgsState]
    repeats; nothing calls it. *)
Definition validateArgs (args : list string)
  : (string * string * list string) * option error :=
  if len args <? arguments then
    ((""%string, ""%string, []),
     Some (errors_New
       "invalid number of arguments, <ip> <port> <filename1>...<filenameN>"))
  else ((nth 0 args ""%string, nth 1 args ""%string, skipn 2 args), None).

(** [main]. *)
Definition main (fuel : nat) (os : OS) : Outcome ClientFSM :=
  Run fuel os 0%nat NewClientFSM.

End Client.

(** ** The server *)

Module Server.

Definition trans : string := "tcp".
Definition arguments : Z := 3.

Inductive ServerState : Type :=
| Initialization
| ValidateArgs
| ParseIP
| MakeStorageDirectory
| SetListening
| Listening
| Termination
| FatalError.

Inductive HandleClientState : Type :=
| ReadNumFiles
| ReadFileName
| ReadFileContent
| WriteFile
| ReceiveNextFile
| HandleError
| Exit.

(** The struct [ServerFSM], without the listener and the signal channel,
    which only the accept loop uses. *)
Record ServerFSM : Type := mkServerFSM {
  s_err : option error;
  s_currentState : ServerState;
  shouldRun : Z;
  ip : string;
  port : string;
  s_storageDir : string
}.

Definition NewServerFSM : ServerFSM :=
  mkServerFSM None Initialization 1 "" "" "".

Definition ValidateArgsState (args : list string) (fsm : ServerFSM)
  : ServerState * ServerFSM :=
  if negb (len args =? arguments) then
    (FatalError,
     mkServerFSM (Some (errors_New
                   "invalid number of arguments, <ip> <port> <storage Directory>"))
                 (s_currentState fsm) (shouldRun fsm) (ip fsm) (port fsm)
                 (s_storageDir fsm))
  else
    (ParseIP,
     mkServerFSM (s_err fsm) (s_currentState fsm) (shouldRun fsm)
                 (nth 0 args ""%string) (nth 1 args ""%string) (nth 2 args ""%string)).

Definition ParseIPState (fsm : ServerFSM) : ServerState * ServerFSM :=
  let fsm :=
    if strings_Contains (ip fsm) ":"
    then mkServerFSM (s_err fsm) (s_currentState fsm) (shouldRun fsm)
                     ("[" ++ ip fsm ++ "]")%string (port fsm) (s_storageDir fsm)
    else fsm in
  (MakeStorageDirectory, fsm).

(** The file system as a connection handler sees it: whether [os.Create]
    and the [Write] that follows succeed, at a given time and path. *)
Record OS : Type := mkOS {
  os_Create : nat -> string -> option error;
  File_Write : nat -> string -> option error
}.

(** The struct [HandleClientFSM].  The field [con] and the connection inside
    [reader] are one object: [con] is read off [reader].  [disk] is the list
    of the files created, the oldest first, each with its content, and
    [output] collects the lines printed. *)
Record HandleClientFSM : Type := mkHandleClientFSM {
  err : option error;
  currentState : HandleClientState;
  numFiles : Z;
  currentFile : Z;
  fileName : string;
  storageDir : string;
  fileContent : list byte;
  reader : Reader;
  disk : list (string * list byte);
  output : list string
}.

Definition con (fsm : HandleClientFSM) : Conn := rd (reader fsm).

Definition set_err (e : option error) (fsm : HandleClientFSM) : HandleClientFSM :=
  mkHandleClientFSM e (currentState fsm) (numFiles fsm) (currentFile fsm) (fileName fsm)
    (storageDir fsm) (fileContent fsm) (reader fsm) (disk fsm) (output fsm).
Definition set_currentState (s : HandleClientState) (fsm : HandleClientFSM)
  : HandleClientFSM :=
  mkHandleClientFSM (err fsm) s (numFiles fsm) (currentFile fsm) (fileName fsm)
    (storageDir fsm) (fileContent fsm) (reader fsm) (disk fsm) (output fsm).
Definition set_numFiles (n : Z) (fsm : HandleClientFSM) : HandleClientFSM :=
  mkHandleClientFSM (err fsm) (currentState fsm) n (currentFile fsm) (fileName fsm)
    (storageDir fsm) (fileContent fsm) (reader fsm) (disk fsm) (output fsm).
Definition set_currentFile (i : Z) (fsm : HandleClientFSM) : HandleClientFSM :=
  mkHandleClientFSM (err fsm) (currentState fsm) (numFiles fsm) i (fileName fsm)
    (storageDir fsm) (fileContent fsm) (reader fsm) (disk fsm) (output fsm).
Definition set_fileName (s : string) (fsm : HandleClientFSM) : HandleClientFSM :=
  mkHandleClientFSM (err fsm) (currentState fsm) (numFiles fsm) (currentFile fsm) s
    (storageDir fsm) (fileContent fsm) (reader fsm) (disk fsm) (output fsm).
Definition set_fileContent (d : list byte) (fsm : HandleClientFSM) : HandleClientFSM :=
  mkHandleClientFSM (err fsm) (currentState fsm) (numFiles fsm) (currentFile fsm)
    (fileName fsm) (storageDir fsm) d (reader fsm) (disk fsm) (output fsm).
Definition set_reader (r : Reader) (fsm : HandleClientFSM) : HandleClientFSM :=
  mkHandleClientFSM (err fsm) (currentState fsm) (numFiles fsm) (currentFile fsm)
    (fileName fsm) (storageDir fsm) (fileContent fsm) r (disk fsm) (output fsm).
Definition set_disk (d : list (string * list byte)) (fsm : HandleClientFSM)
  : HandleClientFSM :=
  mkHandleClientFSM (err fsm) (currentState fsm) (numFiles fsm) (currentFile fsm)
    (fileName fsm) (storageDir fsm) (fileContent fsm) (reader fsm) d (output fsm).
Definition println (line : string) (fsm : HandleClientFSM) : HandleClientFSM :=
  mkHandleClientFSM (err fsm) (currentState fsm) (numFiles fsm) (currentFile fsm)
    (fileName fsm) (storageDir fsm) (fileContent fsm) (reader fsm) (disk fsm)
    (output fsm ++ [line]).

Definition NewHandleClientFSM (con : Conn) (storageDir : string) : HandleClientFSM :=
  mkHandleClientFSM None ReadNumFiles 0 0 "" storageDir [] (NewReader con) [] [].

Definition ReadNumFilesState (fsm : HandleClientFSM)
  : HandleClientState * HandleClientFSM :=
  let '((n, e), r) := receiveInt (reader fsm) in
  let fsm := set_err e (set_numFiles n (set_reader r fsm)) in
  match e with
  | Some _ => (HandleError, fsm)
  | None => (ReadFileName, fsm)
  end.

Definition ReadFileNameState (fsm : HandleClientFSM)
  : Outcome (HandleClientState * HandleClientFSM) :=
  ('(fileName, e, r) <- receiveBytes (reader fsm) ;;
   let fsm := set_reader r fsm in
   match e with
   | Some e' => Done (HandleError, set_err (Some e') fsm)
   | None => Done (ReadFileContent, set_fileName (string_of_list_byte fileName) fsm)
   end)%go.

Definition ReadFileContentState (fsm : HandleClientFSM)
  : Outcome (HandleClientState * HandleClientFSM) :=
  ('(content, e, r) <- receiveBytes (reader fsm) ;;
   let fsm := set_err e (set_fileContent content (set_reader r fsm)) in
   match e with
   | Some _ => Done (HandleError, fsm)
   | None => Done (WriteFile, fsm)
   end)%go.

Definition WriteFileState (os : OS) (now : nat) (fsm : HandleClientFSM)
  : HandleClientState * HandleClientFSM :=
  let path := (storageDir fsm ++ "/" ++ fileName fsm)%string in
  match os_Create os now path with
  | Some e => (HandleError, set_err (Some e) fsm)
  | None =>
      match File_Write os now path with
      | Some e =>
          (HandleError, set_err (Some e) (set_disk (disk fsm ++ [(path, [])]) fsm))
      | None =>
          let fsm := set_disk (disk fsm ++ [(path, fileContent fsm)]) fsm in
          let fsm :=
            println ("created file " ++ fileName fsm ++ " in " ++ storageDir fsm) fsm in
          let fsm := set_currentFile (currentFile fsm + 1) fsm in
          (ReceiveNextFile, fsm)
      end
  end.

Definition ReceiveNextFileState (fsm : HandleClientFSM)
  : HandleClientState * HandleClientFSM :=
  if currentFile fsm =? numFiles fsm then (Exit, fsm) else (ReadFileName, fsm).

Definition HandleErrorState (fsm : HandleClientFSM)
  : Outcome (HandleClientState * HandleClientFSM) :=
  match err fsm with
  | None => Panic "nil pointer dereference"
  | Some e =>
      let fsm :=
        if String.eqb (Error e) "EOF"
        then println "Error: Client closed connection" fsm
        else fsm in
      let fsm := println ("Error: " ++ show (err fsm)) fsm in
      Done (Exit, fsm)
  end.

(** The body of the [switch] of [Run].  Its case [Exit] closes the
    connection, but [Run] never enters the [switch] in that state. *)
Definition step (os : OS) (now : nat) (fsm : HandleClientFSM) : Outcome HandleClientFSM :=
  let enter (r : HandleClientState * HandleClientFSM) :=
    set_currentState (fst r) (snd r) in
  match currentState fsm with
  | ReadNumFiles => Done (enter (ReadNumFilesState fsm))
  | ReadFileName => (r <- ReadFileNameState fsm ;; Done (enter r))%go
  | ReadFileContent => (r <- ReadFileContentState fsm ;; Done (enter r))%go
  | WriteFile => Done (enter (WriteFileState os now fsm))
  | ReceiveNextFile => Done (enter (ReceiveNextFileState fsm))
  | HandleError => (r <- HandleErrorState fsm ;; Done (enter r))%go
  | Exit => Done (set_reader (mkReader (Conn_Close (con fsm)) (rbuf (reader fsm))) fsm)
  end.

(** [Run]: [for fsm.currentState != Exit { switch ... }]. *)
Fixpoint Run (fuel : nat) (os : OS) (now : nat) (fsm : HandleClientFSM)
  : Outcome HandleClientFSM :=
  match currentState fsm with
  | Exit => Done fsm
  | _ =>
      match fuel with
      | O => OutOfFuel
      | S fuel' => (fsm' <- step os now fsm ;; Run fuel' os (S now) fsm')%go
      end
  end.

End Server.

(** * Vocabulary of the statements *)

(** ** Streams *)

(** A connection on which the peer sends the segments [segs] and then
    closes; nothing has been written to it and no write to it fails. *)
Definition peer (segs : list (list byte)) : Conn :=
  mkConn segs io_EOF [] 0 (fun _ => None) false.

(** The connection [c] after a successful [Write] of [p]. *)
Definition push (c : Conn) (p : list byte) : Conn :=
  mkConn (incoming c) (hangup c) (outgoing c ++ [p]) (S (wcount c)) (wfault c) (closed c).

(** The bytes a reader has yet to hand out, in order, and the number of
    segments its connection has yet to deliver. *)
Definition pending (r : Reader) : list byte := rbuf r ++ concat (incoming (rd r)).
Definition segments (r : Reader) : nat := List.length (incoming (rd r)).

(** Four bytes are at hand for the next [Read]: in the buffer of the reader
    or, when it is empty, in the first segment of the connection. *)
Definition header_at_hand (r : Reader) : bool :=
  match rbuf r with
  | [] => match incoming (rd r) with
          | seg :: _ => 4 <=? len seg
          | [] => false
          end
  | _ => 4 <=? len (rbuf r)
  end.

(** The stream is at its end: nothing is buffered and nothing will arrive. *)
Definition at_end (r : Reader) : bool :=
  match rbuf r, incoming (rd r) with
  | [], [] => true
  | _, _ => false
  end.

(** A writer that holds no byte and no error, as after every [Flush] that
    succeeded. *)
Definition flushed (w : Writer) : Prop := wbuf w = [] /\ werr w = None.

(** A lossless stream: what was written between the writers [w] and [w'] is
    what the reader [r] has yet to hand out, cut into segments in any way. *)
Definition lossless (w w' : Writer) (r : Reader) : Prop :=
  concat (outgoing (wr w')) = concat (outgoing (wr w)) ++ pending r.

(** The lossless stream on which every write made between [w] and [w']
    arrives as one segment. *)
Definition delivered_as_written (w w' : Writer) : Reader :=
  NewReader (peer (skipn (List.length (outgoing (wr w))) (outgoing (wr w')))).

(** The function returned. *)
Definition returns {A : Type} (o : Outcome A) : Prop :=
  match o with
  | Done _ => True
  | _ => False
  end.

(** ** The codec *)

(** The four bytes [sendInt] writes for [n]. *)
Definition header (n : Z) : list byte := PutUint32 (zeros 4) (to_uint32 (to_int32 n)).

(** The unsigned number that bytes denote, most significant byte first. *)
Definition big_endian (b : list byte) : Z :=
  fold_left (fun acc x => acc * 256 + byte_val x) b 0.

Definition bytes (s : string) : list byte := list_byte_of_string s.

(** A blob of [2^32] bytes. *)
Definition four_GiB : list byte := zeros (2 ^ 32).

(** C3 as it is written: with four bytes on the stream [receiveInt] takes
    them and returns their big-endian signed 32-bit value; with fewer it
    fails. *)
Definition receiveInt_as_claimed (r : Reader) : Prop :=
  (4 <= len (pending r) ->
   exists r', receiveInt r = ((to_int32 (big_endian (firstn 4 (pending r))), None), r')
              /\ pending r = firstn 4 (pending r) ++ pending r') /\
  (len (pending r) < 4 -> exists v e r', receiveInt r = ((v, Some e), r')).

(** ** Addresses *)

(** The address-parsing step in the words of the specification: a host that
    contains a colon is wrapped in square brackets, any other host is left
    as it is. *)
Definition ParseAddress (host : string) : string :=
  if existsb (Ascii.eqb ":") (list_ascii_of_string host)
  then ("[" ++ host ++ "]")%string
  else host.

(** ** Runs of the client *)

Module ClientSpec.
Import Client.

(** [k] rounds of [Run] lead from [fsm] to [fsm'], through the machines
    [pre]. *)
Definition leads (os : OS) (now : nat) (fsm : ClientFSM) (k : nat)
    (pre : list ClientFSM) (fsm' : ClientFSM) : Prop :=
  forall f,
    Run (k + f) os now fsm = Run f os (k + now) fsm' /\
    rounds (k + f) os now fsm = pre ++ rounds f os (k + now) fsm'.

(** What [net.Dial] answers for the address the client composes. *)
Definition dialled (os : OS) : Conn + error :=
  net_Dial os trans
    (ParseAddress (nth 0 (os_Args os) "") ++ ":" ++ nth 1 (os_Args os) "")%string.

(** The scenario of the specification, on the connection [c]: [a.txt] holds
    "hi" and [b.txt] does not exist. *)
Definition os_demo (c : Conn) : OS :=
  mkOS ["127.0.0.1"; "9000"; "a.txt"; "b.txt"]%string
       (fun _ _ => inl c)
       (fun _ path =>
          if String.eqb path "a.txt" then inl (mkFile (inl "a.txt"%string) true)
          else inr (errors_New "open b.txt: no such file or directory"))
       (fun _ path =>
          if String.eqb path "a.txt" then inl (bytes "hi")
          else inr (errors_New "open b.txt: no such file or directory")).

(** A connection on which every write but the first fails, and one on which
    every write fails. *)
Definition broken_pipe : Conn :=
  mkConn [] io_EOF [] 0
         (fun k => match k with O => None | S _ => Some (errors_New "broken pipe") end)
         false.

Definition dead_pipe : Conn :=
  mkConn [] io_EOF [] 0 (fun _ => Some (errors_New "broken pipe")) false.

(** The machine of the scenario in the state [s] with the cursor at [i]. *)
Definition at_file (s : ClientState) (i : Z) (c : Conn) : ClientFSM :=
  mkClientFSM None s "127.0.0.1" "9000" ["a.txt"; "b.txt"]%string i
              (Some (NewWriter c)) None [].

End ClientSpec.

(** ** Sessions of the server *)

Module ServerSpec.
Import Server.

(** The reader hands out the file units [files], names and contents in turn,
    each without an error, and is [r'] afterwards. *)
Fixpoint receives (r : Reader) (files : list (list byte * list byte)) (r' : Reader) : Prop :=
  match files with
  | [] => r' = r
  | (name, content) :: rest =>
      exists r1 r2,
        receiveBytes r = Done ((name, None), r1) /\
        receiveBytes r1 = Done ((content, None), r2) /\
        receives r2 rest r'
  end.

(** Where a file unit is stored, and with what content. *)
Definition stored (dir : string) (unit : list byte * list byte) : string * list byte :=
  ((dir ++ "/" ++ string_of_list_byte (fst unit))%string, snd unit).

(** The line printed when a file unit has been stored. *)
Definition report (dir : string) (unit : list byte * list byte) : string :=
  ("created file " ++ string_of_list_byte (fst unit) ++ " in " ++ dir)%string.

(** The lines printed in [HandleError] for the error [e]. *)
Definition complaint (e : error) : list string :=
  (if String.eqb (Error e) "EOF" then ["Error: Client closed connection"%string] else [])
  ++ [("Error: " ++ Error e)%string].

(** A file system on which nothing fails. *)
Definition sound_disk : OS := mkOS (fun _ _ => None) (fun _ _ => None).

(** A session that declares no file and then sends one. *)
Definition zero_count_session : HandleClientFSM :=
  NewHandleClientFSM
    (peer [[x00; x00; x00; x00];
           [x00; x00; x00; x01]; bytes "a";
           [x00; x00; x00; x01]; bytes "x"])
    "store".

(** A session that declares no file and is closed. *)
Definition empty_session : HandleClientFSM :=
  NewHandleClientFSM (peer [[x00; x00; x00; x00]]) "store".

(** The session of the scenario: one file, [a.txt], that holds "hi". *)
Definition demo_session : HandleClientFSM :=
  NewHandleClientFSM
    (peer [[x00; x00; x00; x01];
           [x00; x00; x00; x05]; bytes "a.txt";
           [x00; x00; x00; x02]; bytes "hi"])
    "store".

(** C7 as it is written: an [io.EOF] is reported by the client-closed line
    and by no other. *)
Definition HandleError_as_claimed (fsm : HandleClientFSM) : Prop :=
  forall fsm',
    err fsm = Some io_EOF ->
    HandleErrorState fsm = Done (Exit, fsm') ->
    output fsm' = output fsm ++ ["Error: Client closed connection"%string].

End ServerSpec.

(** ** Transfers *)

(** The connection [c] with the segments [segs] yet to arrive. *)
Definition feed (c : Conn) (segs : list (list byte)) : Conn :=
  mkConn segs (hangup c) (outgoing c) (wcount c) (wfault c) (closed c).

(** What a reader has yet to hand out, counted in bytes and segments: no
    successful read leaves it as it was. *)
Definition backlog (r : Reader) : nat := (List.length (pending r) + segments r)%nat.

(** The writer sends the file units [units], names and contents in turn,
    each without an error, and is [w'] afterwards. *)
Fixpoint sends (w : Writer) (units : list (list byte * list byte)) (w' : Writer) : Prop :=
  match units with
  | [] => w' = w
  | (name, content) :: rest =>
      exists n1 n2 w1 w2,
        sendBytes w name = Done ((n1, None), w1) /\
        sendBytes w1 content = Done ((n2, None), w2) /\
        sends w2 rest w'
  end.

(** Blobs that fit the length prefix. *)
Definition fits (unit : list byte * list byte) : Prop :=
  len (fst unit) < 2 ^ 32 /\ len (snd unit) < 2 ^ 32.

Module TransferSpec.
Import Client.

(** Every file of [names] can be opened, named and read at any time: its
    base name is [base path] and its content [content path]. *)
Definition readable (os : OS) (base : string -> string) (content : string -> list byte)
    (names : list string) : Prop :=
  forall t path,
    In path names ->
    (exists f, os_Open os t path = inl f /\ Stat f = inl (base path)) /\
    os_ReadFile os t path = inl (content path).

(** The file unit the client sends for [path]. *)
Definition unit_of (base : string -> string) (content : string -> list byte)
    (path : string) : list byte * list byte :=
  (list_byte_of_string (base path), content path).

(** The connection is closed, or was never made; the file is closed, or was
    never opened. *)
Definition con_closed (fsm : ClientFSM) : Prop :=
  match writer fsm with
  | Some w => closed (wr w) = true
  | None => True
  end.

Definition file_closed (fsm : ClientFSM) : Prop :=
  match file fsm with
  | Some f => is_open f = false
  | None => True
  end.

(** A batch of one file: [a.txt], which holds "hi". *)
Definition os_hi : OS :=
  mkOS ["127.0.0.1"; "9000"; "a.txt"]%string
       (fun _ _ => inl (peer []))
       (fun _ path => inl (mkFile (inl path) true))
       (fun _ _ => inl (bytes "hi")).

(** A batch of two: [docs], a directory, which can be opened and named and
    not read, and [b.txt], which holds "hi". *)
Definition os_unread : OS :=
  mkOS ["127.0.0.1"; "9000"; "docs"; "b.txt"]%string
       (fun _ _ => inl (peer []))
       (fun _ path => inl (mkFile (inl path) true))
       (fun _ path =>
          if String.eqb path "docs" then inr (errors_New "read docs: is a directory")
          else inl (bytes "hi")).

End TransferSpec.

(** * Proofs *)

(** ** Integers and bytes *)

Lemma byte_val_range (b : byte) : 0 <= byte_val b < 256.
Proof.
  unfold byte_val. pose proof (Byte.to_N_bounded b). lia.
Qed.

Lemma byte_val_to_byte (x : Z) : byte_val (to_byte x) = x mod 256.
Proof.
  unfold byte_val, to_byte.
  assert (Hr : 0 <= x mod 256 < 256) by (apply Z.mod_pos_bound; lia).
  destruct (Byte.of_N (Z.to_N (x mod 256))) as [b|] eqn:E.
  - apply Byte.to_of_N in E. rewrite E. lia.
  - apply Byte.of_N_None_iff in E. lia.
Qed.

Lemma to_byte_byte_val (b : byte) : to_byte (byte_val b) = b.
Proof.
  unfold to_byte. pose proof (byte_val_range b) as Hr.
  rewrite Z.mod_small by lia. unfold byte_val. rewrite N2Z.id.
  now rewrite Byte.of_to_N.
Qed.

(** Below [2^k] a number shares no bit with a multiple of [2^k]. *)
Lemma lor_shiftl_add (lo hi k : Z) :
  0 <= k -> 0 <= lo < 2 ^ k -> Z.lor lo (Z.shiftl hi k) = lo + hi * 2 ^ k.
Proof.
  intros Hk Hlo.
  assert (Hdisj : Z.land lo (Z.shiftl hi k) = 0).
  { apply Z.bits_inj'. intros n Hn.
    rewrite Z.land_spec, Z.bits_0.
    destruct (Z.lt_ge_cases n k) as [Hlt|Hge].
    - rewrite Z.shiftl_spec_low by lia. apply andb_false_r.
    - replace lo with (lo mod 2 ^ k) by (apply Z.mod_small; lia).
      rewrite Z.mod_pow2_bits_high by lia. reflexivity. }
  rewrite <- Z.lxor_lor by exact Hdisj.
  rewrite <- Z.add_nocarry_lxor by exact Hdisj.
  now rewrite Z.shiftl_mul_pow2 by lia.
Qed.

(** What [Uint32] computes, as a sum. *)
Lemma Uint32_sum (b : list byte) :
  Uint32 b = byte_val (nth 3 b x00) + byte_val (nth 2 b x00) * 2 ^ 8
             + byte_val (nth 1 b x00) * 2 ^ 16 + byte_val (nth 0 b x00) * 2 ^ 24.
Proof.
  unfold Uint32.
  pose proof (byte_val_range (nth 0 b x00)).
  pose proof (byte_val_range (nth 1 b x00)).
  pose proof (byte_val_range (nth 2 b x00)).
  pose proof (byte_val_range (nth 3 b x00)).
  rewrite (lor_shiftl_add _ _ 8) by lia.
  rewrite (lor_shiftl_add _ _ 16) by lia.
  rewrite (lor_shiftl_add _ _ 24) by lia.
  reflexivity.
Qed.

Lemma Uint32_range (b : list byte) : 0 <= Uint32 b <= 2 ^ 32 - 1.
Proof.
  rewrite Uint32_sum.
  pose proof (byte_val_range (nth 0 b x00)).
  pose proof (byte_val_range (nth 1 b x00)).
  pose proof (byte_val_range (nth 2 b x00)).
  pose proof (byte_val_range (nth 3 b x00)).
  lia.
Qed.

Lemma PutUint32_zeros (v : Z) :
  PutUint32 (zeros 4) v =
  [to_byte (Z.shiftr v 24); to_byte (Z.shiftr v 16); to_byte (Z.shiftr v 8); to_byte v].
Proof. reflexivity. Qed.

Lemma Uint32_PutUint32 (v : Z) :
  0 <= v < 2 ^ 32 -> Uint32 (PutUint32 (zeros 4) v) = v.
Proof.
  intros Hv. rewrite Uint32_sum, PutUint32_zeros. cbn [nth].
  rewrite !byte_val_to_byte, !Z.shiftr_div_pow2 by lia.
  change (2 ^ 8) with 256. change (2 ^ 16) with 65536.
  change (2 ^ 24) with 16777216. change (2 ^ 32) with 4294967296 in Hv.
  Z.to_euclidean_division_equations. lia.
Qed.

Lemma to_int_small (v : Z) : - 2 ^ 63 <= v < 2 ^ 63 -> to_int v = v.
Proof.
  intros Hv. unfold to_int, wrap, intSize.
  change (2 ^ (64 - 1)) with (2 ^ 63).
  rewrite Z.mod_small; [lia|].
  change (2 ^ 64) with (2 * 2 ^ 63). lia.
Qed.

Lemma to_uint32_to_int32 (n : Z) : to_uint32 (to_int32 n) = n mod 2 ^ 32.
Proof.
  unfold to_uint32, to_int32, wrap.
  change (2 ^ (32 - 1)) with 2147483648. change (2 ^ 32) with 4294967296.
  Z.to_euclidean_division_equations. lia.
Qed.

(** ** Slices *)

Lemma len_nonneg {A} (s : list A) : 0 <= len s.
Proof. unfold len. lia. Qed.

Lemma len_app {A} (s t : list A) : len (s ++ t) = len s + len t.
Proof. unfold len. rewrite length_app. lia. Qed.

Lemma len_nil_inv {A} (s : list A) : len s = 0 -> s = [].
Proof. destruct s; [reflexivity | unfold len; simpl; lia]. Qed.

Lemma len_firstn_le {A} (n : Z) (s : list A) : 0 <= n -> len (firstn (Z.to_nat n) s) <= n.
Proof. intros Hn. unfold len. rewrite length_firstn. lia. Qed.

Lemma len_firstn {A} (n : Z) (s : list A) :
  0 <= n <= len s -> len (firstn (Z.to_nat n) s) = n.
Proof. unfold len. intros Hn. rewrite length_firstn. lia. Qed.

Lemma firstn_nil_inv {A} (n : nat) (s : list A) : (0 < n)%nat -> firstn n s = [] -> s = [].
Proof. destruct n; [lia|]. destruct s; [reflexivity | discriminate]. Qed.

Lemma len_zeros (n : Z) : 0 <= n -> len (zeros n) = n.
Proof. intros Hn. unfold len, zeros. rewrite repeat_length. lia. Qed.

Lemma splice_app {A} (got d z : list A) :
  len d <= len z ->
  splice (got ++ z) (len got) d = (got ++ d) ++ skipn (Z.to_nat (len d)) z.
Proof.
  intros Hd. unfold splice, len in *.
  rewrite Nat2Z.id, firstn_app, Nat.sub_diag, firstn_all. cbn [firstn].
  rewrite app_nil_r, <- app_assoc. do 2 f_equal.
  replace (Z.to_nat (Z.of_nat (List.length got) + Z.of_nat (List.length d)))
    with (List.length got + List.length d)%nat by lia.
  rewrite skipn_app, skipn_all2 by lia. cbn [app]. f_equal. lia.
Qed.

(** ** Reading from a connection *)

(** A successful [Read] hands out a prefix of what is pending, never more
    than asked for, and uses up a segment when it hands out nothing; a
    failing [Read] means that nothing was pending. *)
Lemma Conn_Read_spec (c : Conn) (n : Z) :
  0 < n ->
  match Conn_Read c n with
  | ((d, None), c') =>
      concat (incoming c) = d ++ concat (incoming c') /\ len d <= n /\
      (List.length (incoming c') <= List.length (incoming c))%nat /\
      (d = [] -> (List.length (incoming c') < List.length (incoming c))%nat) /\
      (forall seg rest, incoming c = seg :: rest -> d = firstn (Z.to_nat n) seg)
  | ((d, Some e), c') => d = [] /\ incoming c = [] /\ c' = c /\ e = hangup c
  end.
Proof.
  intros Hn. unfold Conn_Read. destruct (incoming c) as [|seg rest] eqn:E.
  - repeat split; assumption.
  - cbn [incoming concat]. repeat split.
    + rewrite <- (firstn_skipn (Z.to_nat n) seg) at 1. rewrite <- app_assoc. f_equal.
      destruct (skipn (Z.to_nat n) seg); reflexivity.
    + apply len_firstn_le. lia.
    + destruct (skipn (Z.to_nat n) seg); cbn [List.length]; lia.
    + intros Hd. apply firstn_nil_inv in Hd; [|lia]. subst seg.
      rewrite skipn_nil. cbn [List.length]. lia.
    + intros seg0 rest0 H. now inversion H.
Qed.

Lemma Reader_Read_spec (r : Reader) (n : Z) :
  0 < n ->
  match Reader_Read r n with
  | ((d, None), r') =>
      pending r = d ++ pending r' /\ len d <= n /\
      (segments r' <= segments r)%nat /\
      (d = [] -> (segments r' < segments r)%nat)
  | ((d, Some e), r') => d = [] /\ pending r = [] /\ e = hangup (rd r)
  end.
Proof.
  intros Hn. unfold Reader_Read, pending, segments.
  destruct (Z.eqb_spec n 0) as [|_]; [lia|].
  destruct (rbuf r) as [|b0 buf] eqn:Eb.
  - destruct (defaultBufSize <=? n).
    + pose proof (Conn_Read_spec (rd r) n Hn) as H.
      destruct (Conn_Read (rd r) n) as [[d [e|]] c'].
      * destruct H as (-> & Hi & -> & ->). cbn. rewrite Hi. auto.
      * destruct H as (Hc & Hl & Hs & Hs' & _). cbn [rd rbuf app]. auto.
    + pose proof (Conn_Read_spec (rd r) defaultBufSize eq_refl) as H.
      destruct (Conn_Read (rd r) defaultBufSize) as [[d [e|]] c'].
      * destruct H as (-> & Hi & -> & ->). cbn. rewrite Hi. auto.
      * destruct H as (Hc & Hl & Hs & Hs' & _). destruct d as [|b d].
        -- cbn [rd rbuf app] in *. repeat split; auto. unfold len; cbn; lia.
        -- cbn [rd rbuf]. repeat split.
           ++ rewrite Hc, app_nil_l, (app_assoc (firstn _ _)), firstn_skipn. reflexivity.
           ++ apply len_firstn_le. lia.
           ++ exact Hs.
           ++ intros Hd. apply firstn_nil_inv in Hd; [discriminate | lia].
  - cbn [rd rbuf]. repeat split.
    + rewrite app_assoc, firstn_skipn. reflexivity.
    + apply len_firstn_le. lia.
    + lia.
    + intros Hd. apply firstn_nil_inv in Hd; [discriminate | lia].
Qed.

(** ** receiveInt *)

Lemma app_prefix {A} (d p rest tail : list A) :
  d ++ p = rest ++ tail -> len d <= len rest ->
  exists rest', rest = d ++ rest' /\ p = rest' ++ tail.
Proof.
  intros E Hl. apply app_eq_app in E. destruct E as [l [[E1 E2]|[E1 E2]]].
  - assert (l = []).
    { apply len_nil_inv. subst d. rewrite len_app in Hl. pose proof (len_nonneg l). lia. }
    subst l. rewrite app_nil_r in E1. subst d. exists []. now rewrite app_nil_r.
  - exists l. auto.
Qed.

Lemma firstn_len_app {A} (d p : list A) : firstn (Z.to_nat (len d)) (d ++ p) = d.
Proof.
  unfold len. rewrite Nat2Z.id, firstn_app, Nat.sub_diag, firstn_all. cbn [firstn].
  apply app_nil_r.
Qed.

Lemma Uint32_big_endian (b : list byte) : len b = 4 -> Uint32 b = big_endian b.
Proof.
  intros Hb. destruct b as [|b0 [|b1 [|b2 [|b3 [|]]]]]; try (unfold len in Hb; simpl in Hb; lia).
  rewrite Uint32_sum. unfold big_endian. cbn [nth fold_left]. lia.
Qed.

Lemma splice_whole {A} (s d : list A) : len d = len s -> splice s 0 d = d.
Proof.
  intros Hl. unfold splice. cbn [Z.to_nat firstn app].
  rewrite skipn_all2, app_nil_r; [reflexivity|]. unfold len in *. lia.
Qed.

(** With four bytes at hand the single [Read] of [receiveInt] delivers
    four bytes. *)
Lemma Reader_Read_header (r : Reader) :
  header_at_hand r = true ->
  exists d r', Reader_Read r 4 = ((d, None), r') /\ len d = 4 /\
               pending r = d ++ pending r' /\ (segments r' <= segments r)%nat.
Proof.
  intros H. pose proof (Reader_Read_spec r 4 eq_refl) as S.
  unfold header_at_hand in H. unfold Reader_Read in *. cbn [Z.eqb] in *.
  destruct (rbuf r) as [|b0 buf] eqn:Eb.
  - destruct (incoming (rd r)) as [|seg rest] eqn:Ei; [discriminate|].
    apply Z.leb_le in H.
    change (defaultBufSize <=? 4) with false in *. cbv iota in *.
    unfold Conn_Read in *. rewrite Ei in *.
    remember (firstn (Z.to_nat defaultBufSize) seg) as d eqn:Ed.
    assert (Hd : 4 <= len d).
    { subst d. unfold len in *. rewrite length_firstn. unfold defaultBufSize. lia. }
    destruct d as [|x d]; [unfold len in Hd; simpl in Hd; lia|].
    eexists _, _. split; [reflexivity|]. destruct S as (S1 & S2 & S3 & S4).
    repeat split; try assumption. apply len_firstn. lia.
  - apply Z.leb_le in H. eexists _, _. split; [reflexivity|].
    destruct S as (S1 & S2 & S3 & S4). repeat split; try assumption.
    apply len_firstn. lia.
Qed.

Lemma receiveInt_header (r : Reader) :
  header_at_hand r = true ->
  exists d r', receiveInt r = ((Uint32 d, None), r') /\ len d = 4 /\
               pending r = d ++ pending r' /\ (segments r' <= segments r)%nat.
Proof.
  intros H. destruct (Reader_Read_header r H) as (d & r' & E & Hd & Hp & Hs).
  exists d, r'. unfold receiveInt. change (len (zeros 4)) with 4. rewrite E.
  rewrite splice_whole by (rewrite Hd; reflexivity).
  rewrite to_int_small; [auto|]. pose proof (Uint32_range d).
  change (2 ^ 32) with 4294967296 in *. change (2 ^ 63) with 9223372036854775808. lia.
Qed.

Lemma receiveInt_at_end (r : Reader) :
  at_end r = true -> receiveInt r = ((-1, Some (hangup (rd r))), r).
Proof.
  unfold at_end, receiveInt, Reader_Read, Conn_Read. change (len (zeros 4)) with 4.
  cbn [Z.eqb]. change (defaultBufSize <=? 4) with false. cbv iota.
  destruct r as [c buf]. cbn [rd rbuf].
  destruct buf; [|discriminate]. destruct (incoming c) eqn:E; [|discriminate].
  reflexivity.
Qed.

Lemma receiveInt_range (r : Reader) :
  match receiveInt r with
  | ((v, None), _) => 0 <= v <= 2 ^ 32 - 1
  | _ => True
  end.
Proof.
  unfold receiveInt. destruct (Reader_Read r (len (zeros 4))) as [[d [e|]] r']; [exact I|].
  pose proof (Uint32_range (splice (zeros 4) 0 d)) as Hr.
  rewrite to_int_small; [exact Hr|].
  change (2 ^ 32) with 4294967296 in *. change (2 ^ 63) with 9223372036854775808. lia.
Qed.

(** ** receiveBytes *)

Lemma readSize_pos (remaining : Z) :
  0 < remaining ->
  0 < (if remaining <? bufferSize then remaining else bufferSize) <= remaining.
Proof.
  intros H. destruct (Z.ltb_spec remaining bufferSize); unfold bufferSize in *; lia.
Qed.

(** The loop returns: a round either receives a byte or uses up a segment. *)
Lemma receiveBytes_loop_returns (fuel : nat) :
  forall r data size received,
    (Z.to_nat (size - received) + segments r <= fuel)%nat ->
    returns (receiveBytes_loop fuel r data size received).
Proof.
  induction fuel as [|fuel IH]; intros r data size received Hf.
  - cbn [receiveBytes_loop]. destruct (Z.ltb_spec received size); [lia | exact I].
  - cbn [receiveBytes_loop]. destruct (Z.ltb_spec received size) as [Hlt|]; [|exact I].
    pose proof (readSize_pos (size - received) ltac:(lia)) as Hrs.
    pose proof (Reader_Read_spec r _ (proj1 Hrs)) as S.
    destruct (Reader_Read r _) as [[d [e|]] r']; [exact I|].
    destruct S as (_ & Hl & Hs & Hs'). apply IH.
    pose proof (len_nonneg d). destruct d as [|x d].
    + specialize (Hs' eq_refl). unfold len in *. cbn [List.length] in *. lia.
    + unfold len in *. cbn [List.length] in *. lia.
Qed.

Lemma receiveBytes_returns (r : Reader) : returns (receiveBytes r).
Proof.
  unfold receiveBytes. pose proof (receiveInt_range r) as Hr.
  destruct (receiveInt r) as [[size [e|]] r']; [exact I|].
  destruct (Z.ltb_spec size 0); [lia|].
  apply receiveBytes_loop_returns. unfold segments. lia.
Qed.

(** The loop rebuilds the blob whatever the segments are. *)
Lemma receiveBytes_loop_ok (fuel : nat) :
  forall r got rest z tail,
    pending r = rest ++ tail -> len z = len rest ->
    (List.length rest + segments r <= fuel)%nat ->
    exists r',
      receiveBytes_loop fuel r (got ++ z) (len got + len rest) (len got)
      = Done ((got ++ rest, None), r') /\ pending r' = tail.
Proof.
  induction fuel as [|fuel IH]; intros r got rest z tail Hp Hz Hf.
  - destruct rest; [|cbn [List.length] in Hf; lia].
    apply len_nil_inv in Hz. subst z. cbn [receiveBytes_loop].
    change (len []) with 0. rewrite Z.add_0_r, Z.ltb_irrefl. eauto.
  - cbn [receiveBytes_loop]. destruct (Z.ltb_spec (len got) (len got + len rest)) as [Hlt|Hge].
    + pose proof (readSize_pos (len got + len rest - len got) ltac:(lia)) as Hrs.
      pose proof (Reader_Read_spec r _ (proj1 Hrs)) as S.
      destruct (Reader_Read r _) as [[d [e|]] r1].
      * destruct S as (_ & S & _). rewrite S in Hp.
        destruct rest; [unfold len in Hlt; simpl in Hlt; lia | discriminate].
      * destruct S as (Sp & Sl & Ss & Ss').
        rewrite Sp in Hp. apply app_prefix in Hp; [|lia].
        destruct Hp as (rest' & -> & Hp'). rewrite len_app in *.
        rewrite splice_app by lia.
        replace (len got + (len d + len rest')) with (len (got ++ d) + len rest')
          by (rewrite len_app; lia).
        replace (len got + len d) with (len (got ++ d)) by (rewrite len_app; lia).
        destruct (IH r1 (got ++ d) rest' (skipn (Z.to_nat (len d)) z) tail Hp')
          as (r' & E & Hr').
        -- unfold len in *. rewrite length_skipn. lia.
        -- rewrite length_app in Hf. destruct d as [|x d].
           ++ specialize (Ss' eq_refl). cbn [List.length] in *. lia.
           ++ cbn [List.length] in *. lia.
        -- exists r'. rewrite E, <- app_assoc. auto.
    + assert (rest = []) by (apply len_nil_inv; pose proof (len_nonneg rest); lia).
      subst rest. apply len_nil_inv in Hz. subst z. rewrite !app_nil_r in *.
      cbn [app] in Hp. eauto.
Qed.

(** A blob whose length prefix arrives in one piece is received whole. *)
Lemma receiveBytes_blob (r : Reader) (data tail : list byte) :
  len data < 2 ^ 32 ->
  header_at_hand r = true ->
  pending r = PutUint32 (zeros 4) (len data) ++ data ++ tail ->
  exists r', receiveBytes r = Done ((data, None), r') /\ pending r' = tail.
Proof.
  intros Hl Hh Hp. unfold receiveBytes.
  destruct (receiveInt_header r Hh) as (d & r1 & E & Hd & Hp1 & Hs). rewrite E.
  rewrite Hp1 in Hp. apply app_prefix in Hp.
  2:{ rewrite PutUint32_zeros. rewrite Hd. reflexivity. }
  destruct Hp as (rest' & Hd' & Hp2).
  assert (rest' = []).
  { apply len_nil_inv. apply (f_equal len) in Hd'. rewrite len_app, PutUint32_zeros in Hd'.
    change (len [_; _; _; _]) with 4 in Hd'. lia. }
  subst rest'. rewrite app_nil_r in Hd'. subst d. cbn [app] in Hp2.
  pose proof (len_nonneg data) as Hn.
  rewrite Uint32_PutUint32 by lia.
  destruct (Z.ltb_spec (len data) 0); [lia|].
  destruct (receiveBytes_loop_ok
              (Z.to_nat (len data) + List.length (incoming (rd r1)) + 1)
              r1 [] data (zeros (len data)) tail Hp2) as (r' & E' & Hr').
  - apply len_zeros. lia.
  - unfold segments, len. lia.
  - exists r'. cbn [app] in E'. change (len []) with 0 in E'. rewrite Z.add_0_l in E'.
    auto.
Qed.

(** ** Writing to a connection *)

(** From a flushed writer, [Write] then [Flush] of a non-empty [p] is one
    [Write] of [p] on the connection, whatever the size of [p]. *)
Lemma Write_Flush (w : Writer) (p : list byte) :
  flushed w -> p <> [] ->
  match Writer_Write w p with
  | ((_, Some _), _) => True
  | ((_, None), w1) =>
      match Writer_Flush w1 with
      | (Some _, _) => True
      | (None, w2) => w2 = mkWriter (push (wr w) p) [] None
      end
  end.
Proof.
  intros [Hb He] Hp. unfold Writer_Write. rewrite He, Hb. cbn [app].
  destruct (len p <=? defaultBufSize - len []).
  - unfold Writer_Flush. cbn [werr wbuf wr].
    destruct p as [|x p]; [congruence|].
    unfold Conn_Write. destruct (wfault (wr w) (wcount (wr w))); [exact I | reflexivity].
  - unfold Writer_direct, Conn_Write.
    destruct (wfault (wr w) (wcount (wr w))); [exact I|].
    unfold Writer_Flush. cbn [werr wbuf wr]. rewrite Hb. reflexivity.
Qed.

Lemma flushed_push (c : Conn) (p : list byte) : flushed (mkWriter (push c p) [] None).
Proof. split; reflexivity. Qed.

Lemma header_len (n : Z) : len (header n) = 4.
Proof. reflexivity. Qed.

Lemma sendInt_char (w : Writer) (num : Z) :
  flushed w ->
  match sendInt w num with
  | (Some _, _) => True
  | (None, w') => w' = mkWriter (push (wr w) (header num)) [] None
  end.
Proof.
  intros Hw. unfold sendInt. fold (header num).
  pose proof (Write_Flush w (header num) Hw) as H.
  destruct (Writer_Write w (header num)) as [[n [e|]] w1]; [exact I|].
  apply H. unfold header. rewrite PutUint32_zeros. discriminate.
Qed.

(** ** sendBytes *)

Lemma slice_chunk (data : list byte) (start : Z) :
  0 <= start < len data ->
  let end_ := if start + bufferSize >? len data then len data else start + bufferSize in
  slice data start end_ <> [] /\
  slice data start end_ ++ skipn (Z.to_nat (start + bufferSize)) data
  = skipn (Z.to_nat start) data /\
  len (slice data start end_) <= bufferSize.
Proof.
  intros Hs end_. unfold slice.
  assert (Hb : 0 < bufferSize) by reflexivity.
  assert (He : start < end_ <= start + bufferSize /\ end_ <= len data).
  { subst end_. destruct (Z.gtb_spec (start + bufferSize) (len data)); lia. }
  assert (Hend : end_ = len data \/ end_ = start + bufferSize /\ end_ <= len data).
  { subst end_. destruct (Z.gtb_spec (start + bufferSize) (len data)); lia. }
  clearbody end_.
  assert (Hk : len (skipn (Z.to_nat start) data) = len data - start).
  { unfold len in *. rewrite length_skipn. lia. }
  repeat split.
  - intros E. apply (f_equal len) in E. rewrite len_firstn in E by lia.
    change (len []) with 0 in E. lia.
  - replace (Z.to_nat (start + bufferSize)) with (Z.to_nat bufferSize + Z.to_nat start)%nat
      by lia.
    rewrite <- skipn_skipn.
    destruct Hend as [->|[-> _]].
    + rewrite firstn_all2 by (unfold len in *; lia).
      rewrite (@skipn_all2 _ (Z.to_nat bufferSize)) by (unfold len in *; lia).
      apply app_nil_r.
    + replace (start + bufferSize - start) with bufferSize by lia. apply firstn_skipn.
  - etransitivity; [apply len_firstn_le; lia | lia].
Qed.

(** A run of the loop that ends without an error has written what was left
    of [data], as chunks of at most [bufferSize] bytes. *)
Lemma sendBytes_loop_char (fuel : nat) :
  forall w data start res w',
    flushed w -> 0 <= start ->
    sendBytes_loop fuel w data start = Done ((res, None), w') ->
    res = len data /\ flushed w' /\
    exists chunks,
      outgoing (wr w') = outgoing (wr w) ++ chunks /\
      concat chunks = skipn (Z.to_nat start) data /\
      Forall (fun chunk => len chunk <= bufferSize) chunks.
Proof.
  induction fuel as [|fuel IH]; intros w data start res w' Hw Hs E;
    cbn [sendBytes_loop] in E; destruct (Z.ltb_spec start (len data)) as [Hlt|Hge].
  - discriminate.
  - inversion E; subst. repeat split; try apply Hw. exists [].
    rewrite app_nil_r, skipn_all2 by (unfold len in *; lia). auto.
  - destruct (slice_chunk data start (conj Hs Hlt)) as (Hne & Hcat & Hsz).
    cbv zeta in Hne, Hcat, Hsz.
    set (chunk := slice data start _) in *.
    pose proof (Write_Flush w chunk Hw Hne) as H.
    destruct (Writer_Write w chunk) as [[n [e|]] w1]; [discriminate|].
    destruct (Writer_Flush w1) as [[e|] w2]; [discriminate|]. subst w2.
    apply IH in E; [|apply flushed_push | unfold bufferSize; lia].
    destruct E as (-> & Hw' & chunks & Ho & Hc & Hf).
    repeat split; try apply Hw'. exists (chunk :: chunks).
    cbn [wr push outgoing] in Ho. rewrite Ho, <- app_assoc. cbn [app concat].
    rewrite Hc. auto.
  - inversion E; subst. repeat split; try apply Hw. exists [].
    rewrite app_nil_r, skipn_all2 by (unfold len in *; lia). auto.
Qed.

Lemma sendBytes_char (w : Writer) (data : list byte) (res : Z) (w' : Writer) :
  flushed w ->
  sendBytes w data = Done ((res, None), w') ->
  res = len data /\ flushed w' /\
  exists chunks,
    outgoing (wr w') = outgoing (wr w) ++ header (len data) :: chunks /\
    concat chunks = data /\
    Forall (fun chunk => len chunk <= bufferSize) chunks.
Proof.
  intros Hw E. unfold sendBytes in E. pose proof (sendInt_char w (len data) Hw) as H.
  destruct (sendInt w (len data)) as [[e|] w1]; [discriminate|]. subst w1.
  apply sendBytes_loop_char in E; [|apply flushed_push | lia].
  destruct E as (-> & Hw' & chunks & Ho & Hc & Hf).
  repeat split; try apply Hw'. exists chunks.
  cbn [wr push outgoing] in Ho. rewrite Ho, <- app_assoc. auto.
Qed.

(** The loop returns on the fuel [sendBytes] gives it. *)
Lemma sendBytes_loop_returns (fuel : nat) :
  forall w data start,
    len data - start <= Z.of_nat fuel * bufferSize ->
    returns (sendBytes_loop fuel w data start).
Proof.
  induction fuel as [|fuel IH]; intros w data start Hf; cbn [sendBytes_loop];
    destruct (Z.ltb_spec start (len data)); try exact I.
  - lia.
  - destruct (Writer_Write w _) as [[n [e|]] w1]; [exact I|].
    destruct (Writer_Flush w1) as [[e|] w2]; [exact I|].
    apply IH. lia.
Qed.

Lemma sendBytes_returns (w : Writer) (data : list byte) : returns (sendBytes w data).
Proof.
  unfold sendBytes. destruct (sendInt w (len data)) as [[e|] w1]; [exact I|].
  apply sendBytes_loop_returns. pose proof (len_nonneg data).
  rewrite Z2Nat.id by (apply Z.add_nonneg_nonneg; [apply Z.div_pos; [lia | reflexivity] | lia]).
  assert (0 < bufferSize) by reflexivity.
  pose proof (Z.mul_succ_div_gt (len data) bufferSize ltac:(lia)). lia.
Qed.

Lemma Write_Flush_ok (w : Writer) (p : list byte) :
  flushed w -> p <> [] -> wfault (wr w) (wcount (wr w)) = None ->
  exists n w1, Writer_Write w p = ((n, None), w1) /\
               Writer_Flush w1 = (None, mkWriter (push (wr w) p) [] None).
Proof.
  intros [Hb He] Hp Hf. unfold Writer_Write. rewrite He, Hb. cbn [app].
  destruct (len p <=? defaultBufSize - len []).
  - eexists _, _. split; [reflexivity|]. unfold Writer_Flush. cbn [werr wbuf wr].
    destruct p as [|x p]; [congruence|]. unfold Conn_Write. rewrite Hf. reflexivity.
  - unfold Writer_direct, Conn_Write. rewrite Hf. eexists _, _. split; [reflexivity|].
    unfold Writer_Flush. cbn [werr wbuf wr]. rewrite Hb. reflexivity.
Qed.

Lemma sendInt_ok (w : Writer) (num : Z) :
  flushed w -> wfault (wr w) (wcount (wr w)) = None ->
  sendInt w num = (None, mkWriter (push (wr w) (header num)) [] None).
Proof.
  intros Hw Hf. unfold sendInt. fold (header num).
  destruct (Write_Flush_ok w (header num) Hw) as (n & w1 & E1 & E2); [|exact Hf|].
  - unfold header. rewrite PutUint32_zeros. discriminate.
  - rewrite E1. exact E2.
Qed.

Lemma sendBytes_loop_ok (fuel : nat) :
  forall w data start,
    flushed w -> (forall k, wfault (wr w) k = None) -> 0 <= start ->
    len data - start <= Z.of_nat fuel * bufferSize ->
    exists w', sendBytes_loop fuel w data start = Done ((len data, None), w') /\
               forall k, wfault (wr w') k = None.
Proof.
  induction fuel as [|fuel IH]; intros w data start Hw Hf Hs Hfuel;
    cbn [sendBytes_loop]; destruct (Z.ltb_spec start (len data)) as [Hlt|Hge]; eauto.
  - lia.
  - destruct (slice_chunk data start (conj Hs Hlt)) as (Hne & _ & _). cbv zeta in Hne.
    destruct (Write_Flush_ok w _ Hw Hne (Hf _)) as (n & w1 & E1 & E2).
    rewrite E1, E2. apply IH.
    + apply flushed_push.
    + exact Hf.
    + unfold bufferSize. lia.
    + lia.
Qed.

(** With no failing write [sendBytes] sends the whole blob. *)
Lemma sendBytes_ok (w : Writer) (data : list byte) :
  flushed w -> (forall k, wfault (wr w) k = None) ->
  exists w', sendBytes w data = Done ((len data, None), w') /\
             forall k, wfault (wr w') k = None.
Proof.
  intros Hw Hf. unfold sendBytes. rewrite (sendInt_ok w _ Hw (Hf _)).
  apply sendBytes_loop_ok.
  - apply flushed_push.
  - exact Hf.
  - lia.
  - pose proof (len_nonneg data).
    rewrite Z2Nat.id
      by (apply Z.add_nonneg_nonneg; [apply Z.div_pos; [lia | reflexivity] | lia]).
    assert (0 < bufferSize) by reflexivity.
    pose proof (Z.mul_succ_div_gt (len data) bufferSize ltac:(lia)). lia.
Qed.

Lemma header_small (n : Z) : 0 <= n < 2 ^ 32 -> Uint32 (header n) = n.
Proof.
  intros Hn. unfold header. rewrite to_uint32_to_int32, Z.mod_small by lia.
  apply Uint32_PutUint32. exact Hn.
Qed.

Lemma big_endian_range (b : list byte) : len b = 4 -> 0 <= big_endian b <= 2 ^ 32 - 1.
Proof. intros Hb. rewrite <- Uint32_big_endian by exact Hb. apply Uint32_range. Qed.

(** ** The codec *)

Example sendInt_258 :
  outgoing (wr (snd (sendInt (NewWriter (peer [])) 258))) = [[x00; x00; x01; x02]].
Proof. reflexivity. Qed.

Example sendInt_negative :
  outgoing (wr (snd (sendInt (NewWriter (peer [])) (-1)))) = [[xff; xff; xff; xff]].
Proof. reflexivity. Qed.

Example sendBytes_hi :
  exists w',
    sendBytes (NewWriter (peer [])) (bytes "hi") = Done ((2, None), w') /\
    outgoing (wr w') = [[x00; x00; x00; x02]; bytes "hi"].
Proof. eexists. split; reflexivity. Qed.

Example sendBytes_empty :
  exists w',
    sendBytes (NewWriter (peer [])) [] = Done ((0, None), w') /\
    outgoing (wr w') = [[x00; x00; x00; x00]].
Proof. eexists. split; reflexivity. Qed.

Example receiveBytes_short_reads :
  exists r',
    receiveBytes (NewReader (peer [[x00; x00; x00; x05]; bytes "he"; bytes "l"; bytes "lo"]))
    = Done ((bytes "hello", None), r') /\ pending r' = [].
Proof. eexists. split; reflexivity. Qed.

Example receiveBytes_truncated :
  exists r',
    receiveBytes (NewReader (peer [[x00; x00; x00; x05]; bytes "he"]))
    = Done (([], Some io_EOF), r').
Proof. eexists. reflexivity. Qed.

(** An integer that [sendInt] wrote is what [receiveInt] returns at the other
    end of a lossless stream, when the four bytes are at hand for its read. *)
Lemma sendInt_receiveInt_lossless (n : Z) (w w' : Writer) (r : Reader) :
  0 <= n < 2 ^ 32 ->
  flushed w ->
  sendInt w n = (None, w') ->
  lossless w w' r ->
  header_at_hand r = true ->
  exists r', receiveInt r = ((n, None), r') /\ pending r' = [].
Proof.
  intros Hn Hw E Hl Hh.
  pose proof (sendInt_char w n Hw) as Hc. rewrite E in Hc. subst w'.
  unfold lossless in Hl. cbn [wr push outgoing] in Hl.
  rewrite concat_app in Hl. apply app_inv_head in Hl. cbn [concat] in Hl.
  rewrite app_nil_r in Hl.
  destruct (receiveInt_header r Hh) as (d & r' & Er & Hd & Hp & _).
  rewrite <- Hl in Hp.
  assert (Hr : pending r' = []).
  { apply len_nil_inv. apply (f_equal len) in Hp.
    rewrite len_app, header_len in Hp. lia. }
  rewrite Hr, app_nil_r in Hp. subst d.
  exists r'. split; [|exact Hr]. rewrite Er, header_small; [reflexivity | exact Hn].
Qed.

(** C6.  For every integer [n] with [0 <= n <= 2^31 - 1] and every
    connection whose next write succeeds, [sendInt] writes [n] without an
    error, and [receiveInt], run on the four bytes it wrote, returns [n] and
    leaves nothing unread. *)
Theorem sendInt_receiveInt (n : Z) (c : Conn) :
  0 <= n <= 2 ^ 31 - 1 ->
  wfault c (wcount c) = None ->
  exists w' r',
    sendInt (NewWriter c) n = (None, w') /\
    len (pending (delivered_as_written (NewWriter c) w')) = 4 /\
    receiveInt (delivered_as_written (NewWriter c) w') = ((n, None), r') /\
    pending r' = [].
Proof.
  intros Hn Hf.
  assert (Hw : flushed (NewWriter c)) by (split; reflexivity).
  pose proof (sendInt_ok (NewWriter c) n Hw Hf) as E.
  set (w' := mkWriter _ _ _) in E.
  assert (Hd : delivered_as_written (NewWriter c) w' = NewReader (peer [header n])).
  { unfold delivered_as_written, w'. cbn [wr NewWriter push outgoing].
    rewrite skipn_app, Nat.sub_diag, skipn_all. reflexivity. }
  destruct (sendInt_receiveInt_lossless n (NewWriter c) w'
              (delivered_as_written (NewWriter c) w')) as (r' & Er & Hr); auto.
  - change (2 ^ 31) with 2147483648 in Hn. change (2 ^ 32) with 4294967296. lia.
  - rewrite Hd. unfold lossless, pending, w'.
    cbn [wr NewWriter push outgoing NewReader peer rd rbuf incoming app concat].
    now rewrite concat_app.
  - rewrite Hd. reflexivity.
  - exists w', r'. rewrite Hd in *. auto.
Qed.

Lemma sendInt_receiveInt_witness :
  exists w' r',
    sendInt (NewWriter (peer [])) 258 = (None, w') /\
    len (pending (delivered_as_written (NewWriter (peer [])) w')) = 4 /\
    receiveInt (delivered_as_written (NewWriter (peer [])) w') = ((258, None), r') /\
    pending r' = [].
Proof.
  apply (sendInt_receiveInt 258 (peer [])).
  - lia.
  - reflexivity.
Defined.

(** C1, as amended.  A blob shorter than [2^32] bytes that [sendBytes] sent
    without an error on a flushed writer is what [receiveBytes] returns at
    the other end of a lossless stream, in however many chunks it was
    written and however the stream cuts it into segments, when the four
    bytes of the length are at hand for the read of [receiveInt]. *)
Theorem sendBytes_receiveBytes (data : list byte) (w w' : Writer) (res : Z) (r : Reader) :
  len data < 2 ^ 32 ->
  flushed w ->
  sendBytes w data = Done ((res, None), w') ->
  lossless w w' r ->
  header_at_hand r = true ->
  res = len data /\
  exists r', receiveBytes r = Done ((data, None), r') /\ pending r' = [].
Proof.
  intros Hn Hw E Hl Hh.
  destruct (sendBytes_char w data res w' Hw E) as (Hres & _ & chunks & Ho & Hc & _).
  split; [exact Hres|].
  unfold lossless in Hl. rewrite Ho, concat_app in Hl. apply app_inv_head in Hl.
  cbn [concat] in Hl. rewrite Hc in Hl.
  apply (receiveBytes_blob r data []); [exact Hn | exact Hh |].
  rewrite app_nil_r, <- Hl. unfold header.
  pose proof (len_nonneg data).
  rewrite to_uint32_to_int32, Z.mod_small by lia. reflexivity.
Qed.

Lemma sendBytes_receiveBytes_witness :
  3 = len ["h"%byte; "i"%byte; "!"%byte] /\
  exists r',
    receiveBytes (NewReader (peer [[x00; x00; x00; x03; "h"%byte]; ["i"%byte; "!"%byte]]))
    = Done ((["h"%byte; "i"%byte; "!"%byte], None), r') /\ pending r' = [].
Proof.
  apply (sendBytes_receiveBytes ["h"%byte; "i"%byte; "!"%byte] (NewWriter (peer []))
           (mkWriter (push (push (peer []) [x00; x00; x00; x03])
                           ["h"%byte; "i"%byte; "!"%byte]) [] None) 3).
  - vm_compute. reflexivity.
  - split; reflexivity.
  - vm_compute. reflexivity.
  - reflexivity.
  - reflexivity.
Defined.

(** A blob of exactly [2^32] bytes is announced with the length [0] and
    received as the empty blob. *)
Lemma wrapped_length (data : list byte) (w w' : Writer) (res : Z) :
  len data = 2 ^ 32 -> flushed w ->
  sendBytes w data = Done ((res, None), w') ->
  lossless w w' (delivered_as_written w w') /\
  header_at_hand (delivered_as_written w w') = true /\
  exists r', receiveBytes (delivered_as_written w w') = Done (([], None), r').
Proof.
  intros Hn Hw E.
  destruct (sendBytes_char w data res w' Hw E) as (_ & _ & chunks & Ho & Hc & _).
  rewrite Hn in Ho. change (header (2 ^ 32)) with [x00; x00; x00; x00] in Ho.
  unfold delivered_as_written. rewrite Ho, skipn_app, Nat.sub_diag, skipn_all.
  cbn [skipn app].
  split; [|split].
  - unfold lossless, pending. cbn [NewReader peer rd rbuf incoming app].
    now rewrite Ho, concat_app.
  - reflexivity.
  - unfold receiveBytes, receiveInt, Reader_Read, Conn_Read.
    cbn [NewReader peer rd rbuf incoming hangup outgoing wcount wfault closed].
    change (len (zeros 4)) with 4. cbn [Z.eqb].
    change (defaultBufSize <=? 4) with false. cbv iota.
    change (firstn (Z.to_nat defaultBufSize) [x00; x00; x00; x00])
      with [x00; x00; x00; x00].
    change (skipn (Z.to_nat defaultBufSize) [x00; x00; x00; x00]) with (@nil byte).
    cbv iota.
    change (firstn (Z.to_nat 4) [x00; x00; x00; x00]) with [x00; x00; x00; x00].
    change (splice (zeros 4) 0 [x00; x00; x00; x00]) with [x00; x00; x00; x00].
    change (to_int (Uint32 [x00; x00; x00; x00])) with 0.
    cbn [Z.ltb Z.compare]. 
    destruct (Z.to_nat 0 + _ + 1)%nat; cbn [receiveBytes_loop Z.ltb Z.compare]; eauto.
Qed.

Lemma len_four_GiB : len four_GiB = 2 ^ 32.
Proof. unfold four_GiB. apply len_zeros. discriminate. Qed.

(** C1 as it is written fails on the code in two ways.  A one-byte blob
    whose length prefix reaches the receiver in two segments is received as
    the empty blob; and so is a blob of [2^32] bytes, whose length does not
    fit the prefix. *)
Lemma sendBytes_receiveBytes_counterexample :
  (let w := NewWriter (peer []) in
   let r := NewReader (peer [[x00; x00]; [x00; x01; "A"%byte]]) in
   exists w' r',
     sendBytes w ["A"%byte] = Done ((1, None), w') /\ lossless w w' r /\
     receiveBytes r = Done (([], None), r')) /\
  (let w := NewWriter (peer []) in
   four_GiB <> [] /\
   exists w' r',
     sendBytes w four_GiB = Done ((len four_GiB, None), w') /\
     lossless w w' (delivered_as_written w w') /\
     receiveBytes (delivered_as_written w w') = Done (([], None), r')).
Proof.
  split.
  - cbv zeta. eexists _, _. split; [vm_compute; reflexivity|].
    split; [reflexivity | vm_compute; reflexivity].
  - cbv zeta. split.
    + intros E. pose proof len_four_GiB as H. rewrite E in H. discriminate H.
    + assert (Hw : flushed (NewWriter (peer []))) by (split; reflexivity).
      destruct (sendBytes_ok (NewWriter (peer [])) four_GiB Hw (fun _ => eq_refl))
        as (w' & E & _).
      destruct (wrapped_length four_GiB _ w' _ len_four_GiB Hw E) as (Hl & _ & r' & Er).
      exists w', r'. auto.
Qed.

(** ** receiveInt *)

(** C3 as it is written fails on the code in two ways.  Four bytes [ff] are
    decoded as [4294967295], not as the signed [-1]; and with two bytes on
    the stream before it ends, [receiveInt] returns a number and no
    error. *)
Lemma receiveInt_counterexample :
  ~ receiveInt_as_claimed (NewReader (peer [[xff; xff; xff; xff]])) /\
  ~ receiveInt_as_claimed (NewReader (peer [[x01; x02]])) /\
  fst (receiveInt (NewReader (peer [[xff; xff; xff; xff]]))) = (4294967295, None) /\
  fst (receiveInt (NewReader (peer [[x01; x02]]))) = (16908288, None).
Proof.
  split; [|split; [|split; reflexivity]].
  - intros [H _]. destruct H as (r' & E & _); [vm_compute; discriminate|].
    vm_compute in E. discriminate E.
  - intros [_ H]. destruct H as (v & e & r' & E); [vm_compute; reflexivity|].
    vm_compute in E. discriminate E.
Qed.

(** C3, as amended.  [receiveInt] makes one read for four bytes.  When four
    bytes are at hand for it, it takes exactly these and returns their
    big-endian unsigned 32-bit value, which lies in [0, 2^32 - 1]; when the
    stream is at its end, it fails with the error of the connection ([io.EOF]
    after an orderly close). *)
Theorem receiveInt_one_read (r : Reader) :
  if header_at_hand r then
    exists r',
      receiveInt r = ((big_endian (firstn 4 (pending r)), None), r') /\
      pending r = firstn 4 (pending r) ++ pending r' /\
      len (firstn 4 (pending r)) = 4 /\
      0 <= big_endian (firstn 4 (pending r)) <= 2 ^ 32 - 1
  else if at_end r then receiveInt r = ((-1, Some (hangup (rd r))), r)
  else True.
Proof.
  destruct (header_at_hand r) eqn:Hh.
  - destruct (receiveInt_header r Hh) as (d & r' & E & Hd & Hp & _).
    assert (Hf : firstn 4 (pending r) = d).
    { rewrite Hp. change 4%nat with (Z.to_nat 4). rewrite <- Hd. apply firstn_len_app. }
    rewrite Hf. exists r'. rewrite <- Uint32_big_endian by exact Hd.
    repeat split; auto; apply Uint32_range.
  - destruct (at_end r) eqn:He; [|exact I]. now apply receiveInt_at_end.
Qed.

(** C10.  Whatever the stream holds, a value that [receiveInt] returns
    without an error lies in [0, 2^32 - 1]; so the size that [receiveBytes]
    hands to [make] is never negative, and [receiveBytes] returns: it does
    not panic, and its loop ends. *)
Theorem receiveInt_nonneg (r : Reader) :
  match receiveInt r with
  | ((v, None), _) => 0 <= v <= 2 ^ 32 - 1
  | _ => True
  end /\ returns (receiveBytes r).
Proof.
  split; [apply receiveInt_range | apply receiveBytes_returns].
Qed.

(** ** ParseIP *)

Lemma strings_Contains_colon (s : string) :
  strings_Contains s ":" = existsb (Ascii.eqb ":") (list_ascii_of_string s).
Proof.
  induction s as [|a s IH]; [reflexivity|].
  cbn [strings_Contains list_ascii_of_string existsb String.prefix]. rewrite IH.
  destruct (ascii_dec ":" a) as [<-|Hne].
  - rewrite Ascii.eqb_refl. destruct s; reflexivity.
  - apply Ascii.eqb_neq in Hne. rewrite Hne. reflexivity.
Qed.

(** [ParseAddress] wraps exactly the hosts in which a colon occurs. *)
Lemma ParseAddress_colon (host : string) :
  (In ":"%char (list_ascii_of_string host) ->
   ParseAddress host = ("[" ++ host ++ "]")%string) /\
  (~ In ":"%char (list_ascii_of_string host) -> ParseAddress host = host).
Proof.
  unfold ParseAddress.
  destruct (existsb (Ascii.eqb ":") (list_ascii_of_string host)) eqn:E.
  - split; [reflexivity|]. intros Hn. exfalso. apply Hn.
    apply existsb_exists in E. destruct E as (a & Ha & Hc).
    apply Ascii.eqb_eq in Hc. now subst a.
  - split; [|reflexivity]. intros Hi. exfalso.
    assert (existsb (Ascii.eqb ":") (list_ascii_of_string host) = true)
      by (apply existsb_exists; exists ":"%char; split; [exact Hi | apply Ascii.eqb_refl]).
    congruence.
Qed.

Example ParseAddress_ipv4 : ParseAddress "127.0.0.1" = "127.0.0.1"%string.
Proof. reflexivity. Qed.

Example ParseAddress_ipv6 : ParseAddress "::1" = "[::1]"%string.
Proof. reflexivity. Qed.

(** C8.  The client's and the server's [ParseIPState] both replace the host
    by [ParseAddress] of it: wrapped in square brackets if and only if it
    contains a colon, unchanged otherwise; the client goes on to connect and
    the server to make its storage directory. *)
Theorem ParseIPState_brackets (c : Client.ClientFSM) (s : Server.ServerFSM) :
  Client.ParseIPState c
  = (Client.ConnetServer,
     if existsb (Ascii.eqb ":") (list_ascii_of_string (Client.ip c))
     then Client.set_ip (ParseAddress (Client.ip c)) c else c) /\
  Client.ip (snd (Client.ParseIPState c)) = ParseAddress (Client.ip c) /\
  Server.ParseIPState s
  = (Server.MakeStorageDirectory,
     if existsb (Ascii.eqb ":") (list_ascii_of_string (Server.ip s))
     then Server.mkServerFSM (Server.s_err s) (Server.s_currentState s) (Server.shouldRun s)
            (ParseAddress (Server.ip s)) (Server.port s) (Server.s_storageDir s)
     else s) /\
  Server.ip (snd (Server.ParseIPState s)) = ParseAddress (Server.ip s).
Proof.
  unfold Client.ParseIPState, Server.ParseIPState, ParseAddress.
  rewrite !strings_Contains_colon.
  destruct (existsb _ (list_ascii_of_string (Client.ip c)));
    destruct (existsb _ (list_ascii_of_string (Server.ip s))); repeat split.
Qed.

(** ** HandleError *)

(** C7 as it is written fails on the code: for [io.EOF] the generic line is
    printed as well, after the client-closed line. *)
Lemma HandleErrorState_counterexample :
  let fsm := Server.set_err (Some io_EOF) (Server.NewHandleClientFSM (peer []) "store") in
  ~ ServerSpec.HandleError_as_claimed fsm /\
  exists fsm',
    Server.HandleErrorState fsm = Done (Server.Exit, fsm') /\
    Server.output fsm' = ["Error: Client closed connection"; "Error: EOF"]%string.
Proof.
  cbv zeta. split.
  - intros H. specialize (H _ eq_refl eq_refl). discriminate H.
  - eexists. split; reflexivity.
Qed.

(** C7, as amended.  [HandleErrorState] always goes to [Exit], and changes
    nothing but the output: an error whose message is "EOF", as [io.EOF],
    is reported by the client-closed line followed by the generic line, any
    other error by the generic line alone. *)
Theorem HandleErrorState_exits (fsm : Server.HandleClientFSM) (e : error) :
  Server.HandleErrorState (Server.set_err (Some e) fsm)
  = Done (Server.Exit,
          if String.eqb (Error e) "EOF"
          then Server.println ("Error: " ++ Error e)
                 (Server.println "Error: Client closed connection"
                    (Server.set_err (Some e) fsm))
          else Server.println ("Error: " ++ Error e) (Server.set_err (Some e) fsm)).
Proof.
  unfold Server.HandleErrorState. cbn [Server.err Server.set_err].
  destruct (String.eqb (Error e) "EOF"); reflexivity.
Qed.

(** ** The count of the session *)

(** C2 at a count of zero.  The server leaves [ReadNumFiles] for
    [ReadFileName] without looking at the count, and compares the counter
    with it only after a file was written: a session that declares no file
    and sends one has the file stored, and ends in [HandleError] at the end
    of the stream with a counter of 1; one that declares no file and is
    closed ends in [HandleError] too. *)
Lemma zero_count_processed :
  (exists fsm',
     Server.Run 20 ServerSpec.sound_disk 0 ServerSpec.zero_count_session = Done fsm' /\
     Server.currentState fsm' = Server.Exit /\
     Server.numFiles fsm' = 0 /\
     Server.currentFile fsm' = 1 /\
     Server.disk fsm' = [("store/a"%string, bytes "x")] /\
     Server.err fsm' = Some io_EOF) /\
  (exists fsm',
     Server.Run 20 ServerSpec.sound_disk 0 ServerSpec.empty_session = Done fsm' /\
     Server.currentState fsm' = Server.Exit /\
     Server.numFiles fsm' = 0 /\
     Server.currentFile fsm' = 0 /\
     Server.err fsm' = Some io_EOF /\
     Server.output fsm' = ["Error: Client closed connection"; "Error: EOF"]%string).
Proof.
  split; eexists; (split; [vm_compute; reflexivity|]); repeat split.
Qed.

(** ** The client *)

Section ClientRun.
Import Client ClientSpec.

#[local] Arguments sendBytes : simpl never.
#[local] Arguments sendInt : simpl never.

Lemma index_in_range {A} (s : list A) (i : Z) (d : A) :
  0 <= i < len s -> index s i = Done (nth (Z.to_nat i) s d).
Proof.
  intros Hi. unfold index.
  destruct (Z.ltb_spec i 0); [lia|]. destruct (Z.leb_spec (len s) i); [lia|].
  cbn [orb]. destruct (nth_error s (Z.to_nat i)) as [a|] eqn:E.
  - now rewrite (nth_error_nth _ _ d E).
  - apply nth_error_None in E. unfold len in *. lia.
Qed.

Lemma Run_step (f : nat) (os : OS) (now : nat) (fsm fsm' : ClientFSM) :
  currentState fsm <> Terminate -> step os now fsm = Done fsm' ->
  Run (S f) os now fsm = Run f os (S now) fsm' /\
  rounds (S f) os now fsm = fsm :: rounds f os (S now) fsm'.
Proof.
  intros Hs E. cbn [Run rounds]. rewrite E.
  destruct (currentState fsm); try congruence; split; reflexivity.
Qed.

Lemma Run_Terminate (f : nat) (os : OS) (now : nat) (fsm : ClientFSM) :
  currentState fsm = Terminate ->
  Run (S f) os now fsm = Done (TerminateState fsm) /\ rounds (S f) os now fsm = [fsm].
Proof. intros Hs. cbn [Run rounds]. rewrite Hs. split; reflexivity. Qed.

(** The writer never changes the oracle of its connection. *)
Lemma Conn_Write_wfault (c : Conn) (p : list byte) :
  wfault (snd (Conn_Write c p)) = wfault c.
Proof. unfold Conn_Write. destruct (wfault c (wcount c)); reflexivity. Qed.

Lemma Writer_Flush_wfault (w : Writer) :
  wfault (wr (snd (Writer_Flush w))) = wfault (wr w).
Proof.
  unfold Writer_Flush. destruct (werr w); [reflexivity|].
  destruct (wbuf w); [reflexivity|].
  pose proof (Conn_Write_wfault (wr w) (b :: l)) as H.
  destruct (Conn_Write (wr w) (b :: l)) as [[n [e|]] c]; exact H.
Qed.

Lemma Writer_direct_wfault (w : Writer) (p : list byte) :
  wfault (wr (snd (Writer_direct w p))) = wfault (wr w).
Proof.
  unfold Writer_direct. pose proof (Conn_Write_wfault (wr w) p) as H.
  destruct (Conn_Write (wr w) p) as [[n e] c]. exact H.
Qed.

Lemma Writer_Write_wfault (w : Writer) (p : list byte) :
  wfault (wr (snd (Writer_Write w p))) = wfault (wr w).
Proof.
  unfold Writer_Write. destruct (werr w); [reflexivity|].
  destruct (len p <=? defaultBufSize - len (wbuf w)); [reflexivity|].
  destruct (wbuf w) as [|b0 buf]; [apply Writer_direct_wfault|].
  set (w0 := mkWriter _ _ _).
  pose proof (Writer_Flush_wfault w0) as H. destruct (Writer_Flush w0) as [[e|] b1].
  - exact H.
  - destruct (len _ <=? defaultBufSize); [exact H|].
    pose proof (Writer_direct_wfault b1 (skipn (Z.to_nat (defaultBufSize - len (b0 :: buf))) p))
      as H'.
    destruct (Writer_direct b1 _) as [[n e] b2]. cbn [snd] in *. now rewrite H'.
Qed.

Lemma sendBytes_loop_wfault (fuel : nat) :
  forall w data start r w',
    sendBytes_loop fuel w data start = Done (r, w') -> wfault (wr w') = wfault (wr w).
Proof.
  induction fuel as [|fuel IH]; intros w data start r w' E; cbn [sendBytes_loop] in E;
    destruct (start <? len data); try discriminate; try (inversion E; reflexivity).
  set (chunk := slice _ _ _) in E.
  pose proof (Writer_Write_wfault w chunk) as H1.
  destruct (Writer_Write w chunk) as [[n [e|]] w1]; cbn [snd] in H1.
  - inversion E; subst. exact H1.
  - pose proof (Writer_Flush_wfault w1) as H2.
    destruct (Writer_Flush w1) as [[e|] w2]; cbn [snd] in H2.
    + inversion E; subst. congruence.
    + apply IH in E. congruence.
Qed.

Lemma sendInt_wfault (w : Writer) (n : Z) : wfault (wr (snd (sendInt w n))) = wfault (wr w).
Proof.
  unfold sendInt. set (p := PutUint32 _ _).
  pose proof (Writer_Write_wfault w p) as H1.
  destruct (Writer_Write w p) as [[k [e|]] w1]; cbn [snd] in *; [exact H1|].
  rewrite Writer_Flush_wfault. exact H1.
Qed.

Lemma sendBytes_wfault (w : Writer) (data : list byte) r (w' : Writer) :
  sendBytes w data = Done (r, w') -> wfault (wr w') = wfault (wr w).
Proof.
  unfold sendBytes. pose proof (sendInt_wfault w (len data)) as H.
  destruct (sendInt w (len data)) as [[e|] w1]; cbn [snd] in H; intros E.
  - inversion E; subst. exact H.
  - apply sendBytes_loop_wfault in E. congruence.
Qed.

(** What [sendBytes] does on a flushed writer: it returns; without an error
    the writer is flushed again and the connection has been written to; an
    error needs a failing write. *)
Lemma sendBytes_cases (w : Writer) (data : list byte) :
  flushed w ->
  exists res err w',
    sendBytes w data = Done ((res, err), w') /\
    wfault (wr w') = wfault (wr w) /\
    (err = None -> flushed w' /\ exists ext, outgoing (wr w') = outgoing (wr w) ++ ext) /\
    ((forall k, wfault (wr w) k = None) -> err = None).
Proof.
  intros Hw. pose proof (sendBytes_returns w data) as Hr.
  destruct (sendBytes w data) as [[[res err] w']| |] eqn:E; try contradiction.
  exists res, err, w'. split; [reflexivity|]. split; [now apply sendBytes_wfault in E|].
  split.
  - intros ->. destruct (sendBytes_char w data res w' Hw E) as (_ & Hf & chunks & Ho & _).
    split; [exact Hf | eauto].
  - intros Hf. destruct (sendBytes_ok w data Hw Hf) as (w'' & E' & _). congruence.
Qed.

Lemma leads_refl (os : OS) (now : nat) (fsm : ClientFSM) : leads os now fsm 0 [] fsm.
Proof. intros f. split; reflexivity. Qed.

Lemma leads_step (os : OS) (now : nat) (fsm fsm1 fsm' : ClientFSM) (k : nat)
    (pre : list ClientFSM) :
  currentState fsm <> Terminate -> step os now fsm = Done fsm1 ->
  leads os (S now) fsm1 k pre fsm' ->
  leads os now fsm (S k) (fsm :: pre) fsm'.
Proof.
  intros Hs E L f. destruct (Run_step (k + f) os now fsm fsm1 Hs E) as [R1 R2].
  destruct (L f) as [L1 L2]. cbn [Nat.add]. rewrite R1, R2, L1, L2.
  rewrite Nat.add_succ_r. split; reflexivity.
Qed.

Lemma leads_trans (os : OS) (now : nat) (fsm fsm1 fsm2 : ClientFSM) (k1 k2 : nat)
    (pre1 pre2 : list ClientFSM) :
  leads os now fsm k1 pre1 fsm1 -> leads os (k1 + now) fsm1 k2 pre2 fsm2 ->
  leads os now fsm (k2 + k1) (pre1 ++ pre2) fsm2.
Proof.
  intros L1 L2 f. destruct (L2 f) as [A1 A2]. destruct (L1 (k2 + f)%nat) as [B1 B2].
  replace (k2 + k1 + f)%nat with (k1 + (k2 + f))%nat by lia.
  replace (k2 + k1 + now)%nat with (k2 + (k1 + now))%nat by lia.
  rewrite B1, B2, A1, A2, app_assoc. split; reflexivity.
Qed.

(** The per-file error handler skips the file: the cursor moves on and the
    machine is in [SendNextFile]. *)
Lemma step_HandleError (os : OS) (now : nat) (fsm : ClientFSM) :
  currentState fsm = HandleError ->
  step os now fsm
  = Done (set_currentState SendNextFile
            (set_currentFile (currentFile fsm + 1)
               (println ("Error: " ++ show (err fsm)) fsm))).
Proof. intros Hs. unfold step. rewrite Hs. reflexivity. Qed.

(** One file: from [OpenFile] the machine comes to [SendNextFile] with the
    cursor moved by one, or to [HandleFatalError] when a write failed, in
    four rounds at most, and the file is attempted once. *)
Lemma file_cycle (os : OS) (now : nat) (fsm : ClientFSM) (w : Writer) :
  currentState fsm = OpenFile ->
  0 <= currentFile fsm < len (fileNames fsm) ->
  writer fsm = Some w -> flushed w ->
  exists k pre fsm',
    (k <= 4)%nat /\ leads os now fsm k pre fsm' /\
    attempted pre = [nth (Z.to_nat (currentFile fsm)) (fileNames fsm) ""%string] /\
    fileNames fsm' = fileNames fsm /\
    ((currentState fsm' = SendNextFile /\ currentFile fsm' = currentFile fsm + 1 /\
      exists w', writer fsm' = Some w' /\ flushed w' /\ wfault (wr w') = wfault (wr w) /\
                 exists ext, outgoing (wr w') = outgoing (wr w) ++ ext)
     \/ (currentState fsm' = HandleFatalError /\ currentFile fsm' = currentFile fsm /\
         ~ (forall j, wfault (wr w) j = None))).
Proof.
  intros Hs Hi Hw Hfl.
  set (name := nth (Z.to_nat (currentFile fsm)) (fileNames fsm) ""%string).
  assert (Hatt : forall pre, (forall x, In x pre -> currentState x <> OpenFile) ->
                             attempted (fsm :: pre) = [name]).
  { intros pre Hpre. unfold attempted. cbn [flat_map]. rewrite Hs. fold name.
    cbn [app]. f_equal. induction pre as [|x pre IH]; [reflexivity|].
    cbn [flat_map]. specialize (Hpre x (or_introl eq_refl)) as Hx.
    destruct (currentState x); try congruence; cbn [app]; apply IH;
      intros y Hy; apply Hpre; now right. }
  assert (Hkeep : exists ext, outgoing (wr w) = outgoing (wr w) ++ ext)
    by (exists []; now rewrite app_nil_r).
  destruct (os_Open os now name) as [f|e] eqn:Eopen.
  2:{ (* the file cannot be opened *)
      eexists 2%nat, _, _. split; [lia|]. split.
      { eapply leads_step; [congruence | |].
        - unfold step. rewrite Hs. unfold OpenFileState.
          rewrite (index_in_range _ _ ""%string Hi). fold name. cbn [bind]. rewrite Eopen.
          reflexivity.
        - eapply leads_step; [cbn; congruence | apply step_HandleError; reflexivity |].
          apply leads_refl. }
      split; [apply Hatt; cbn; intros x [<-|[]]; cbn; congruence|].
      split; [reflexivity|]. left. cbn. rewrite Hw. eauto 10. }
  set (fsm1 := set_currentState SendFileName (set_err None (set_file (Some f) fsm))).
  assert (E1 : step os now fsm = Done fsm1).
  { unfold step. rewrite Hs. unfold OpenFileState.
    rewrite (index_in_range _ _ ""%string Hi). fold name. cbn [bind]. rewrite Eopen.
    reflexivity. }
  destruct (Stat f) as [base|e] eqn:Estat.
  2:{ (* Stat fails *)
      eexists 3%nat, _, _. split; [lia|]. split.
      { eapply leads_step; [congruence | exact E1 |].
        eapply leads_step; [cbn; congruence | |].
        - unfold step, fsm1. cbn [currentState set_currentState].
          unfold SendFileNameState. cbn. rewrite Estat. reflexivity.
        - eapply leads_step; [cbn; congruence | apply step_HandleError; reflexivity |].
          apply leads_refl. }
      split; [apply Hatt; cbn; intros x [<-|[<-|[]]]; cbn; congruence|].
      split; [reflexivity|]. left. cbn. rewrite Hw. eauto 10. }
  destruct (sendBytes_cases w (list_byte_of_string base) Hfl)
    as (res & err1 & w1 & Esend & Hwf1 & Hok1 & Hnf1).
  destruct err1 as [e|].
  { (* the name cannot be sent *)
    eexists 2%nat, _, _. split; [lia|]. split.
    { eapply leads_step; [congruence | exact E1 |].
      eapply leads_step; [cbn; congruence | | apply leads_refl].
      unfold step, fsm1. cbn [currentState set_currentState].
      unfold SendFileNameState. cbn. rewrite Estat, Hw, Esend. reflexivity. }
    split; [apply Hatt; cbn; intros x [<-|[]]; cbn; congruence|].
    split; [reflexivity|]. right. cbn. repeat split.
    intros Hnf. specialize (Hnf1 Hnf). discriminate. }
  destruct (Hok1 eq_refl) as (Hfl1 & ext1 & Hext1).
  set (fsm2 := set_currentState ReadAndSendFileData
                 (set_err None (set_writer (Some w1) fsm1))).
  assert (E2 : step os (S now) fsm1 = Done fsm2).
  { unfold step, fsm1. cbn [currentState set_currentState].
    unfold SendFileNameState. cbn. rewrite Estat, Hw, Esend. reflexivity. }
  destruct (os_ReadFile os (S (S now)) name) as [fileData|e] eqn:Eread.
  2:{ (* the file cannot be read *)
      eexists 4%nat, _, _. split; [lia|]. split.
      { eapply leads_step; [congruence | exact E1 |].
        eapply leads_step; [cbn; congruence | exact E2 |].
        eapply leads_step; [cbn; congruence | |].
        - unfold step, fsm2. cbn [currentState set_currentState].
          unfold ReadAndSendFileDataState. cbn.
          rewrite (index_in_range _ _ ""%string Hi). fold name. cbn [bind]. rewrite Eread.
          reflexivity.
        - eapply leads_step; [cbn; congruence | apply step_HandleError; reflexivity |].
          apply leads_refl. }
      split; [apply Hatt; cbn; intros x [<-|[<-|[<-|[]]]]; cbn; congruence|].
      split; [reflexivity|]. left. cbn. repeat split. eauto 10. }
  destruct (sendBytes_cases w1 fileData Hfl1)
    as (res2 & err2 & w2 & Esend2 & Hwf2 & Hok2 & Hnf2).
  destruct err2 as [e|].
  { (* the content cannot be sent *)
    eexists 3%nat, _, _. split; [lia|]. split.
    { eapply leads_step; [congruence | exact E1 |].
      eapply leads_step; [cbn; congruence | exact E2 |].
      eapply leads_step; [cbn; congruence | | apply leads_refl].
      unfold step, fsm2. cbn [currentState set_currentState].
      unfold ReadAndSendFileDataState. cbn.
      rewrite (index_in_range _ _ ""%string Hi). fold name. cbn [bind]. rewrite Eread, Esend2.
      reflexivity. }
    split; [apply Hatt; cbn; intros x [<-|[<-|[]]]; cbn; congruence|].
    split; [reflexivity|]. right. cbn. repeat split.
    intros Hnf. rewrite <- Hwf1 in Hnf. specialize (Hnf2 Hnf). discriminate. }
  (* the file is sent *)
  destruct (Hok2 eq_refl) as (Hfl2 & ext2 & Hext2).
  eexists 3%nat, _, _. split; [lia|]. split.
  { eapply leads_step; [congruence | exact E1 |].
    eapply leads_step; [cbn; congruence | exact E2 |].
    eapply leads_step; [cbn; congruence | | apply leads_refl].
    unfold step, fsm2. cbn [currentState set_currentState].
    unfold ReadAndSendFileDataState. cbn.
    rewrite (index_in_range _ _ ""%string Hi). fold name. cbn [bind]. rewrite Eread, Esend2.
    reflexivity. }
  split; [apply Hatt; cbn; intros x [<-|[<-|[]]]; cbn; congruence|].
  split; [reflexivity|]. left. cbn. repeat split.
  exists w2. repeat split; try apply Hfl2; [congruence|].
  exists (ext1 ++ ext2). rewrite Hext2, Hext1, app_assoc. reflexivity.
Qed.

Lemma attempted_app (a b : list ClientFSM) : attempted (a ++ b) = attempted a ++ attempted b.
Proof. apply flat_map_app. Qed.

Lemma nth_skipn_succ {A} (s : list A) (i : Z) (d : A) :
  0 <= i < len s ->
  nth (Z.to_nat i) s d :: skipn (Z.to_nat (i + 1)) s = skipn (Z.to_nat i) s.
Proof.
  intros Hi. replace (Z.to_nat (i + 1)) with (S (Z.to_nat i)) by lia.
  assert (Hl : (Z.to_nat i < List.length s)%nat) by (unfold len in Hi; lia).
  revert Hl. generalize (Z.to_nat i) as n. clear Hi.
  induction s as [|a s IH]; intros n Hl; [cbn in Hl; lia|].
  destruct n as [|n]; [reflexivity|]. cbn [nth skipn]. apply IH. cbn in Hl. lia.
Qed.

Lemma step_SendNextFile (os : OS) (now : nat) (fsm : ClientFSM) :
  currentState fsm = SendNextFile ->
  step os now fsm
  = Done (set_currentState
            (if currentFile fsm >=? len (fileNames fsm) then Terminate else OpenFile) fsm).
Proof.
  intros Hs. unfold step. rewrite Hs. unfold SendNextFileState.
  destruct (currentFile fsm >=? len (fileNames fsm)); reflexivity.
Qed.

Lemma step_HandleFatalError (os : OS) (now : nat) (fsm : ClientFSM) :
  currentState fsm = HandleFatalError ->
  step os now fsm
  = Done (set_currentState Terminate (println ("Fatal Error: " ++ show (err fsm)) fsm)).
Proof. intros Hs. unfold step. rewrite Hs. reflexivity. Qed.

(** The batch: from [OpenFile] with [S r] files left the machine comes to
    [Terminate] in [5 * S r] rounds at most; when no write fails, every file
    left is attempted once, in order. *)
Lemma batch (r : nat) :
  forall (os : OS) (now : nat) (fsm : ClientFSM) (w : Writer),
    currentState fsm = OpenFile -> 0 <= currentFile fsm ->
    Z.of_nat (S r) = len (fileNames fsm) - currentFile fsm ->
    writer fsm = Some w -> flushed w ->
    exists n pre fsm',
      (n <= 5 * S r)%nat /\ leads os now fsm n pre fsm' /\
      currentState fsm' = Terminate /\ fileNames fsm' = fileNames fsm /\
      0 <= currentFile fsm' <= len (fileNames fsm') /\
      ((forall j, wfault (wr w) j = None) ->
       attempted pre = skipn (Z.to_nat (currentFile fsm)) (fileNames fsm) /\
       exists w' ext, writer fsm' = Some w' /\ outgoing (wr w') = outgoing (wr w) ++ ext).
Proof.
  induction r as [|r IH]; intros os now fsm w Hs H0 Hrem Hw Hfl;
    destruct (file_cycle os now fsm w Hs ltac:(lia) Hw Hfl)
      as (k & pre & fsm1 & Hk & L & Hatt & Hnames & Hcase);
    destruct Hcase as [(Hs1 & Hc1 & w1 & Hw1 & Hfl1 & Hwf1 & ext1 & Hext1)|(Hs1 & Hc1 & Hbad)].
  - (* the last file is done *)
    exists (1 + k)%nat, (pre ++ [fsm1]), (set_currentState Terminate fsm1).
    split; [lia|]. split.
    { eapply leads_trans; [exact L|].
      eapply leads_step; [congruence | | apply leads_refl].
      rewrite (step_SendNextFile _ _ _ Hs1).
      destruct (Z.geb_spec (currentFile fsm1) (len (fileNames fsm1))); [reflexivity|].
      rewrite Hnames in *. lia. }
    cbn [currentState set_currentState fileNames currentFile].
    split; [reflexivity|]. split; [exact Hnames|]. split; [rewrite Hnames; lia|].
    intros Hnf. split.
    + rewrite attempted_app, Hatt. unfold attempted. cbn [flat_map]. rewrite Hs1.
      cbn [app]. rewrite <- (nth_skipn_succ _ _ ""%string) by lia.
      rewrite skipn_all2 by (unfold len in *; lia). reflexivity.
    + exists w1, ext1. auto.
  - (* a write failed on the last file *)
    exists (1 + k)%nat, (pre ++ [fsm1]), 
      (set_currentState Terminate (println ("Fatal Error: " ++ show (err fsm1)) fsm1)).
    split; [lia|]. split.
    { eapply leads_trans; [exact L|].
      eapply leads_step; [congruence | | apply leads_refl].
      apply step_HandleFatalError. exact Hs1. }
    cbn [currentState set_currentState fileNames currentFile println].
    split; [reflexivity|]. split; [exact Hnames|]. split; [rewrite Hnames; lia|].
    intros Hnf. contradiction.
  - (* more files are left *)
    set (fsm2 := set_currentState OpenFile fsm1).
    destruct (IH os (S (k + now)) fsm2 w1) as (n & pre2 & fsm3 & Hn & L2 & Hs3 & Hn3 & Hc3 & Hgood).
    { reflexivity. }
    { cbn. lia. }
    { cbn. rewrite Hnames. lia. }
    { exact Hw1. }
    { exact Hfl1. }
    exists (n + 1 + k)%nat, (pre ++ [fsm1] ++ pre2), fsm3.
    split; [lia|]. split.
    { eapply leads_trans; [exact L|]. eapply leads_trans; [|exact L2].
      eapply leads_step; [congruence | | apply leads_refl].
      rewrite (step_SendNextFile _ _ _ Hs1).
      destruct (Z.geb_spec (currentFile fsm1) (len (fileNames fsm1))); [|reflexivity].
      rewrite Hnames in *. lia. }
    split; [exact Hs3|]. split; [now rewrite Hn3|]. split; [exact Hc3|].
    intros Hnf. destruct Hgood as (Hatt2 & w3 & ext3 & Hw3 & Hext3).
    { intros j. rewrite Hwf1. apply Hnf. }
    split.
    + rewrite !attempted_app, Hatt, Hatt2. unfold attempted at 1. cbn [flat_map]. rewrite Hs1.
      cbn [app fileNames currentFile set_currentState fsm2]. rewrite Hnames, Hc1.
      apply nth_skipn_succ. lia.
    + exists w3, (ext1 ++ ext3). split; [exact Hw3|].
      rewrite Hext3, Hext1, app_assoc. reflexivity.
  - (* a write failed *)
    exists (1 + k)%nat, (pre ++ [fsm1]), 
      (set_currentState Terminate (println ("Fatal Error: " ++ show (err fsm1)) fsm1)).
    split; [lia|]. split.
    { eapply leads_trans; [exact L|].
      eapply leads_step; [congruence | | apply leads_refl].
      apply step_HandleFatalError. exact Hs1. }
    cbn [currentState set_currentState fileNames currentFile println].
    split; [reflexivity|]. split; [exact Hnames|]. split; [rewrite Hnames; lia|].
    intros Hnf. contradiction.
Qed.

Lemma sendInt_cases (w : Writer) (n : Z) :
  flushed w ->
  exists err w',
    sendInt w n = (err, w') /\
    (err = None -> w' = mkWriter (push (wr w) (header n)) [] None) /\
    ((forall k, wfault (wr w) k = None) -> err = None).
Proof.
  intros Hw. pose proof (sendInt_char w n Hw) as Hc.
  destruct (sendInt w n) as [err w'] eqn:E. exists err, w'. split; [reflexivity|]. split.
  - intros ->. exact Hc.
  - intros Hf. rewrite (sendInt_ok w n Hw (Hf _)) in E. congruence.
Qed.

(** From [SendFileCount] on a flushed writer, with at least one file. *)
Lemma from_SendFileCount (os : OS) (now : nat) (fsm : ClientFSM) (w : Writer) :
  currentState fsm = SendFileCount -> writer fsm = Some w -> flushed w ->
  fileNames fsm <> [] -> 0 <= currentFile fsm <= len (fileNames fsm) ->
  exists n pre fsm',
    (n <= 5 * List.length (fileNames fsm) + 1)%nat /\ leads os now fsm n pre fsm' /\
    currentState fsm' = Terminate /\
    0 <= currentFile fsm' <= len (fileNames fsm') /\
    ((forall j, wfault (wr w) j = None) ->
     attempted pre = fileNames fsm /\
     exists w' ext,
       writer fsm' = Some w' /\
       outgoing (wr w') = outgoing (wr w) ++ header (len (fileNames fsm)) :: ext).
Proof.
  intros Hs Hw Hfl Hne Hcur.
  assert (Hlen : (1 <= List.length (fileNames fsm))%nat).
  { destruct (fileNames fsm); [congruence | cbn; lia]. }
  destruct (sendInt_cases w (len (fileNames fsm)) Hfl) as (err & w1 & E & Hok & Hnf).
  destruct err as [e|].
  - (* the count cannot be sent *)
    eexists 2%nat, _, _. split; [lia|]. split.
    { eapply leads_step; [congruence | |].
      - unfold step. rewrite Hs. unfold SendFileCountState. rewrite Hw, E. reflexivity.
      - eapply leads_step; [cbn; congruence | apply step_HandleFatalError; reflexivity |].
        apply leads_refl. }
    cbn. split; [reflexivity|].
    split; [exact Hcur|]. intros Hf. specialize (Hnf Hf). discriminate.
  - specialize (Hok eq_refl). subst w1.
    set (w1 := mkWriter (push (wr w) (header (len (fileNames fsm)))) [] None) in *.
    set (fsm1 := set_currentState OpenFile (set_currentFile 0 (set_writer (Some w1) fsm))).
    destruct (batch (List.length (fileNames fsm) - 1) os (S now) fsm1 w1)
      as (n & pre & fsm' & Hn & L & Hs' & Hn' & Hc' & Hgood).
    { reflexivity. }
    { cbn. lia. }
    { cbn. unfold len. lia. }
    { reflexivity. }
    { apply flushed_push. }
    exists (S n), (fsm :: pre), fsm'. split; [lia|]. split.
    { eapply leads_step; [congruence | | exact L].
      unfold step. rewrite Hs. unfold SendFileCountState. rewrite Hw, E. reflexivity. }
    split; [exact Hs'|]. split; [exact Hc'|].
    intros Hf. destruct (Hgood Hf) as (Hatt & w' & ext & Hw' & Hext).
    split.
    + unfold attempted. cbn [flat_map]. rewrite Hs. cbn [app].
      fold (attempted pre). rewrite Hatt. reflexivity.
    + exists w', ext. split; [exact Hw'|]. rewrite Hext. cbn [w1 wr push outgoing].
      rewrite <- app_assoc. reflexivity.
Qed.

(** The whole run, from [NewClientFSM]. *)
Lemma main_run (os : OS) :
  exists n pre fsm',
    (n <= 5 * List.length (os_Args os) + 4)%nat /\
    leads os 0 NewClientFSM n pre fsm' /\
    currentState fsm' = Terminate /\
    0 <= currentFile fsm' <= len (fileNames fsm') /\
    (forall c, 3 <= len (os_Args os) -> dialled os = inl c ->
               (forall j, wfault c j = None) ->
               attempted pre = skipn 2 (os_Args os) /\
               exists w' ext,
                 writer fsm' = Some w' /\
                 outgoing (wr w')
                 = outgoing c ++ header (len (skipn 2 (os_Args os))) :: ext).
Proof.
  assert (E0 : step os 0 NewClientFSM
               = Done (set_currentState (fst (ValidateArgsState os NewClientFSM))
                                        (snd (ValidateArgsState os NewClientFSM))))
    by reflexivity.
  unfold ValidateArgsState in E0.
  destruct (Z.ltb_spec (len (os_Args os)) arguments) as [Hlt|Hge]; cbn [fst snd] in E0.
  { (* too few arguments *)
    eexists 2%nat, _, _. split; [lia|]. split.
    { eapply leads_step; [cbn; congruence | exact E0 |].
      eapply leads_step; [cbn; congruence | apply step_HandleFatalError; reflexivity |].
      apply leads_refl. }
    cbn. split; [reflexivity|]. split; [unfold len; cbn; lia|].
    intros c Hc. unfold arguments in Hlt. lia. }
  set (args := os_Args os) in *.
  set (fsm1 := set_currentState ParseIP _) in E0.
  set (fsm2 := set_currentState ConnetServer (snd (ParseIPState fsm1))).
  assert (E1 : step os 1 fsm1 = Done fsm2) by reflexivity.
  assert (Hip : ip fsm2 = ParseAddress (nth 0 args ""%string)).
  { unfold fsm2, ParseIPState, ParseAddress. rewrite strings_Contains_colon.
    cbn [ip fsm1 set_currentState set_fileNames set_port set_ip NewClientFSM].
    destruct (existsb _ _); reflexivity. }
  assert (Hrest : port fsm2 = nth 1 args ""%string /\ fileNames fsm2 = skipn 2 args /\
                  currentFile fsm2 = 0 /\ currentState fsm2 = ConnetServer).
  { unfold fsm2, ParseIPState. destruct (strings_Contains _ _); repeat split. }
  destruct Hrest as (Hport & Hnames & Hcur & Hst2).
  assert (E2 : step os 2 fsm2
               = Done (set_currentState (fst (ConnetServerState os fsm2))
                                        (snd (ConnetServerState os fsm2)))).
  { unfold step. rewrite Hst2. reflexivity. }
  unfold ConnetServerState in E2. rewrite Hip, Hport in E2. fold args in E2.
  change (net_Dial os trans _) with (dialled os) in E2.
  assert (Hargs : (3 <= List.length args)%nat) by (unfold len, arguments in Hge; lia).
  destruct (dialled os) as [c|e] eqn:Edial; cbn [fst snd] in E2.
  2:{ (* no connection *)
      eexists 4%nat, _, _. split; [lia|]. split.
      { eapply leads_step; [cbn; congruence | exact E0 |].
        eapply leads_step; [cbn; congruence | exact E1 |].
        eapply leads_step; [congruence | exact E2 |].
        eapply leads_step; [cbn; congruence | apply step_HandleFatalError; reflexivity |].
        apply leads_refl. }
      cbn [currentState currentFile fileNames set_currentState println set_err set_writer].
      rewrite Hnames, Hcur. split; [reflexivity|].
      split; [pose proof (len_nonneg (skipn 2 args)); lia|].
      intros c _ Hc. discriminate. }
  set (fsm3 := set_currentState SendFileCount _) in E2.
  destruct (from_SendFileCount os 3 fsm3 (NewWriter c))
    as (n & pre & fsm' & Hn & L & Hs' & Hc' & Hgood).
  { reflexivity. }
  { reflexivity. }
  { split; reflexivity. }
  { cbn [fileNames fsm3 set_currentState set_writer set_err]. rewrite Hnames. intros E. apply (f_equal (@List.length _)) in E.
    rewrite length_skipn in E. cbn in E. lia. }
  { cbn [currentFile fileNames fsm3 set_currentState set_writer set_err].
    rewrite Hnames, Hcur. pose proof (len_nonneg (skipn 2 args)). lia. }
  exists (n + 3)%nat, ([NewClientFSM; fsm1; fsm2] ++ pre), fsm'.
  split.
  { cbn [fileNames fsm3 set_currentState set_writer set_err] in Hn. rewrite Hnames in Hn.
    rewrite length_skipn in Hn. lia. }
  split.
  { eapply leads_trans; [|exact L].
    eapply leads_step; [cbn; congruence | exact E0 |].
    eapply leads_step; [cbn; congruence | exact E1 |].
    eapply leads_step; [congruence | exact E2 |]. apply leads_refl. }
  split; [exact Hs'|]. split; [exact Hc'|].
  intros c' _ Hc'' Hf. inversion Hc''; subst c'.
  destruct (Hgood Hf) as (Hatt & w' & ext & Hw' & Hext).
  cbn [fileNames fsm3 set_currentState set_writer set_err] in Hatt, Hext.
  rewrite Hnames in Hatt, Hext. split.
  - rewrite attempted_app, Hatt. unfold attempted. cbn [flat_map]. rewrite Hst2. reflexivity.
  - exists w', ext. auto.
Qed.

(** C9.  Whatever the arguments are and whatever the operating system
    answers, [Run] returns: the loop comes to [Terminate] within
    [5 * len(args) + 5] rounds, with the cursor within the batch. *)
Theorem Run_terminates (os : OS) :
  exists n fsm',
    (n <= 5 * List.length (os_Args os) + 5)%nat /\
    main n os = Done fsm' /\
    currentState fsm' = Terminate /\
    0 <= currentFile fsm' <= len (fileNames fsm').
Proof.
  destruct (main_run os) as (n & pre & fsm' & Hn & L & Hs & Hc & _).
  exists (n + 1)%nat, (TerminateState fsm'). split; [lia|].
  destruct (L 1%nat) as [R _]. unfold main. rewrite R.
  destruct (Run_Terminate 0 os (n + 0) fsm' Hs) as [R' _]. rewrite R'.
  cbn. auto.
Qed.

(** C5, as amended.  In a run that comes to [SendFileCount] (there are at
    least three arguments and the server is reached) and in which no write
    fails, the files the client attempts are the files of the argument list,
    each once and in order, and the count written first on the connection is
    the encoding of their number. *)
Theorem count_sent_is_attempted (os : OS) (c : Conn) :
  3 <= len (os_Args os) ->
  dialled os = inl c ->
  (forall j, wfault c j = None) ->
  exists n fsm' w' sent,
    main n os = Done fsm' /\
    attempted (rounds n os 0 NewClientFSM) = skipn 2 (os_Args os) /\
    writer fsm' = Some w' /\
    outgoing (wr w')
    = outgoing c ++ header (len (attempted (rounds n os 0 NewClientFSM))) :: sent.
Proof.
  intros Hargs Hd Hf.
  destruct (main_run os) as (n & pre & fsm' & Hn & L & Hs & Hc & Hgood).
  destruct (Hgood c Hargs Hd Hf) as (Hatt & w' & ext & Hw' & Hext).
  destruct (L 1%nat) as [R1 R2].
  destruct (Run_Terminate 0 os (n + 0) fsm' Hs) as [R1' R2'].
  assert (Ha : attempted (rounds (n + 1) os 0 NewClientFSM) = skipn 2 (os_Args os)).
  { rewrite R2, R2', attempted_app, Hatt. unfold attempted. cbn [flat_map].
    rewrite Hs. apply app_nil_r. }
  exists (n + 1)%nat, (TerminateState fsm'),
    (mkWriter (Conn_Close (wr w')) (wbuf w') (werr w')), ext.
  split; [unfold main; rewrite R1; exact R1'|]. split; [exact Ha|].
  split; [unfold TerminateState; cbn; rewrite Hw'; reflexivity|].
  rewrite Ha. exact Hext.
Qed.

Lemma count_sent_is_attempted_witness :
  exists n fsm' w' sent,
    main n (os_demo (peer [])) = Done fsm' /\
    attempted (rounds n (os_demo (peer [])) 0 NewClientFSM) = ["a.txt"; "b.txt"]%string /\
    writer fsm' = Some w' /\
    outgoing (wr w')
    = outgoing (peer [])
      ++ header (len (attempted (rounds n (os_demo (peer [])) 0 NewClientFSM))) :: sent.
Proof.
  apply (count_sent_is_attempted (os_demo (peer [])) (peer [])).
  - vm_compute. discriminate.
  - reflexivity.
  - reflexivity.
Defined.

(** C5 as it is written fails on the code: when the second write fails, the
    count 2 has been sent and one file only is attempted. *)
Lemma count_sent_counterexample :
  exists fsm' w',
    main 8 (os_demo broken_pipe) = Done fsm' /\
    writer fsm' = Some w' /\
    outgoing (wr w') = [header 2] /\
    attempted (rounds 8 (os_demo broken_pipe) 0 NewClientFSM) = ["a.txt"%string].
Proof.
  eexists _, _. split; [vm_compute; reflexivity|]. repeat split.
Qed.

(** C4.  With the cursor on a file of the batch: a failure to open the file,
    or to read it, takes the machine through [HandleError] to the next file
    ([OpenFile] with the cursor moved by one, or [Terminate] after the last
    file) with nothing written; a failure to send the name or the content
    takes it through [HandleFatalError] to [Terminate] with the cursor where
    it was, and [Run] returns from there. *)
Theorem file_errors_and_fatal_errors (os : OS) (now : nat) (fsm : ClientFSM) (name : string) :
  index (fileNames fsm) (currentFile fsm) = Done name ->
  (currentState fsm = OpenFile ->
   forall e, os_Open os now name = inr e ->
   exists fsm',
     steps 3 os now fsm = Done fsm' /\
     currentState fsm'
     = (if currentFile fsm + 1 >=? len (fileNames fsm) then Terminate else OpenFile) /\
     currentFile fsm' = currentFile fsm + 1 /\
     fileNames fsm' = fileNames fsm /\ writer fsm' = writer fsm) /\
  (currentState fsm = ReadAndSendFileData ->
   forall e, os_ReadFile os now name = inr e ->
   exists fsm',
     steps 3 os now fsm = Done fsm' /\
     currentState fsm'
     = (if currentFile fsm + 1 >=? len (fileNames fsm) then Terminate else OpenFile) /\
     currentFile fsm' = currentFile fsm + 1 /\
     fileNames fsm' = fileNames fsm /\ writer fsm' = writer fsm) /\
  (currentState fsm = SendFileName ->
   forall base w res e w',
     File_Stat (file fsm) = inl base -> writer fsm = Some w ->
     sendBytes w (list_byte_of_string base) = Done ((res, Some e), w') ->
     exists fsm',
       steps 2 os now fsm = Done fsm' /\
       currentState fsm' = Terminate /\ currentFile fsm' = currentFile fsm /\
       forall f, Run (S f) os (2 + now) fsm' = Done (TerminateState fsm')) /\
  (currentState fsm = ReadAndSendFileData ->
   forall fileData w res e w',
     os_ReadFile os now name = inl fileData -> writer fsm = Some w ->
     sendBytes w fileData = Done ((res, Some e), w') ->
     exists fsm',
       steps 2 os now fsm = Done fsm' /\
       currentState fsm' = Terminate /\ currentFile fsm' = currentFile fsm /\
       forall f, Run (S f) os (2 + now) fsm' = Done (TerminateState fsm')).
Proof.
  intros Hi. repeat split.
  - intros Hs e Eo. eexists. split.
    + cbn [steps]. unfold step at 1. rewrite Hs. unfold OpenFileState. rewrite Hi.
      cbn [bind]. rewrite Eo. cbn [bind fst snd].
      rewrite step_HandleError by reflexivity. cbn [bind].
      rewrite step_SendNextFile by reflexivity. reflexivity.
    + cbn. repeat split.
  - intros Hs e Er. eexists. split.
    + cbn [steps]. unfold step at 1. rewrite Hs. unfold ReadAndSendFileDataState. rewrite Hi.
      cbn [bind]. rewrite Er. cbn [bind fst snd].
      rewrite step_HandleError by reflexivity. cbn [bind].
      rewrite step_SendNextFile by reflexivity. reflexivity.
    + cbn. repeat split.
  - intros Hs base w res e w' Est Hw Esend. eexists. split.
    + cbn [steps]. unfold step at 1. rewrite Hs. unfold SendFileNameState.
      rewrite Est, Hw, Esend. cbn [bind fst snd].
      rewrite step_HandleFatalError by reflexivity. reflexivity.
    + cbn. repeat split.
  - intros Hs fileData w res e w' Er Hw Esend. eexists. split.
    + cbn [steps]. unfold step at 1. rewrite Hs. unfold ReadAndSendFileDataState. rewrite Hi.
      cbn [bind]. rewrite Er, Hw, Esend. cbn [bind fst snd].
      rewrite step_HandleFatalError by reflexivity. reflexivity.
    + cbn. repeat split.
Qed.

Lemma file_errors_and_fatal_errors_witness :
  (exists fsm',
     steps 3 (os_demo (peer [])) 0 (at_file OpenFile 1 (peer [])) = Done fsm' /\
     currentState fsm' = Terminate /\ currentFile fsm' = 2 /\
     writer fsm' = Some (NewWriter (peer []))) /\
  (exists fsm',
     steps 2 (os_demo dead_pipe) 0 (at_file ReadAndSendFileData 0 dead_pipe) = Done fsm' /\
     currentState fsm' = Terminate /\ currentFile fsm' = 0).
Proof.
  split.
  - destruct (file_errors_and_fatal_errors
                (os_demo (peer [])) 0 (at_file OpenFile 1 (peer [])) "b.txt" eq_refl)
      as (H & _).
    destruct (H eq_refl _ eq_refl) as (fsm' & E & Hs & Hc & _ & Hw).
    exists fsm'. auto.
  - destruct (file_errors_and_fatal_errors
                (os_demo dead_pipe) 0 (at_file ReadAndSendFileData 0 dead_pipe) "a.txt"
                eq_refl)
      as (_ & _ & _ & H).
    destruct (H eq_refl (bytes "hi") _ (-1) (errors_New "broken pipe")
                (mkWriter (mkConn [] io_EOF [] 1 (wfault dead_pipe) false)
                          (header 2) (Some (errors_New "broken pipe")))
                eq_refl eq_refl eq_refl)
      as (fsm' & E & Hs & Hc & _).
    exists fsm'. auto.
Defined.
(** The scenario of the specification on the side of the client: the count
    2 is sent, [a.txt] is sent, [b.txt] is skipped with one error line. *)
Example demo_client_run :
  exists fsm' w',
    main 12 (os_demo (peer [])) = Done fsm' /\
    output fsm'
    = ["Sent file a.txt"; "Error: open b.txt: no such file or directory";
       "Client Exiting..."]%string /\
    writer fsm' = Some w' /\ closed (wr w') = true /\
    outgoing (wr w')
    = [[x00; x00; x00; x02]; [x00; x00; x00; x05]; bytes "a.txt";
       [x00; x00; x00; x02]; bytes "hi"].
Proof. eexists _, _. split; [vm_compute; reflexivity|]. repeat split. Qed.


End ClientRun.

(** ** The server *)

Section ServerRun.
Import Server ServerSpec.

#[local] Arguments receiveBytes : simpl never.
#[local] Arguments receiveInt : simpl never.

Lemma Server_Run_step (f : nat) (os : Server.OS) (now : nat) (fsm fsm' : HandleClientFSM) :
  currentState fsm <> Exit -> step os now fsm = Done fsm' ->
  Run (S f) os now fsm = Run f os (S now) fsm'.
Proof.
  intros Hs E. cbn [Run]. rewrite E. destruct (currentState fsm); try congruence; reflexivity.
Qed.

Lemma Server_Run_out (os : Server.OS) (now : nat) (fsm : HandleClientFSM) :
  currentState fsm <> Exit -> Run 0 os now fsm = OutOfFuel.
Proof. intros Hs. cbn [Run]. destruct (currentState fsm); try congruence; reflexivity. Qed.

Lemma Server_Run_Exit (f : nat) (os : Server.OS) (now : nat) (fsm : HandleClientFSM) :
  currentState fsm = Exit -> Run f os now fsm = Done fsm.
Proof. intros Hs. destruct f; cbn [Run]; rewrite Hs; reflexivity. Qed.

(** The count for a session of at least one file: when the file units
    arrive and are stored without an error, [Run] makes four rounds for
    each, neither more nor fewer, and returns in [Exit] when the counter has
    come to the count. *)
Lemma session_count (files : list (list byte * list byte)) :
  forall (os : Server.OS) (now : nat) (fsm : HandleClientFSM) (r' : Reader),
    (forall t path, os_Create os t path = None /\ File_Write os t path = None) ->
    currentState fsm = ReadFileName -> files <> [] ->
    numFiles fsm = currentFile fsm + len files ->
    receives (reader fsm) files r' ->
    exists fsm',
      (forall fuel,
         Run fuel os now fsm
         = if (fuel <? 4 * List.length files)%nat then OutOfFuel else Done fsm') /\
      currentState fsm' = Exit /\
      currentFile fsm' = numFiles fsm /\ numFiles fsm' = numFiles fsm /\
      disk fsm' = disk fsm ++ map (stored (storageDir fsm)) files /\
      reader fsm' = r'.
Proof.
  induction files as [|[name content] rest IH]; intros os now fsm r' Hos Hs Hne Hn Hr;
    [congruence|].
  destruct Hr as (r1 & r2 & Er1 & Er2 & Hrest).
  set (fsm1 := set_currentState ReadFileContent
                 (set_fileName (string_of_list_byte name) (set_reader r1 fsm))).
  assert (E1 : step os now fsm = Done fsm1).
  { unfold step. rewrite Hs. unfold ReadFileNameState. rewrite Er1. reflexivity. }
  set (fsm2 := set_currentState WriteFile
                 (set_err None (set_fileContent content (set_reader r2 fsm1)))).
  assert (E2 : step os (S now) fsm1 = Done fsm2).
  { unfold step, fsm1. cbn [currentState set_currentState].
    unfold ReadFileContentState. cbn [reader set_currentState set_fileName set_reader].
    rewrite Er2. reflexivity. }
  set (path := (storageDir fsm ++ "/" ++ string_of_list_byte name)%string).
  set (fsm3 := set_currentState ReceiveNextFile
                 (set_currentFile (currentFile fsm + 1)
                    (println ("created file " ++ string_of_list_byte name ++ " in "
                              ++ storageDir fsm)
                       (set_disk (disk fsm ++ [(path, content)]) fsm2)))).
  assert (E3 : step os (S (S now)) fsm2 = Done fsm3).
  { unfold step, fsm2. cbn [currentState set_currentState].
    unfold WriteFileState. cbn [storageDir fileName set_currentState set_err
      set_fileContent set_reader set_fileName fsm1]. fold path.
    destruct (Hos (S (S now)) path) as [-> ->]. reflexivity. }
  set (fsm4 := set_currentState
                 (if currentFile fsm + 1 =? numFiles fsm then Exit else ReadFileName) fsm3).
  assert (E4 : step os (S (S (S now))) fsm3 = Done fsm4).
  { unfold step, fsm3. cbn [currentState set_currentState].
    unfold ReceiveNextFileState. cbn.
    destruct (currentFile fsm + 1 =? numFiles fsm); reflexivity. }
  assert (N0 : currentState fsm <> Exit) by congruence.
  assert (N1 : currentState fsm1 <> Exit) by (cbn; congruence).
  assert (N2 : currentState fsm2 <> Exit) by (cbn; congruence).
  assert (N3 : currentState fsm3 <> Exit) by (cbn; congruence).
  assert (Hrun : forall f, Run (4 + f) os now fsm = Run f os (4 + now) fsm4).
  { intros f. cbn [Nat.add].
    rewrite (Server_Run_step _ _ _ _ _ N0 E1).
    rewrite (Server_Run_step _ _ _ _ _ N1 E2).
    rewrite (Server_Run_step _ _ _ _ _ N2 E3).
    rewrite (Server_Run_step _ _ _ _ _ N3 E4). reflexivity. }
  assert (Hout : forall fuel, (fuel < 4)%nat -> Run fuel os now fsm = OutOfFuel).
  { intros fuel Hf. destruct fuel as [|[|[|[|fuel]]]]; try lia.
    - apply Server_Run_out. exact N0.
    - rewrite (Server_Run_step _ _ _ _ _ N0 E1).
      apply Server_Run_out. exact N1.
    - rewrite (Server_Run_step _ _ _ _ _ N0 E1).
      rewrite (Server_Run_step _ _ _ _ _ N1 E2).
      apply Server_Run_out. exact N2.
    - rewrite (Server_Run_step _ _ _ _ _ N0 E1).
      rewrite (Server_Run_step _ _ _ _ _ N1 E2).
      rewrite (Server_Run_step _ _ _ _ _ N2 E3).
      apply Server_Run_out. exact N3. }
  unfold len in Hn. cbn [List.length] in Hn.
  destruct rest as [|u rest'].
  - (* the last file *)
    cbn [receives] in Hrest. subst r'. cbn [List.length] in Hn.
    assert (Hx : currentState fsm4 = Exit).
    { unfold fsm4. cbn [currentState set_currentState].
      destruct (Z.eqb_spec (currentFile fsm + 1) (numFiles fsm)); [reflexivity | lia]. }
    exists fsm4. split; [|split; [exact Hx|]].
    + intros fuel. cbn [List.length Nat.mul Nat.add].
      destruct (Nat.ltb_spec fuel 4) as [Hlt|Hge]; [now apply Hout|].
      replace fuel with (4 + (fuel - 4))%nat by lia. rewrite Hrun.
      now apply Server_Run_Exit.
    + cbn. repeat split. lia.
  - (* more files follow *)
    assert (Hx : currentState fsm4 = ReadFileName).
    { unfold fsm4. cbn [currentState set_currentState].
      destruct (Z.eqb_spec (currentFile fsm + 1) (numFiles fsm)); [|reflexivity].
      cbn [List.length] in Hn. lia. }
    destruct (IH os (4 + now)%nat fsm4 r' Hos Hx ltac:(discriminate)) as
      (fsm' & HR & Hs' & Hc' & Hn' & Hd' & Hr').
    { cbn. unfold len. cbn [List.length] in *. lia. }
    { exact Hrest. }
    exists fsm'. split; [|split; [exact Hs'|]].
    + intros fuel. specialize (HR (fuel - 4)%nat). cbn [List.length] in *.
      destruct (Nat.ltb_spec fuel 4) as [Hlt4|Hge4].
      * rewrite (Hout fuel Hlt4).
        destruct (Nat.ltb_spec fuel (4 * S (S (List.length rest')))); [reflexivity | lia].
      * replace (Run fuel os now fsm) with (Run (4 + (fuel - 4)) os now fsm)
          by (f_equal; lia).
        rewrite Hrun, HR.
        destruct (Nat.ltb_spec (fuel - 4) (4 * S (List.length rest')));
          destruct (Nat.ltb_spec fuel (4 * S (S (List.length rest'))));
          try reflexivity; lia.
    + repeat split.
      * rewrite Hc'. reflexivity.
      * rewrite Hn'. reflexivity.
      * rewrite Hd'. cbn [map]. cbn [disk storageDir fsm4 fsm3 fsm2 fsm1 set_currentState
          set_currentFile println set_disk set_err set_fileContent set_reader set_fileName].
        rewrite <- app_assoc. reflexivity.
      * exact Hr'.
Qed.

(** [HandleError] is entered with an error at hand. *)
Lemma HandleError_entered_with_error (os : Server.OS) (now : nat)
    (fsm fsm' : HandleClientFSM) :
  currentState fsm <> HandleError ->
  step os now fsm = Done fsm' ->
  currentState fsm' = HandleError ->
  err fsm' <> None.
Proof.
  intros Hs E Hs'. unfold step in E. destruct (currentState fsm) eqn:Es; try congruence.
  - unfold ReadNumFilesState in E. destruct (receiveInt (reader fsm)) as [[n [e|]] r];
      inversion E; subst; cbn in *; congruence.
  - unfold ReadFileNameState in E.
    destruct (receiveBytes (reader fsm)) as [[[d [e|]] r]| |]; cbn in E;
      inversion E; subst; cbn in *; congruence.
  - unfold ReadFileContentState in E.
    destruct (receiveBytes (reader fsm)) as [[[d [e|]] r]| |]; cbn in E;
      inversion E; subst; cbn in *; congruence.
  - unfold WriteFileState in E.
    destruct (os_Create os now _) as [e|]; [inversion E; subst; cbn; congruence|].
    destruct (File_Write os now _) as [e|]; inversion E; subst; cbn in *; congruence.
  - unfold ReceiveNextFileState in E.
    destruct (currentFile fsm =? numFiles fsm); inversion E; subst; cbn in *; congruence.
  - inversion E; subst. cbn in Hs'. congruence.
Qed.

(** A session: after the count, the file units. *)
Lemma declared_count_reached (files : list (list byte * list byte)) (os : Server.OS)
    (c : Conn) (dir : string) (r0 r' : Reader) :
  (forall t path, os_Create os t path = None /\ File_Write os t path = None) ->
  files <> [] ->
  receiveInt (NewReader c) = ((len files, None), r0) ->
  receives r0 files r' ->
  exists fsm',
    (forall fuel,
       Run fuel os 0 (NewHandleClientFSM c dir)
       = if (fuel <? 1 + 4 * List.length files)%nat then OutOfFuel else Done fsm') /\
    currentState fsm' = Exit /\
    currentFile fsm' = len files /\ numFiles fsm' = len files /\
    disk fsm' = map (stored dir) files.
Proof.
  intros Hos Hne Ec Hr.
  set (fsm1 := set_currentState ReadFileName
                 (set_err None (set_numFiles (len files)
                    (set_reader r0 (NewHandleClientFSM c dir))))).
  assert (E0 : step os 0 (NewHandleClientFSM c dir) = Done fsm1).
  { unfold step. cbn [currentState NewHandleClientFSM]. unfold ReadNumFilesState.
    cbn [reader NewHandleClientFSM]. rewrite Ec. reflexivity. }
  destruct (session_count files os 1 fsm1 r' Hos eq_refl Hne) as
    (fsm' & HR & Hs & Hc & Hn & Hd & _).
  { cbn. lia. }
  { exact Hr. }
  exists fsm'. split; [|auto].
  assert (N0 : currentState (NewHandleClientFSM c dir) <> Exit) by (cbn; congruence).
  intros fuel. destruct fuel as [|fuel]; [reflexivity|].
  rewrite (Server_Run_step fuel os 0 _ fsm1 N0 E0), HR. reflexivity.
Qed.

(** The session of the scenario: the file is stored and the machine stops
    after five rounds, with a counter of 1. *)
Lemma demo_session_stored :
  exists fsm',
    Run 4 sound_disk 0 demo_session = OutOfFuel /\
    Run 5 sound_disk 0 demo_session = Done fsm' /\
    currentState fsm' = Exit /\ currentFile fsm' = 1 /\ numFiles fsm' = 1 /\
    disk fsm' = [("store/a.txt"%string, bytes "hi")] /\
    output fsm' = ["created file a.txt in store"%string].
Proof.
  eexists. split; [vm_compute; reflexivity|]. split; [vm_compute; reflexivity|].
  repeat split.
Qed.

(** The scenario of the specification on the side of the server: the client
    has declared two files, sent [a.txt] and closed.  The file is stored and
    the session ends in [HandleError] with a counter of 1. *)
Example demo_server_run :
  exists fsm',
    Run 7 sound_disk 0
        (NewHandleClientFSM
           (peer [[x00; x00; x00; x02]; [x00; x00; x00; x05]; bytes "a.txt";
                  [x00; x00; x00; x02]; bytes "hi"]) "store")
    = Done fsm' /\
    currentFile fsm' = 1 /\ numFiles fsm' = 2 /\
    disk fsm' = [("store/a.txt"%string, bytes "hi")] /\
    output fsm'
    = ["created file a.txt in store"; "Error: Client closed connection";
       "Error: EOF"]%string.
Proof. eexists. split; [vm_compute; reflexivity|]. repeat split. Qed.

End ServerRun.

(** * Further properties of the code *)

(** ** The codec *)

Lemma header_value (n : Z) : Uint32 (header n) = n mod 2 ^ 32.
Proof.
  unfold header. rewrite to_uint32_to_int32. apply Uint32_PutUint32.
  apply Z.mod_pos_bound. reflexivity.
Qed.

Lemma header_mod (n : Z) : header (n mod 2 ^ 32) = header n.
Proof.
  unfold header. rewrite !to_uint32_to_int32, Z.mod_mod by discriminate. reflexivity.
Qed.

(** X1.  Whatever the integer, [sendInt] writes four bytes, and
    [receiveInt], run on them, returns the integer modulo [2^32] and no
    error: a negative number or one from [2^32] on does not come back. *)
Theorem sendInt_receiveInt_wraps (n : Z) (c : Conn) :
  wfault c (wcount c) = None ->
  exists w' r',
    sendInt (NewWriter c) n = (None, w') /\
    receiveInt (delivered_as_written (NewWriter c) w') = ((n mod 2 ^ 32, None), r') /\
    pending r' = [].
Proof.
  intros Hf.
  assert (Hw : flushed (NewWriter c)) by (split; reflexivity).
  pose proof (sendInt_ok (NewWriter c) n Hw Hf) as E.
  set (w' := mkWriter _ _ _) in E.
  assert (E' : sendInt (NewWriter c) (n mod 2 ^ 32) = (None, w')).
  { rewrite (sendInt_ok (NewWriter c) _ Hw Hf), header_mod. reflexivity. }
  assert (Hd : delivered_as_written (NewWriter c) w' = NewReader (peer [header n])).
  { unfold delivered_as_written, w'. cbn [wr NewWriter push outgoing].
    rewrite skipn_app, Nat.sub_diag, skipn_all. reflexivity. }
  destruct (sendInt_receiveInt_lossless (n mod 2 ^ 32) (NewWriter c) w'
              (delivered_as_written (NewWriter c) w')) as (r' & Er & Hr); auto.
  - apply Z.mod_pos_bound. reflexivity.
  - rewrite Hd. unfold lossless, pending, w'.
    cbn [wr NewWriter push outgoing NewReader peer rd rbuf incoming app concat].
    now rewrite concat_app.
  - rewrite Hd. reflexivity.
  - exists w', r'. auto.
Qed.

Lemma sendInt_receiveInt_wraps_witness :
  exists w' r',
    sendInt (NewWriter (peer [])) (-1) = (None, w') /\
    receiveInt (delivered_as_written (NewWriter (peer [])) w')
    = (((-1) mod 2 ^ 32, None), r') /\
    pending r' = [].
Proof. apply (sendInt_receiveInt_wraps (-1) (peer [])). reflexivity. Defined.

(** The chunks of the loop of [sendBytes] are not empty. *)
Lemma sendBytes_loop_chunks (fuel : nat) :
  forall w data start res w',
    flushed w -> 0 <= start ->
    sendBytes_loop fuel w data start = Done ((res, None), w') ->
    exists chunks,
      outgoing (wr w') = outgoing (wr w) ++ chunks /\
      concat chunks = skipn (Z.to_nat start) data /\
      Forall (fun chunk => 0 < len chunk <= bufferSize) chunks /\
      wcount (wr w') = (wcount (wr w) + List.length chunks)%nat.
Proof.
  induction fuel as [|fuel IH]; intros w data start res w' Hw Hs E;
    cbn [sendBytes_loop] in E; destruct (Z.ltb_spec start (len data)) as [Hlt|Hge].
  - discriminate.
  - inversion E; subst. exists [].
    rewrite app_nil_r, skipn_all2 by (unfold len in *; lia). cbn. auto.
  - destruct (slice_chunk data start (conj Hs Hlt)) as (Hne & Hcat & Hsz).
    cbv zeta in Hne, Hcat, Hsz.
    set (chunk := slice data start _) in *.
    pose proof (Write_Flush w chunk Hw Hne) as H.
    destruct (Writer_Write w chunk) as [[n [e|]] w1]; [discriminate|].
    destruct (Writer_Flush w1) as [[e|] w2]; [discriminate|]. subst w2.
    apply IH in E; [|apply flushed_push | unfold bufferSize; lia].
    destruct E as (chunks & Ho & Hc & Hf & Hn).
    exists (chunk :: chunks).
    cbn [wr push outgoing wcount] in Ho, Hn. rewrite Ho, <- app_assoc. cbn [app concat].
    rewrite Hc. repeat split; auto.
    + constructor; [|exact Hf]. split; [|exact Hsz].
      destruct chunk; [congruence | unfold len; cbn; lia].
    + cbn [List.length]. lia.
  - inversion E; subst. exists [].
    rewrite app_nil_r, skipn_all2 by (unfold len in *; lia). cbn. auto.
Qed.

(** The writes of a [sendBytes] that returns no error. *)
Lemma sendBytes_chunks (w : Writer) (data : list byte) (res : Z) (w' : Writer) :
  flushed w ->
  sendBytes w data = Done ((res, None), w') ->
  exists chunks,
    outgoing (wr w') = outgoing (wr w) ++ header (len data) :: chunks /\
    concat chunks = data /\
    Forall (fun chunk => 0 < len chunk <= bufferSize) chunks /\
    wcount (wr w') = (wcount (wr w) + 1 + List.length chunks)%nat.
Proof.
  intros Hw E.
  unfold sendBytes in E. pose proof (sendInt_char w (len data) Hw) as H.
  destruct (sendInt w (len data)) as [[e|] w1]; [discriminate|]. subst w1.
  apply sendBytes_loop_chunks in E; [|apply flushed_push | lia].
  destruct E as (chunks & Ho & Hc & Hf & Hn). exists chunks.
  cbn [wr push outgoing wcount] in Ho, Hn. rewrite Ho, <- app_assoc.
  repeat split; auto. lia.
Qed.

(** X2.  A [sendBytes] that returns no error on a flushed writer has made
    one write of the four bytes of the length, then one write for each chunk:
    the chunks are not empty, hold [bufferSize] bytes at most, and make up
    [data]; it returns [len(data)] and leaves the writer flushed. *)
Theorem sendBytes_frames (w : Writer) (data : list byte) (res : Z) (w' : Writer) :
  flushed w ->
  sendBytes w data = Done ((res, None), w') ->
  res = len data /\ flushed w' /\
  exists chunks,
    outgoing (wr w') = outgoing (wr w) ++ header (len data) :: chunks /\
    concat chunks = data /\
    Forall (fun chunk => 0 < len chunk <= bufferSize) chunks /\
    wcount (wr w') = (wcount (wr w) + 1 + List.length chunks)%nat.
Proof.
  intros Hw E. destruct (sendBytes_char w data res w' Hw E) as (Hres & Hfl & _).
  split; [exact Hres|]. split; [exact Hfl|].
  exact (sendBytes_chunks w data res w' Hw E).
Qed.

Lemma sendBytes_frames_witness :
  2 = len (bytes "hi") /\
  flushed (mkWriter (push (push (peer []) (header 2)) (bytes "hi")) [] None) /\
  exists chunks,
    outgoing (wr (mkWriter (push (push (peer []) (header 2)) (bytes "hi")) [] None))
    = outgoing (wr (NewWriter (peer []))) ++ header (len (bytes "hi")) :: chunks /\
    concat chunks = bytes "hi" /\
    Forall (fun chunk => 0 < len chunk <= bufferSize) chunks /\
    wcount (wr (mkWriter (push (push (peer []) (header 2)) (bytes "hi")) [] None))
    = (wcount (wr (NewWriter (peer []))) + 1 + List.length chunks)%nat.
Proof.
  apply (sendBytes_frames (NewWriter (peer [])) (bytes "hi") 2).
  - split; reflexivity.
  - reflexivity.
Defined.

(** X3.  [sendBytes] returns, whatever the writer and the data: with
    [len(data)] and no error, or with [-1] and an error. *)
Theorem sendBytes_result (w : Writer) (data : list byte) :
  exists res err w',
    sendBytes w data = Done ((res, err), w') /\
    match err with
    | None => res = len data
    | Some _ => res = -1
    end.
Proof.
  pose proof (sendBytes_returns w data) as Hr.
  destruct (sendBytes w data) as [[[res err] w']| |] eqn:E; try contradiction.
  exists res, err, w'. split; [reflexivity|].
  unfold sendBytes in E. destruct (sendInt w (len data)) as [[e|] w1].
  - inversion E; subst. reflexivity.
  - clear Hr. revert E. generalize (Z.to_nat (len data / bufferSize + 1)) as fuel.
    generalize 0 as start. generalize w1 as w0. intros w0 start fuel. revert w0 start.
    induction fuel as [|fuel IH]; intros w0 start E; cbn [sendBytes_loop] in E;
      destruct (start <? len data); try discriminate; try (inversion E; subst; reflexivity).
    destruct (Writer_Write w0 _) as [[n [e|]] w2]; [inversion E; subst; reflexivity|].
    destruct (Writer_Flush w2) as [[e|] w3]; [inversion E; subst; reflexivity|].
    eapply IH. exact E.
Qed.

(** ** Reading: what a read leaves of the connection *)

Lemma feed_incoming (c : Conn) : feed c (incoming c) = c.
Proof. destruct c. reflexivity. Qed.

Lemma feed_feed (c : Conn) (a b : list (list byte)) : feed (feed c a) b = feed c b.
Proof. reflexivity. Qed.

(** Reading changes nothing of a connection but what has yet to arrive. *)
Lemma Conn_Read_feed (c : Conn) (n : Z) :
  snd (Conn_Read c n) = feed c (incoming (snd (Conn_Read c n))).
Proof.
  unfold Conn_Read. destruct (incoming c) as [|seg rest] eqn:E; cbn [snd].
  - now rewrite feed_incoming.
  - reflexivity.
Qed.

Lemma Reader_Read_feed (r : Reader) (n : Z) :
  rd (snd (Reader_Read r n)) = feed (rd r) (incoming (rd (snd (Reader_Read r n)))).
Proof.
  unfold Reader_Read. destruct (n =? 0); [cbn; now rewrite feed_incoming|].
  destruct (rbuf r); [|cbn; now rewrite feed_incoming].
  destruct (defaultBufSize <=? n).
  - pose proof (Conn_Read_feed (rd r) n) as H.
    destruct (Conn_Read (rd r) n) as [[d e] c]. exact H.
  - pose proof (Conn_Read_feed (rd r) defaultBufSize) as H.
    destruct (Conn_Read (rd r) defaultBufSize) as [[d e] c]. destruct d; exact H.
Qed.

Lemma receiveInt_feed (r : Reader) :
  rd (snd (receiveInt r)) = feed (rd r) (incoming (rd (snd (receiveInt r)))).
Proof.
  unfold receiveInt. pose proof (Reader_Read_feed r (len (zeros 4))) as H.
  destruct (Reader_Read r (len (zeros 4))) as [[d [e|]] r']; exact H.
Qed.

Lemma receiveBytes_loop_feed (fuel : nat) :
  forall r data size received x r',
    receiveBytes_loop fuel r data size received = Done (x, r') ->
    rd r' = feed (rd r) (incoming (rd r')).
Proof.
  induction fuel as [|fuel IH]; intros r data size received x r' E;
    cbn [receiveBytes_loop] in E; destruct (received <? size);
    try discriminate; try (inversion E; subst; now rewrite feed_incoming).
  set (n := if _ <? _ then _ else _) in E.
  pose proof (Reader_Read_feed r n) as H.
  destruct (Reader_Read r n) as [[d [e|]] r1]; cbn [snd] in H.
  - inversion E; subst. exact H.
  - apply IH in E. rewrite E, H. reflexivity.
Qed.

Lemma receiveBytes_feed (r : Reader) x (r' : Reader) :
  receiveBytes r = Done (x, r') -> rd r' = feed (rd r) (incoming (rd r')).
Proof.
  unfold receiveBytes. pose proof (receiveInt_feed r) as H.
  destruct (receiveInt r) as [[size [e|]] r1]; cbn [snd] in H; intros E.
  - inversion E; subst. exact H.
  - destruct (size <? 0); [discriminate|]. apply receiveBytes_loop_feed in E.
    rewrite E, H. reflexivity.
Qed.

(** ** Reading: the backlog *)

Lemma Reader_Read_backlog (r : Reader) (n : Z) :
  0 < n ->
  match Reader_Read r n with
  | ((_, None), r') => (backlog r' < backlog r)%nat
  | ((_, Some _), r') => (backlog r' <= backlog r)%nat
  end.
Proof.
  intros Hn. pose proof (Reader_Read_spec r n Hn) as S.
  pose proof (Reader_Read_feed r n) as F.
  destruct (Reader_Read r n) as [[d [e|]] r'] eqn:E; cbn [snd] in F.
  - destruct S as (_ & Hp & _). unfold backlog, pending, segments in *.
    unfold Reader_Read in E. destruct (Z.eqb_spec n 0); [lia|].
    apply app_eq_nil in Hp. destruct Hp as [Hb Hc]. rewrite Hb in E.
    unfold Conn_Read in E.
    destruct (incoming (rd r)) as [|seg rest] eqn:Ei.
    + destruct (defaultBufSize <=? n); inversion E; subst; cbn; rewrite Ei, Hb; cbn; lia.
    + destruct (defaultBufSize <=? n); [discriminate|].
      destruct (firstn _ seg); discriminate.
  - destruct S as (Hp & _ & Hs & Hs'). unfold backlog. rewrite Hp, length_app.
    destruct d; [specialize (Hs' eq_refl); cbn; lia | cbn; lia].
Qed.

Lemma receiveInt_backlog (r : Reader) :
  match receiveInt r with
  | ((_, None), r') => (backlog r' < backlog r)%nat
  | ((_, Some _), r') => (backlog r' <= backlog r)%nat
  end.
Proof.
  unfold receiveInt. pose proof (Reader_Read_backlog r (len (zeros 4)) eq_refl) as H.
  destruct (Reader_Read r (len (zeros 4))) as [[d [e|]] r']; exact H.
Qed.

Lemma receiveBytes_loop_backlog (fuel : nat) :
  forall r data size received x r',
    receiveBytes_loop fuel r data size received = Done (x, r') ->
    (backlog r' <= backlog r)%nat.
Proof.
  induction fuel as [|fuel IH]; intros r data size received x r' E;
    cbn [receiveBytes_loop] in E; destruct (Z.ltb_spec received size);
    try discriminate; try (inversion E; subst; lia).
  pose proof (readSize_pos (size - received) ltac:(lia)) as Hrs.
  pose proof (Reader_Read_backlog r _ (proj1 Hrs)) as HB.
  destruct (Reader_Read r _) as [[d [e|]] r1].
  - inversion E; subst. exact HB.
  - apply IH in E. lia.
Qed.

(** A [receiveBytes] that returns no error has used up some of the
    backlog; one that returns an error has not added to it. *)
Lemma receiveBytes_backlog (r : Reader) :
  exists d e r',
    receiveBytes r = Done ((d, e), r') /\
    match e with
    | None => (backlog r' < backlog r)%nat
    | Some _ => (backlog r' <= backlog r)%nat
    end.
Proof.
  pose proof (receiveBytes_returns r) as Hr.
  destruct (receiveBytes r) as [[[d e] r']| |] eqn:E; try contradiction.
  exists d, e, r'. split; [reflexivity|].
  unfold receiveBytes in E. pose proof (receiveInt_backlog r) as H.
  destruct (receiveInt r) as [[size [e0|]] r1].
  - inversion E; subst. exact H.
  - destruct (size <? 0); [discriminate|].
    pose proof (receiveBytes_loop_backlog _ _ _ _ _ _ _ E) as H'.
    destruct e; lia.
Qed.

(** ** Reading a blob *)

(** X4.  [receiveBytes] reads the blob and no further: with the length
    prefix at hand, it returns the [data] announced and leaves what follows
    it on the stream pending, byte for byte. *)
Theorem receiveBytes_leaves_the_rest (r : Reader) (data tail : list byte) :
  len data < 2 ^ 32 ->
  header_at_hand r = true ->
  pending r = header (len data) ++ data ++ tail ->
  exists r',
    receiveBytes r = Done ((data, None), r') /\ pending r' = tail /\
    len (pending r) = 4 + len data + len (pending r').
Proof.
  intros Hn Hh Hp.
  destruct (receiveBytes_blob r data tail Hn Hh) as (r' & E & Hr).
  - rewrite Hp. unfold header. pose proof (len_nonneg data).
    rewrite to_uint32_to_int32, Z.mod_small by lia. reflexivity.
  - exists r'. repeat split; auto. rewrite Hp, Hr, !len_app, header_len. lia.
Qed.

Lemma receiveBytes_leaves_the_rest_witness :
  exists r',
    receiveBytes (NewReader (peer [header 2 ++ bytes "hi" ++ bytes "next"]))
    = Done ((bytes "hi", None), r') /\ pending r' = bytes "next" /\
    len (pending (NewReader (peer [header 2 ++ bytes "hi" ++ bytes "next"])))
    = 4 + len (bytes "hi") + len (pending r').
Proof.
  apply (receiveBytes_leaves_the_rest
           (NewReader (peer [header 2 ++ bytes "hi" ++ bytes "next"]))
           (bytes "hi") (bytes "next")).
  - vm_compute. reflexivity.
  - reflexivity.
  - reflexivity.
Defined.





(** ** Streams that arrive as they were written *)

(** A segment that fits the read is handed out whole. *)
Lemma Reader_Read_chunk (c : Conn) (chunk : list byte) (segs : list (list byte)) (n : Z) :
  0 < len chunk <= n ->
  Reader_Read (mkReader (feed c (chunk :: segs)) []) n
  = ((chunk, None), mkReader (feed c segs) []).
Proof.
  intros Hc. unfold Reader_Read. destruct (Z.eqb_spec n 0); [lia|].
  cbn [rbuf rd]. unfold Conn_Read. cbn [incoming feed hangup outgoing wcount wfault closed].
  assert (Hall : forall m, len chunk <= m ->
                           firstn (Z.to_nat m) chunk = chunk /\ skipn (Z.to_nat m) chunk = []).
  { intros m Hm. split; [apply firstn_all2 | apply skipn_all2]; unfold len in *; lia. }
  destruct (Z.leb_spec defaultBufSize n).
  - destruct (Hall n ltac:(lia)) as [-> ->]. reflexivity.
  - destruct (Hall defaultBufSize ltac:(lia)) as [-> ->].
    destruct chunk as [|x chunk]; [unfold len in Hc; cbn in Hc; lia|].
    destruct (Hall n ltac:(lia)) as [-> ->]. reflexivity.
Qed.

Lemma receiveInt_aligned (c : Conn) (n : Z) (segs : list (list byte)) :
  receiveInt (mkReader (feed c (header n :: segs)) [])
  = ((n mod 2 ^ 32, None), mkReader (feed c segs) []).
Proof.
  unfold receiveInt. change (len (zeros 4)) with 4.
  rewrite Reader_Read_chunk by (rewrite header_len; lia).
  rewrite splice_whole by reflexivity. rewrite header_value.
  rewrite to_int_small; [reflexivity|].
  pose proof (Z.mod_pos_bound n (2 ^ 32) eq_refl).
  change (2 ^ 32) with 4294967296 in *. change (2 ^ 63) with 9223372036854775808. lia.
Qed.

Lemma receiveBytes_loop_aligned (chunks : list (list byte)) :
  forall (fuel : nat) (c : Conn) (got z : list byte) (rest : list (list byte)),
    Forall (fun chunk => 0 < len chunk <= bufferSize) chunks ->
    len z = len (concat chunks) ->
    (List.length chunks <= fuel)%nat ->
    receiveBytes_loop fuel (mkReader (feed c (chunks ++ rest)) []) (got ++ z)
                      (len got + len (concat chunks)) (len got)
    = Done ((got ++ concat chunks, None), mkReader (feed c rest) []).
Proof.
  induction chunks as [|chunk chunks IH]; intros fuel c got z rest Hall Hz Hf.
  - cbn [concat] in *. change (len []) with 0 in *. apply len_nil_inv in Hz. subst z.
    destruct fuel; cbn [receiveBytes_loop]; rewrite Z.add_0_r, Z.ltb_irrefl; reflexivity.
  - inversion Hall as [|? ? Hc Hall']; subst.
    destruct fuel as [|fuel]; [cbn in Hf; lia|]. cbn [receiveBytes_loop concat app].
    cbn [concat] in Hz. rewrite len_app in *.
    pose proof (len_nonneg (concat chunks)).
    destruct (Z.ltb_spec (len got) (len got + (len chunk + len (concat chunks)))); [|lia].
    rewrite Reader_Read_chunk.
    2:{ destruct (Z.ltb_spec (len got + (len chunk + len (concat chunks)) - len got)
                             bufferSize); lia. }
    rewrite splice_app by lia.
    replace (len got + (len chunk + len (concat chunks)))
      with (len (got ++ chunk) + len (concat chunks)) by (rewrite len_app; lia).
    replace (len got + len chunk) with (len (got ++ chunk)) by (rewrite len_app; lia).
    rewrite IH; [now rewrite <- app_assoc | exact Hall' | | cbn in Hf; lia].
    unfold len in *. rewrite length_skipn. lia.
Qed.

(** A blob that arrives as [sendBytes] wrote it, the length and then the
    chunks, each as one segment, is received whole, and the reader stands at
    the segment that follows. *)
Lemma receiveBytes_aligned (c : Conn) (data : list byte) (chunks rest : list (list byte)) :
  len data < 2 ^ 32 -> concat chunks = data ->
  Forall (fun chunk => 0 < len chunk <= bufferSize) chunks ->
  receiveBytes (mkReader (feed c (header (len data) :: chunks ++ rest)) [])
  = Done ((data, None), mkReader (feed c rest) []).
Proof.
  intros Hn Hc Hall. unfold receiveBytes. rewrite receiveInt_aligned.
  pose proof (len_nonneg data). rewrite Z.mod_small by lia.
  destruct (Z.ltb_spec (len data) 0); [lia|].
  pose proof (receiveBytes_loop_aligned chunks
                (Z.to_nat (len data) + List.length (chunks ++ rest) + 1) c []
                (zeros (len data)) rest Hall) as H'.
  cbn [app] in H'. change (len []) with 0 in H'. rewrite Hc, !Z.add_0_l in H'.
  cbn [rd incoming feed]. apply H'.
  - apply len_zeros. lia.
  - rewrite length_app. lia.
Qed.

(** File units that arrive as they were sent are received as they were
    sent. *)
Lemma sends_arrive (units : list (list byte * list byte)) :
  forall (w w' : Writer),
    flushed w -> sends w units w' -> Forall fits units ->
    flushed w' /\
    exists segs,
      outgoing (wr w') = outgoing (wr w) ++ segs /\
      forall (c : Conn) (rest : list (list byte)),
        ServerSpec.receives (mkReader (feed c (segs ++ rest)) []) units
                            (mkReader (feed c rest) []).
Proof.
  induction units as [|[name content] units IH]; intros w w' Hw Hs Hfit.
  - cbn [sends] in Hs. subst w'. split; [exact Hw|]. exists [].
    rewrite app_nil_r. split; [reflexivity|]. intros c rest. reflexivity.
  - cbn [sends] in Hs. destruct Hs as (n1 & n2 & w1 & w2 & E1 & E2 & Hs).
    inversion Hfit as [|? ? [Hf1 Hf2] Hfit']; subst. cbn [fst snd] in Hf1, Hf2.
    destruct (sendBytes_char w name n1 w1 Hw E1) as (_ & Hw1 & _).
    destruct (sendBytes_char w1 content n2 w2 Hw1 E2) as (_ & Hw2 & _).
    destruct (sendBytes_chunks w name n1 w1 Hw E1) as (ch1 & Ho1 & Hc1 & Ha1 & _).
    destruct (sendBytes_chunks w1 content n2 w2 Hw1 E2) as (ch2 & Ho2 & Hc2 & Ha2 & _).
    destruct (IH w2 w' Hw2 Hs Hfit') as (Hw' & segs & Ho & Hr).
    split; [exact Hw'|].
    exists ((header (len name) :: ch1) ++ (header (len content) :: ch2) ++ segs).
    split.
    + rewrite Ho, Ho2, Ho1, <- !app_assoc. reflexivity.
    + intros c rest. cbn [ServerSpec.receives].
      exists (mkReader (feed c ((header (len content) :: ch2) ++ segs ++ rest)) []),
             (mkReader (feed c (segs ++ rest)) []).
      split; [|split; [|apply Hr]].
      * rewrite <- !app_assoc. cbn [app].
        apply receiveBytes_aligned; assumption.
      * cbn [app]. apply receiveBytes_aligned; assumption.
Qed.

(** ** The client: a batch whose files can all be read *)

Section ClientTransfer.
Import Client ClientSpec TransferSpec.

#[local] Arguments sendBytes : simpl never.
#[local] Arguments sendInt : simpl never.

(** The rounds before [SendFileCount], when the arguments are enough and the
    server is reached. *)
Lemma main_connects (os : OS) (c : Conn) :
  3 <= len (os_Args os) -> dialled os = inl c ->
  exists pre,
    leads os 0 NewClientFSM 3 pre
          (mkClientFSM None SendFileCount (ParseAddress (nth 0 (os_Args os) ""%string))
                       (nth 1 (os_Args os) ""%string) (skipn 2 (os_Args os)) 0
                       (Some (NewWriter c)) None []) /\
    attempted pre = [].
Proof.
  intros Hargs Hd.
  assert (E0 : step os 0 NewClientFSM
               = Done (set_currentState (fst (ValidateArgsState os NewClientFSM))
                                        (snd (ValidateArgsState os NewClientFSM))))
    by reflexivity.
  unfold ValidateArgsState in E0.
  destruct (Z.ltb_spec (len (os_Args os)) arguments) as [Hlt|_];
    [unfold arguments in Hlt; lia|]. cbn [fst snd] in E0.
  set (fsm1 := set_currentState ParseIP _) in E0.
  set (fsm2 := mkClientFSM None ConnetServer (ParseAddress (nth 0 (os_Args os) ""%string))
                           (nth 1 (os_Args os) ""%string) (skipn 2 (os_Args os)) 0
                           None None []).
  assert (E1 : step os 1 fsm1 = Done fsm2).
  { unfold step, fsm1, fsm2. cbn [currentState set_currentState].
    unfold ParseIPState, ParseAddress. rewrite strings_Contains_colon.
    cbn [ip set_currentState set_fileNames set_port set_ip NewClientFSM].
    destruct (existsb _ _); reflexivity. }
  eexists. split.
  - eapply leads_step; [cbn; congruence | exact E0 |].
    eapply leads_step; [cbn; congruence | exact E1 |].
    eapply leads_step; [cbn; congruence | | apply leads_refl].
    unfold step, fsm2. cbn [currentState]. unfold ConnetServerState. cbn [ip port].
    change (net_Dial os trans _) with (dialled os). rewrite Hd. reflexivity.
  - reflexivity.
Qed.

(** One file that can be opened, named and read, on a connection on which
    no write fails: its name and its content are sent, in three rounds. *)
Lemma file_cycle_sent (os : OS) (now : nat) (fsm : ClientFSM) (w : Writer)
    (f : File) (base : string) (fileData : list byte) :
  let name := nth (Z.to_nat (currentFile fsm)) (fileNames fsm) ""%string in
  currentState fsm = OpenFile ->
  0 <= currentFile fsm < len (fileNames fsm) ->
  writer fsm = Some w -> flushed w -> (forall j, wfault (wr w) j = None) ->
  os_Open os now name = inl f -> Stat f = inl base ->
  os_ReadFile os (S (S now)) name = inl fileData ->
  exists pre fsm' w1 w2,
    leads os now fsm 3 pre fsm' /\ attempted pre = [name] /\
    currentState fsm' = SendNextFile /\ currentFile fsm' = currentFile fsm + 1 /\
    fileNames fsm' = fileNames fsm /\
    writer fsm' = Some w2 /\ flushed w2 /\ (forall j, wfault (wr w2) j = None) /\
    sendBytes w (list_byte_of_string base)
    = Done ((len (list_byte_of_string base), None), w1) /\
    sendBytes w1 fileData = Done ((len fileData, None), w2) /\
    output fsm' = output fsm ++ [("Sent file " ++ name)%string] /\
    file_closed fsm'.
Proof.
  intros name Hs Hi Hw Hfl Hnf Eopen Estat Eread.
  destruct (sendBytes_ok w (list_byte_of_string base) Hfl Hnf) as (w1 & Es1 & Hnf1).
  destruct (sendBytes_char _ _ _ _ Hfl Es1) as (_ & Hfl1 & _).
  destruct (sendBytes_ok w1 fileData Hfl1 Hnf1) as (w2 & Es2 & Hnf2).
  destruct (sendBytes_char _ _ _ _ Hfl1 Es2) as (_ & Hfl2 & _).
  set (fsm1 := set_currentState SendFileName (set_err None (set_file (Some f) fsm))).
  assert (E1 : step os now fsm = Done fsm1).
  { unfold step. rewrite Hs. unfold OpenFileState.
    rewrite (index_in_range _ _ ""%string Hi). fold name. cbn [bind]. rewrite Eopen.
    reflexivity. }
  set (fsm2 := set_currentState ReadAndSendFileData
                 (set_err None (set_writer (Some w1) fsm1))).
  assert (E2 : step os (S now) fsm1 = Done fsm2).
  { unfold step, fsm1. cbn [currentState set_currentState].
    unfold SendFileNameState. cbn. rewrite Estat, Hw, Es1. reflexivity. }
  eexists [fsm; fsm1; fsm2], _, w1, w2. split.
  { eapply leads_step; [congruence | exact E1 |].
    eapply leads_step; [cbn; congruence | exact E2 |].
    eapply leads_step; [cbn; congruence | | apply leads_refl].
    unfold step, fsm2. cbn [currentState set_currentState].
    unfold ReadAndSendFileDataState. cbn.
    rewrite (index_in_range _ _ ""%string Hi). fold name. cbn [bind]. rewrite Eread, Es2.
    reflexivity. }
  split; [unfold attempted; cbn [flat_map]; rewrite Hs; reflexivity|].
  cbn. repeat split; auto; apply Hfl2.
Qed.

(** The batch from [OpenFile] on, with [S r] files left that can all be
    read: they are sent in order and the machine comes to [Terminate]. *)
Lemma batch_sent (base : string -> string) (content : string -> list byte) (r : nat) :
  forall (os : OS) (now : nat) (fsm : ClientFSM) (w : Writer),
    currentState fsm = OpenFile -> 0 <= currentFile fsm ->
    Z.of_nat (S r) = len (fileNames fsm) - currentFile fsm ->
    writer fsm = Some w -> flushed w -> (forall j, wfault (wr w) j = None) ->
    readable os base content (fileNames fsm) ->
    exists n pre fsm' w',
      leads os now fsm n pre fsm' /\
      currentState fsm' = Terminate /\ writer fsm' = Some w' /\
      sends w (map (unit_of base content)
                   (skipn (Z.to_nat (currentFile fsm)) (fileNames fsm))) w' /\
      output fsm'
      = output fsm ++ map (fun path => ("Sent file " ++ path)%string)
                          (skipn (Z.to_nat (currentFile fsm)) (fileNames fsm)) /\
      file_closed fsm'.
Proof.
  induction r as [|r IH]; intros os now fsm w Hs H0 Hrem Hw Hfl Hnf Hread;
    set (name := nth (Z.to_nat (currentFile fsm)) (fileNames fsm) ""%string);
    (assert (Hin : In name (fileNames fsm))
       by (apply nth_In; unfold len in *; lia));
    destruct (Hread now name Hin) as ((f & Eopen & Estat) & _);
    destruct (Hread (S (S now)) name Hin) as (_ & Eread);
    destruct (file_cycle_sent os now fsm w f (base name) (content name)
                Hs ltac:(lia) Hw Hfl Hnf Eopen Estat Eread)
      as (pre & fsm1 & w1 & w2 & L & _ & Hs1 & Hc1 & Hn1 & Hw1 & Hfl2 & Hnf2 & Es1 & Es2
          & Hout & Hfc);
    rewrite <- (nth_skipn_succ _ _ ""%string) by lia; fold name; cbn [map].
  - exists (1 + 3)%nat, (pre ++ [fsm1]), (set_currentState Terminate fsm1), w2.
    split.
    { eapply leads_trans; [exact L|].
      eapply leads_step; [congruence | | apply leads_refl].
      rewrite (step_SendNextFile _ _ _ Hs1).
      destruct (Z.geb_spec (currentFile fsm1) (len (fileNames fsm1))); [reflexivity|].
      rewrite Hn1 in *. lia. }
    rewrite skipn_all2 by (unfold len in *; lia). cbn [map sends].
    split; [reflexivity|]. split; [exact Hw1|]. split; [unfold unit_of; eauto 10|].
    split; [exact Hout | exact Hfc].
  - set (fsm2 := set_currentState OpenFile fsm1).
    destruct (IH os (S (3 + now)) fsm2 w2) as (n & pre2 & fsm3 & w' & L2 & Hs3 & Hw3 & Hsd
                                                & Hout3 & Hfc3).
    { reflexivity. }
    { cbn. lia. }
    { cbn. rewrite Hn1. lia. }
    { exact Hw1. }
    { exact Hfl2. }
    { exact Hnf2. }
    { cbn. rewrite Hn1. exact Hread. }
    cbn [fileNames currentFile output fsm2 set_currentState] in Hsd, Hout3.
    rewrite Hn1, Hc1 in Hsd, Hout3.
    exists (n + 1 + 3)%nat, (pre ++ [fsm1] ++ pre2), fsm3, w'.
    split.
    { eapply leads_trans; [exact L|]. eapply leads_trans; [|exact L2].
      eapply leads_step; [congruence | | apply leads_refl].
      rewrite (step_SendNextFile _ _ _ Hs1).
      destruct (Z.geb_spec (currentFile fsm1) (len (fileNames fsm1))); [|reflexivity].
      rewrite Hn1 in *. lia. }
    split; [exact Hs3|]. split; [exact Hw3|]. split.
    + cbn [sends unit_of]. eauto 10.
    + split; [|exact Hfc3]. rewrite Hout3, Hout, <- app_assoc. reflexivity.
Qed.

End ClientTransfer.

(** ** From the files of the client to the disk of the server *)

(** X6.  A batch carried through.  When the client has its three arguments
    or more, reaches the server, can open, name and read every file, and no
    write fails, and when what it wrote arrives at the server as it was
    written and the server can store every file, then the client ends having
    printed one line for each file, and the session of the server ends in
    [Exit] after one round for the count and four for each file with, in its
    storage directory,
    every file under its base name with its content, in the order of the
    arguments.  The names, the contents and the number of files are taken
    to fit the 32-bit length prefix. *)
Theorem batch_transfer (os : Client.OS) (c : Conn) (base : string -> string)
    (content : string -> list byte) (sos : Server.OS) (dir : string) :
  let files := skipn 2 (Client.os_Args os) in
  3 <= len (Client.os_Args os) ->
  ClientSpec.dialled os = inl c ->
  (forall j, wfault c j = None) ->
  TransferSpec.readable os base content files ->
  Forall fits (map (TransferSpec.unit_of base content) files) ->
  len files < 2 ^ 32 ->
  (forall t path, Server.os_Create sos t path = None /\ Server.File_Write sos t path = None) ->
  exists n fsm' w' sfsm',
    Client.main n os = Done fsm' /\
    Client.writer fsm' = Some w' /\
    Client.output fsm'
    = map (fun path => ("Sent file " ++ path)%string) files ++ ["Client Exiting..."%string] /\
    Server.Run (1 + 4 * List.length files) sos 0
               (Server.NewHandleClientFSM (rd (delivered_as_written (NewWriter c) w')) dir)
    = Done sfsm' /\
    Server.currentState sfsm' = Server.Exit /\
    Server.currentFile sfsm' = len files /\
    Server.disk sfsm'
    = map (fun path => ((dir ++ "/" ++ base path)%string, content path)) files.
Proof.
  intros files Hargs Hd Hnf Hread Hfits Hcount Hsos.
  assert (Hne : files <> []).
  { intros E. apply (f_equal (@List.length _)) in E. unfold files in E.
    rewrite length_skipn in E. unfold len in Hargs. cbn in E. lia. }
  assert (Hl1 : (1 <= List.length files)%nat).
  { destruct files; [congruence | cbn; lia]. }
  destruct (main_connects os c Hargs Hd) as (pre0 & L0 & _).
  set (fsm3 := Client.mkClientFSM _ _ _ _ _ _ _ _ _) in L0.
  assert (Hw0 : flushed (NewWriter c)) by (split; reflexivity).
  pose proof (sendInt_ok (NewWriter c) (len files) Hw0 (Hnf _)) as Ecount.
  set (w0 := mkWriter _ _ _) in Ecount.
  set (fsm4 := Client.set_currentState Client.OpenFile
                 (Client.set_currentFile 0 (Client.set_writer (Some w0) fsm3))).
  assert (E3 : Client.step os 3 fsm3 = Done fsm4).
  { unfold Client.step, fsm3. cbn [Client.currentState].
    unfold Client.SendFileCountState. cbn [Client.writer Client.fileNames].
    fold files. rewrite Ecount. reflexivity. }
  destruct (batch_sent base content (List.length files - 1) os 4 fsm4 w0)
    as (n & pre & fsmT & wT & L & HsT & HwT & Hsends & Hout & _).
  { reflexivity. }
  { cbn. lia. }
  { cbn [Client.fileNames Client.currentFile fsm4 fsm3 Client.set_currentState
         Client.set_currentFile Client.set_writer]. fold files. unfold len. lia. }
  { reflexivity. }
  { apply flushed_push. }
  { exact Hnf. }
  { exact Hread. }
  cbn [Client.fileNames Client.currentFile Client.output fsm4 fsm3
       Client.set_currentState Client.set_currentFile Client.set_writer
       Z.to_nat skipn app] in Hsends, Hout.
  fold files in Hsends, Hout.
  (* the client *)
  assert (Lall : ClientSpec.leads os 0 Client.NewClientFSM (n + 1 + 3)
                                  (pre0 ++ [fsm3] ++ pre) fsmT).
  { eapply leads_trans; [exact L0|]. eapply leads_trans; [|exact L].
    eapply leads_step; [cbn; congruence | exact E3 | apply leads_refl]. }
  destruct (Lall 1%nat) as [R _].
  destruct (Run_Terminate 0 os (n + 1 + 3 + 0) fsmT HsT) as [R' _].
  (* the server *)
  destruct (sends_arrive _ w0 wT (flushed_push _ _) Hsends Hfits) as (_ & segs & Ho & Hrecv).
  assert (Hdel : rd (delivered_as_written (NewWriter c)
                       (mkWriter (Conn_Close (wr wT)) (wbuf wT) (werr wT)))
                 = feed (peer []) (header (len files) :: segs ++ [])).
  { unfold delivered_as_written. cbn [wr NewWriter Conn_Close outgoing NewReader rd].
    rewrite Ho. cbn [w0 wr push outgoing].
    rewrite <- app_assoc, skipn_app, Nat.sub_diag, skipn_all, app_nil_r. reflexivity. }
  destruct (declared_count_reached (map (TransferSpec.unit_of base content) files) sos
              (feed (peer []) (header (len files) :: segs ++ [])) dir
              (mkReader (feed (peer []) (segs ++ [])) [])
              (mkReader (feed (peer []) []) []) Hsos)
    as (sfsm' & HR & Hs' & Hc' & _ & Hdisk).
  { intros E. apply map_eq_nil in E. contradiction. }
  { unfold NewReader. rewrite receiveInt_aligned. unfold len.
    rewrite length_map. fold (len files). pose proof (len_nonneg files).
    rewrite Z.mod_small by lia. reflexivity. }
  { apply Hrecv. }
  exists (n + 1 + 3 + 1)%nat, (Client.TerminateState fsmT),
    (mkWriter (Conn_Close (wr wT)) (wbuf wT) (werr wT)), sfsm'.
  split; [unfold Client.main; rewrite R; exact R'|].
  split; [unfold Client.TerminateState; cbn; rewrite HwT; reflexivity|].
  split; [unfold Client.TerminateState; cbn; rewrite Hout; reflexivity|].
  rewrite Hdel. specialize (HR (1 + 4 * List.length files)%nat).
  rewrite length_map, Nat.ltb_irrefl in HR.
  split; [exact HR|]. split; [exact Hs'|].
  split; [rewrite Hc'; unfold len; now rewrite length_map|].
  rewrite Hdisk, map_map. apply map_ext. intros path.
  unfold ServerSpec.stored, TransferSpec.unit_of. cbn [fst snd].
  now rewrite string_of_list_byte_of_string.
Qed.

Lemma batch_transfer_witness :
  exists n fsm' w' sfsm',
    Client.main n TransferSpec.os_hi = Done fsm' /\
    Client.writer fsm' = Some w' /\
    Client.output fsm' = ["Sent file a.txt"; "Client Exiting..."]%string /\
    Server.Run 5 ServerSpec.sound_disk 0
               (Server.NewHandleClientFSM (rd (delivered_as_written (NewWriter (peer [])) w'))
                                          "store")
    = Done sfsm' /\
    Server.currentState sfsm' = Server.Exit /\
    Server.currentFile sfsm' = 1 /\
    Server.disk sfsm' = [("store/a.txt"%string, bytes "hi")].
Proof.
  apply (batch_transfer TransferSpec.os_hi (peer []) (fun path => path)
           (fun _ => bytes "hi") ServerSpec.sound_disk "store").
  - vm_compute. discriminate.
  - reflexivity.
  - reflexivity.
  - intros t path _. split; [eexists; split; reflexivity | reflexivity].
  - repeat constructor.
  - reflexivity.
  - intros t path. split; reflexivity.
Defined.

(** ** The session of the server *)

Section ServerSession.
Import Server ServerSpec.

#[local] Arguments receiveBytes : simpl never.
#[local] Arguments receiveInt : simpl never.

(** X7.  A session with a count of one or more.  When the connection hands
    out the count and then as many file units, and each is stored without an
    error, [Run] returns after one round for the count and four rounds for
    each file, not sooner, in [Exit], with the counter at the count and the
    files on the disk in the order they came. *)
Theorem session_stores_declared_files (files : list (list byte * list byte))
    (os : Server.OS) (c : Conn) (dir : string) (r0 r' : Reader) :
  (forall t path, os_Create os t path = None /\ File_Write os t path = None) ->
  files <> [] ->
  receiveInt (NewReader c) = ((len files, None), r0) ->
  receives r0 files r' ->
  exists fsm',
    Run (1 + 4 * List.length files) os 0 (NewHandleClientFSM c dir) = Done fsm' /\
    (forall fuel, (fuel < 1 + 4 * List.length files)%nat ->
                  Run fuel os 0 (NewHandleClientFSM c dir) = OutOfFuel) /\
    currentState fsm' = Exit /\
    currentFile fsm' = len files /\ numFiles fsm' = len files /\
    disk fsm' = map (stored dir) files /\
    reader fsm' = r'.
Proof.
  intros Hos Hne Ec Hr.
  set (fsm1 := set_currentState ReadFileName
                 (set_err None (set_numFiles (len files)
                    (set_reader r0 (NewHandleClientFSM c dir))))).
  assert (E0 : step os 0 (NewHandleClientFSM c dir) = Done fsm1).
  { unfold step. cbn [currentState NewHandleClientFSM]. unfold ReadNumFilesState.
    cbn [reader NewHandleClientFSM]. rewrite Ec. reflexivity. }
  destruct (session_count files os 1 fsm1 r' Hos eq_refl Hne) as
    (fsm' & HR & Hs & Hc & Hn & Hd & Hrd).
  { cbn. lia. }
  { exact Hr. }
  assert (N0 : currentState (NewHandleClientFSM c dir) <> Exit) by (cbn; congruence).
  exists fsm'. split; [|split].
  - cbn [Nat.add]. rewrite (Server_Run_step _ os 0 _ fsm1 N0 E0), HR.
    now rewrite Nat.ltb_irrefl.
  - intros fuel Hf. destruct fuel as [|fuel]; [reflexivity|].
    rewrite (Server_Run_step fuel os 0 _ fsm1 N0 E0), HR.
    destruct (Nat.ltb_spec fuel (4 * List.length files)); [reflexivity | lia].
  - auto.
Qed.

Lemma session_stores_declared_files_witness :
  exists fsm',
    Run (1 + 4 * 1) sound_disk 0 demo_session = Done fsm' /\
    (forall fuel, (fuel < 1 + 4 * 1)%nat -> Run fuel sound_disk 0 demo_session = OutOfFuel) /\
    currentState fsm' = Exit /\
    currentFile fsm' = 1 /\ numFiles fsm' = 1 /\
    disk fsm' = [("store/a.txt"%string, bytes "hi")] /\
    reader fsm' = NewReader (peer []).
Proof.
  apply (session_stores_declared_files [(bytes "a.txt", bytes "hi")] sound_disk
           (peer [[x00; x00; x00; x01]; [x00; x00; x00; x05]; bytes "a.txt";
                  [x00; x00; x00; x02]; bytes "hi"])
           "store"
           (NewReader (peer [[x00; x00; x00; x05]; bytes "a.txt";
                             [x00; x00; x00; x02]; bytes "hi"]))
           (NewReader (peer []))).
  - intros t path. split; reflexivity.
  - discriminate.
  - reflexivity.
  - exists (NewReader (peer [[x00; x00; x00; x02]; bytes "hi"])), (NewReader (peer [])).
    split; [reflexivity|]. split; reflexivity.
Defined.

(** Rounds of [Run] keep what holds of the machine, when every transition
    keeps it. *)
Lemma Server_Run_invariant (P : HandleClientFSM -> Prop) (os : Server.OS) :
  (forall now fsm fsm', currentState fsm <> Exit -> P fsm ->
                        step os now fsm = Done fsm' -> P fsm') ->
  forall fuel now fsm fsm', P fsm -> Run fuel os now fsm = Done fsm' -> P fsm'.
Proof.
  intros Hstep. induction fuel as [|fuel IH]; intros now fsm fsm' HP E;
    cbn [Run] in E; destruct (currentState fsm) eqn:Es;
    try discriminate; try (inversion E; subst; exact HP);
    (destruct (step os now fsm) as [fsm1| |] eqn:E1; cbn [bind] in E; try discriminate;
     eapply IH; [|exact E]; eapply Hstep; [|exact HP|exact E1]; congruence).
Qed.

(** No transition but the one of [Exit] changes anything of the connection
    but what has yet to arrive. *)
Lemma step_feed (os : Server.OS) (now : nat) (fsm fsm' : HandleClientFSM) :
  currentState fsm <> Exit -> step os now fsm = Done fsm' ->
  con fsm' = feed (con fsm) (incoming (con fsm')).
Proof.
  intros Hs E. unfold step in E. unfold con.
  destruct (currentState fsm) eqn:Es; try congruence.
  - unfold ReadNumFilesState in E. pose proof (receiveInt_feed (reader fsm)) as F.
    destruct (receiveInt (reader fsm)) as [[n [e|]] r]; inversion E; subst; exact F.
  - unfold ReadFileNameState in E.
    destruct (receiveBytes (reader fsm)) as [[[d e] r]| |] eqn:Er; cbn [bind] in E;
      try discriminate.
    apply receiveBytes_feed in Er. destruct e; inversion E; subst; exact Er.
  - unfold ReadFileContentState in E.
    destruct (receiveBytes (reader fsm)) as [[[d e] r]| |] eqn:Er; cbn [bind] in E;
      try discriminate.
    apply receiveBytes_feed in Er. destruct e; inversion E; subst; exact Er.
  - unfold WriteFileState in E.
    destruct (os_Create os now _); [inversion E; subst; cbn; now rewrite feed_incoming|].
    destruct (File_Write os now _); inversion E; subst; cbn; now rewrite feed_incoming.
  - unfold ReceiveNextFileState in E.
    destruct (currentFile fsm =? numFiles fsm); inversion E; subst; cbn;
      now rewrite feed_incoming.
  - unfold HandleErrorState in E. destruct (err fsm); [|discriminate].
    destruct (String.eqb _ _); inversion E; subst; cbn; now rewrite feed_incoming.
Qed.

(** X8.  [Run] reads and does nothing else to the connection: when it
    returns, nothing has been written to the client, and the connection is
    not closed unless it was closed before; the call of [Close] in the
    [switch] is never reached. *)
Theorem Run_leaves_connection_open (fuel : nat) (os : Server.OS) (now : nat)
    (fsm fsm' : HandleClientFSM) :
  Run fuel os now fsm = Done fsm' ->
  currentState fsm' = Exit /\
  closed (con fsm') = closed (con fsm) /\
  outgoing (con fsm') = outgoing (con fsm) /\
  wcount (con fsm') = wcount (con fsm).
Proof.
  intros E. split.
  - revert now fsm E. induction fuel as [|fuel IH]; intros now fsm E; cbn [Run] in E;
      destruct (currentState fsm) eqn:Es; try discriminate;
      try (inversion E; subst; exact Es);
      (destruct (step os now fsm) as [fsm1| |]; cbn [bind] in E; try discriminate;
       eapply IH; exact E).
  - assert (H : exists segs, con fsm' = feed (con fsm) segs).
    { apply (Server_Run_invariant (fun x => exists segs, con x = feed (con fsm) segs) os)
        with (fuel := fuel) (now := now) (fsm := fsm); [| |exact E].
      - intros t x x' Hx [segs Hsegs] Ex. apply step_feed in Ex; [|exact Hx].
        rewrite Ex, Hsegs. eexists. reflexivity.
      - exists (incoming (con fsm)). now rewrite feed_incoming. }
    destruct H as [segs ->]. repeat split.
Qed.

Lemma Run_leaves_connection_open_witness :
  exists fsm',
    Run 5 sound_disk 0 demo_session = Done fsm' /\
    currentState fsm' = Exit /\
    closed (con fsm') = closed (con demo_session) /\
    outgoing (con fsm') = outgoing (con demo_session) /\
    wcount (con fsm') = wcount (con demo_session).
Proof.
  eexists. split; [vm_compute; reflexivity|].
  eapply (Run_leaves_connection_open 5 sound_disk 0 demo_session).
  vm_compute. reflexivity.
Defined.

End ServerSession.

Section ServerEnds.
Import Server ServerSpec.

#[local] Arguments receiveBytes : simpl never.
#[local] Arguments receiveInt : simpl never.

(** From [HandleError] the machine is in [Exit] after one round. *)
Lemma Run_from_HandleError (f : nat) (os : Server.OS) (now : nat) (fsm : HandleClientFSM)
    (e : error) :
  currentState fsm = HandleError -> err fsm = Some e ->
  exists fsm',
    Run (S f) os now fsm = Done fsm' /\ currentState fsm' = Exit /\ err fsm' = Some e /\
    currentFile fsm' = currentFile fsm /\ disk fsm' = disk fsm.
Proof.
  intros Hs He.
  assert (E : exists fsm', step os now fsm = Done fsm' /\ currentState fsm' = Exit /\
                           err fsm' = Some e /\ currentFile fsm' = currentFile fsm /\
                           disk fsm' = disk fsm).
  { unfold step. rewrite Hs. unfold HandleErrorState. rewrite He.
    destruct (String.eqb (Error e) "EOF"); eexists; (split; [reflexivity|]); cbn; auto. }
  destruct E as (fsm' & E & Hs' & He' & Hc & Hd). exists fsm'.
  rewrite (Server_Run_step f os now fsm fsm' ltac:(congruence) E).
  rewrite Server_Run_Exit by exact Hs'. auto.
Qed.

(** From [ReadFileName], with a backlog of [m] at most: each file uses up
    two units of the backlog at least. *)
Lemma Run_from_ReadFileName (os : Server.OS) (m : nat) :
  forall (now : nat) (fsm : HandleClientFSM),
    currentState fsm = ReadFileName -> (backlog (reader fsm) <= m)%nat ->
    exists n fsm',
      (n <= 2 * m + 2)%nat /\ Run n os now fsm = Done fsm' /\ currentState fsm' = Exit /\
      (currentFile fsm' = numFiles fsm' \/ err fsm' <> None).
Proof.
  induction m as [m IH] using lt_wf_ind. intros now fsm Hs Hm.
  assert (N0 : currentState fsm <> Exit) by congruence.
  destruct (receiveBytes_backlog (reader fsm)) as (d1 & e1 & r1 & Er1 & Hb1).
  destruct e1 as [e1|].
  { (* the name cannot be read *)
    set (fsm1 := set_currentState HandleError (set_err (Some e1) (set_reader r1 fsm))).
    assert (E1 : step os now fsm = Done fsm1).
    { unfold step. rewrite Hs. unfold ReadFileNameState. rewrite Er1. reflexivity. }
    destruct (Run_from_HandleError 0 os (S now) fsm1 e1 eq_refl eq_refl)
      as (fsm' & R & Hs' & He' & _).
    exists 2%nat, fsm'. split; [lia|].
    rewrite (Server_Run_step _ _ _ _ _ N0 E1). repeat split; auto.
    right. congruence. }
  set (fsm1 := set_currentState ReadFileContent
                 (set_fileName (string_of_list_byte d1) (set_reader r1 fsm))).
  assert (E1 : step os now fsm = Done fsm1).
  { unfold step. rewrite Hs. unfold ReadFileNameState. rewrite Er1. reflexivity. }
  assert (N1 : currentState fsm1 <> Exit) by (cbn; congruence).
  destruct (receiveBytes_backlog r1) as (d2 & e2 & r2 & Er2 & Hb2).
  set (fsm2s := set_err e2 (set_fileContent d2 (set_reader r2 fsm1))).
  destruct e2 as [e2|].
  { (* the content cannot be read *)
    set (fsm2 := set_currentState HandleError fsm2s).
    assert (E2 : step os (S now) fsm1 = Done fsm2).
    { unfold step, fsm1. cbn [currentState set_currentState].
      unfold ReadFileContentState. cbn [reader set_currentState set_fileName set_reader].
      rewrite Er2. reflexivity. }
    destruct (Run_from_HandleError 0 os (S (S now)) fsm2 e2 eq_refl eq_refl)
      as (fsm' & R & Hs' & He' & _).
    exists 3%nat, fsm'. split; [lia|].
    rewrite (Server_Run_step _ _ _ _ _ N0 E1), (Server_Run_step _ _ _ _ _ N1 E2).
    repeat split; auto. right. congruence. }
  set (fsm2 := set_currentState WriteFile fsm2s).
  assert (E2 : step os (S now) fsm1 = Done fsm2).
  { unfold step, fsm1. cbn [currentState set_currentState].
    unfold ReadFileContentState. cbn [reader set_currentState set_fileName set_reader].
    rewrite Er2. reflexivity. }
  assert (N2 : currentState fsm2 <> Exit) by (cbn; congruence).
  assert (E3 : exists fsm3,
             step os (S (S now)) fsm2 = Done fsm3 /\ reader fsm3 = r2 /\
             ((currentState fsm3 = HandleError /\ exists e, err fsm3 = Some e) \/
              (currentState fsm3 = ReceiveNextFile))).
  { unfold step, fsm2. cbn [currentState set_currentState]. unfold WriteFileState.
    destruct (os_Create os _ _) as [e|]; [eexists; split; [reflexivity|]; cbn; eauto|].
    destruct (File_Write os _ _) as [e|]; eexists; (split; [reflexivity|]); cbn; eauto. }
  destruct E3 as (fsm3 & E3 & Hr3 & [[Hs3 [e He3]]|Hs3]).
  { (* the file cannot be stored *)
    destruct (Run_from_HandleError 0 os (S (S (S now))) fsm3 e Hs3 He3)
      as (fsm' & R & Hs' & He' & _).
    exists 4%nat, fsm'. split; [lia|].
    rewrite (Server_Run_step _ _ _ _ _ N0 E1), (Server_Run_step _ _ _ _ _ N1 E2),
      (Server_Run_step _ _ _ _ _ N2 E3).
    repeat split; auto. right. congruence. }
  assert (N3 : currentState fsm3 <> Exit) by congruence.
  set (fsm4 := set_currentState
                 (if currentFile fsm3 =? numFiles fsm3 then Exit else ReadFileName) fsm3).
  assert (E4 : step os (S (S (S now))) fsm3 = Done fsm4).
  { unfold step. rewrite Hs3. unfold ReceiveNextFileState.
    destruct (currentFile fsm3 =? numFiles fsm3); reflexivity. }
  assert (R4 : forall k, Run (4 + k) os now fsm = Run k os (4 + now) fsm4).
  { intros k. cbn [Nat.add].
    rewrite (Server_Run_step _ _ _ _ _ N0 E1), (Server_Run_step _ _ _ _ _ N1 E2),
      (Server_Run_step _ _ _ _ _ N2 E3), (Server_Run_step _ _ _ _ _ N3 E4). reflexivity. }
  destruct (currentFile fsm3 =? numFiles fsm3) eqn:Heq.
  - (* the count is reached *)
    apply Z.eqb_eq in Heq.
    exists 4%nat, fsm4. split; [lia|]. pose proof (R4 0%nat) as R. cbn [Nat.add] in R.
    rewrite R, Server_Run_Exit by reflexivity. repeat split. left. exact Heq.
  - (* on to the next file *)
    destruct (IH (m - 2)%nat ltac:(lia) (4 + now)%nat fsm4) as (n & fsm' & Hn & R & Hs' & Hend).
    { reflexivity. }
    { cbn [reader fsm4 set_currentState]. rewrite Hr3. lia. }
    exists (4 + n)%nat, fsm'. split; [lia|]. rewrite R4. auto.
Qed.

(** X9.  A session ends, whatever the stream holds and whatever the file
    system answers: [Run] returns in [Exit] within two rounds for each byte
    and segment the connection has yet to deliver, and two more, and then the
    counter has come to the count or an error is at hand. *)
Theorem session_ends (os : Server.OS) (c : Conn) (dir : string) :
  exists n fsm',
    (n <= 2 * backlog (NewReader c) + 2)%nat /\
    Run n os 0 (NewHandleClientFSM c dir) = Done fsm' /\
    currentState fsm' = Exit /\
    (currentFile fsm' = numFiles fsm' \/ err fsm' <> None).
Proof.
  assert (N0 : currentState (NewHandleClientFSM c dir) <> Exit) by (cbn; congruence).
  pose proof (receiveInt_backlog (NewReader c)) as Hb.
  destruct (receiveInt (NewReader c)) as [[k [e|]] r0] eqn:Ec.
  - set (fsm1 := set_currentState HandleError
                   (set_err (Some e) (set_numFiles k
                      (set_reader r0 (NewHandleClientFSM c dir))))).
    assert (E0 : step os 0 (NewHandleClientFSM c dir) = Done fsm1).
    { unfold step. cbn [currentState NewHandleClientFSM]. unfold ReadNumFilesState.
      cbn [reader NewHandleClientFSM]. rewrite Ec. reflexivity. }
    destruct (Run_from_HandleError 0 os 1 fsm1 e eq_refl eq_refl)
      as (fsm' & R & Hs' & He' & _).
    exists 2%nat, fsm'. split; [lia|]. rewrite (Server_Run_step _ _ _ _ _ N0 E0).
    repeat split; auto. right. congruence.
  - set (fsm1 := set_currentState ReadFileName
                   (set_err None (set_numFiles k
                      (set_reader r0 (NewHandleClientFSM c dir))))).
    assert (E0 : step os 0 (NewHandleClientFSM c dir) = Done fsm1).
    { unfold step. cbn [currentState NewHandleClientFSM]. unfold ReadNumFilesState.
      cbn [reader NewHandleClientFSM]. rewrite Ec. reflexivity. }
    destruct (Run_from_ReadFileName os (backlog (NewReader c) - 1) 1 fsm1 eq_refl)
      as (n & fsm' & Hn & R & Hs' & Hend).
    { cbn [reader fsm1 set_currentState set_err set_numFiles set_reader]. lia. }
    exists (S n), fsm'. split; [lia|]. rewrite (Server_Run_step _ _ _ _ _ N0 E0). auto.
Qed.

End ServerEnds.

(** ** The client: arguments, giving up, and what is left open *)

Section ClientEnds.
Import Client ClientSpec TransferSpec.

#[local] Arguments sendBytes : simpl never.
#[local] Arguments sendInt : simpl never.

(** X10.  [validateArgs] fails exactly when there are fewer than three
    arguments, and then returns nothing; otherwise it cuts the arguments into
    the host, the port and one file name at least, and loses none.
    [ValidateArgsState] stores what it returns and fails when it fails. *)
Theorem validateArgs_partitions (os : OS) (fsm : ClientFSM) :
  match validateArgs (os_Args os) with
  | ((ip, port, filenames), Some e) =>
      len (os_Args os) < 3 /\ ip = ""%string /\ port = ""%string /\ filenames = [] /\
      ValidateArgsState os fsm = (HandleFatalError, set_err (Some e) fsm)
  | ((ip, port, filenames), None) =>
      os_Args os = ip :: port :: filenames /\ filenames <> [] /\
      ValidateArgsState os fsm
      = (ParseIP, set_fileNames filenames (set_port port (set_ip ip fsm)))
  end.
Proof.
  unfold validateArgs, ValidateArgsState.
  destruct (Z.ltb_spec (len (os_Args os)) arguments) as [Hlt|Hge].
  - repeat split. exact Hlt.
  - destruct (os_Args os) as [|a [|b [|f args]]];
      try (unfold len, arguments in Hge; cbn in Hge; lia).
    repeat split. discriminate.
Qed.

(** X11.  The client gives up before it sends anything: with fewer than
    three arguments [Run] returns after three rounds, and when the server
    cannot be reached after five, each time with no connection, one line
    for the fatal error and the parting line. *)
Theorem client_gives_up (os : OS) :
  (len (os_Args os) < 3 ->
   exists fsm',
     main 3 os = Done fsm' /\ main 2 os = OutOfFuel /\ writer fsm' = None /\
     attempted (rounds 3 os 0 NewClientFSM) = [] /\
     output fsm'
     = ["Fatal Error: invalid number of arguments, <ip> <port> <filename1>...<filenameN>";
        "Client Exiting..."]%string) /\
  (forall e,
     3 <= len (os_Args os) -> dialled os = inr e ->
     exists fsm',
       main 5 os = Done fsm' /\ main 4 os = OutOfFuel /\ writer fsm' = None /\
       attempted (rounds 5 os 0 NewClientFSM) = [] /\
       output fsm' = [("Fatal Error: " ++ Error e)%string; "Client Exiting..."%string]).
Proof.
  split.
  - intros Hlt. unfold main. cbn [Run rounds NewClientFSM currentState step bind].
    unfold ValidateArgsState.
    destruct (Z.ltb_spec (len (os_Args os)) arguments) as [_|Hge];
      [|unfold arguments in Hge; lia].
    eexists. split; [reflexivity|]. repeat split.
  - intros e Hge Hd.
    assert (E0 : step os 0 NewClientFSM
                 = Done (set_currentState (fst (ValidateArgsState os NewClientFSM))
                                          (snd (ValidateArgsState os NewClientFSM))))
      by reflexivity.
    unfold ValidateArgsState in E0.
    destruct (Z.ltb_spec (len (os_Args os)) arguments) as [Hlt|_];
      [unfold arguments in Hlt; lia|]. cbn [fst snd] in E0.
    set (fsm1 := set_currentState ParseIP _) in E0.
    set (fsm2 := mkClientFSM None ConnetServer (ParseAddress (nth 0 (os_Args os) ""%string))
                             (nth 1 (os_Args os) ""%string) (skipn 2 (os_Args os)) 0
                             None None []).
    assert (E1 : step os 1 fsm1 = Done fsm2).
    { unfold step, fsm1, fsm2. cbn [currentState set_currentState].
      unfold ParseIPState, ParseAddress. rewrite strings_Contains_colon.
      cbn [ip set_currentState set_fileNames set_port set_ip NewClientFSM].
      destruct (existsb _ _); reflexivity. }
    set (fsm3 := set_currentState HandleFatalError (set_err (Some e) (set_writer None fsm2))).
    assert (E2 : step os 2 fsm2 = Done fsm3).
    { unfold step, fsm2. cbn [currentState]. unfold ConnetServerState. cbn [ip port].
      change (net_Dial os trans _) with (dialled os). rewrite Hd. reflexivity. }
    assert (L : leads os 0 NewClientFSM 4 [NewClientFSM; fsm1; fsm2; fsm3]
                      (set_currentState Terminate
                         (println ("Fatal Error: " ++ show (err fsm3)) fsm3))).
    { eapply leads_step; [cbn; congruence | exact E0 |].
      eapply leads_step; [cbn; congruence | exact E1 |].
      eapply leads_step; [cbn; congruence | exact E2 |].
      eapply leads_step; [cbn; congruence | apply step_HandleFatalError; reflexivity |].
      apply leads_refl. }
    destruct (L 1%nat) as [R1 R2]. destruct (L 0%nat) as [R0 _].
    eexists. unfold main. cbn [Nat.add] in R1, R2, R0. rewrite R1, R2, R0.
    split; [reflexivity|]. repeat split.
Qed.

Lemma client_gives_up_witness :
  (exists fsm',
     main 3 (mkOS ["127.0.0.1"; "9000"]%string (fun _ _ => inl (peer []))
                  (fun _ _ => inr io_EOF) (fun _ _ => inr io_EOF)) = Done fsm' /\
     writer fsm' = None) /\
  (exists fsm',
     main 5 (mkOS ["127.0.0.1"; "9000"; "a.txt"]%string
                  (fun _ _ => inr (errors_New "connection refused"))
                  (fun _ _ => inr io_EOF) (fun _ _ => inr io_EOF)) = Done fsm' /\
     writer fsm' = None /\
     output fsm' = ["Fatal Error: connection refused"; "Client Exiting..."]%string).
Proof.
  split.
  - destruct (client_gives_up (mkOS ["127.0.0.1"; "9000"]%string (fun _ _ => inl (peer []))
                                    (fun _ _ => inr io_EOF) (fun _ _ => inr io_EOF)))
      as [H _].
    destruct H as (fsm' & E & _ & Hw & _); [vm_compute; reflexivity|].
    exists fsm'. auto.
  - destruct (client_gives_up (mkOS ["127.0.0.1"; "9000"; "a.txt"]%string
                                    (fun _ _ => inr (errors_New "connection refused"))
                                    (fun _ _ => inr io_EOF) (fun _ _ => inr io_EOF)))
      as [_ H].
    destruct (H (errors_New "connection refused")) as (fsm' & E & _ & Hw & _ & Ho);
      [vm_compute; discriminate | reflexivity |].
    exists fsm'. auto.
Defined.

(** Rounds of [Run] keep what holds of the machine, when every transition
    keeps it; and [Run] returns from [TerminateState] only. *)
Lemma Client_Run_invariant (P : ClientFSM -> Prop) (os : OS) :
  (forall now fsm fsm', P fsm -> step os now fsm = Done fsm' -> P fsm') ->
  forall fuel now fsm fsm',
    P fsm -> Run fuel os now fsm = Done fsm' ->
    exists x, P x /\ currentState x = Terminate /\ fsm' = TerminateState x.
Proof.
  intros Hstep. induction fuel as [|fuel IH]; intros now fsm fsm' HP E; [discriminate|].
  cbn [Run] in E. destruct (currentState fsm) eqn:Es.
  12:{ inversion E; subst. exists fsm. auto. }
  all: destruct (step os now fsm) as [fsm1| |] eqn:E1; cbn [bind] in E; try discriminate;
    eapply IH; [|exact E]; eapply Hstep; [exact HP | exact E1].
Qed.

(** The file is closed, or was never opened, in every state but the two in
    which it is in use. *)
Lemma step_file_closed (os : OS) (now : nat) (fsm fsm' : ClientFSM) :
  (currentState fsm = SendFileName \/ currentState fsm = ReadAndSendFileData \/
   file_closed fsm) ->
  step os now fsm = Done fsm' ->
  currentState fsm' = SendFileName \/ currentState fsm' = ReadAndSendFileData \/
  file_closed fsm'.
Proof.
  intros HP E. unfold step in E.
  assert (Hclose : forall x, file_closed (close_file x)).
  { intros x. unfold file_closed, close_file. cbn. destruct (file x); reflexivity. }
  destruct (currentState fsm) eqn:Es;
    try (destruct HP as [HP|[HP|HP]]; try discriminate HP).
  all: try (inversion E; subst; cbn; auto; fail).
  - (* ValidateArgs *)
    unfold ValidateArgsState in E. destruct (len (os_Args os) <? arguments);
      inversion E; subst; cbn; auto.
  - (* ParseIP *)
    unfold ParseIPState in E. destruct (strings_Contains _ _); inversion E; subst; cbn; auto.
  - (* ConnetServer *)
    unfold ConnetServerState in E. destruct (net_Dial _ _ _); inversion E; subst; cbn; auto.
  - (* SendFileCount *)
    unfold SendFileCountState in E. destruct (writer fsm); [|discriminate].
    destruct (sendInt _ _) as [[e|] w']; inversion E; subst; cbn; auto.
  - (* OpenFile *)
    unfold OpenFileState in E. destruct (index _ _); cbn [bind] in E; try discriminate.
    destruct (os_Open _ _ _); inversion E; subst; cbn; auto.
  - (* SendFileName *)
    unfold SendFileNameState in E. destruct (File_Stat _).
    + destruct (writer fsm); [|discriminate].
      destruct (sendBytes _ _) as [[[n e] w']| |]; cbn [bind] in E; try discriminate.
      destruct e; inversion E; subst; cbn [fst snd currentState set_currentState]; auto.
      right. right. unfold file_closed. cbn. destruct (file fsm); reflexivity.
    + inversion E; subst. right. right. unfold file_closed. cbn.
      destruct (file fsm); reflexivity.
  - unfold SendFileNameState in E. destruct (File_Stat _).
    + destruct (writer fsm); [|discriminate].
      destruct (sendBytes _ _) as [[[n e] w']| |]; cbn [bind] in E; try discriminate.
      destruct e; inversion E; subst; cbn [fst snd currentState set_currentState]; auto.
      right. right. unfold file_closed. cbn. destruct (file fsm); reflexivity.
    + inversion E; subst. right. right. unfold file_closed. cbn.
      destruct (file fsm); reflexivity.
  - (* ReadAndSendFileData *)
    unfold ReadAndSendFileDataState in E.
    destruct (index _ _); cbn [bind] in E; try discriminate.
    destruct (os_ReadFile _ _ _).
    + destruct (writer fsm); [|discriminate].
      destruct (sendBytes _ _) as [[[n e] w']| |]; cbn [bind] in E; try discriminate.
      destruct e; inversion E; subst; right; right; unfold file_closed; cbn;
        destruct (file fsm); reflexivity.
    + inversion E; subst. right. right. unfold file_closed. cbn.
      destruct (file fsm); reflexivity.
  - unfold ReadAndSendFileDataState in E.
    destruct (index _ _); cbn [bind] in E; try discriminate.
    destruct (os_ReadFile _ _ _).
    + destruct (writer fsm); [|discriminate].
      destruct (sendBytes _ _) as [[[n e] w']| |]; cbn [bind] in E; try discriminate.
      destruct e; inversion E; subst; right; right; unfold file_closed; cbn;
        destruct (file fsm); reflexivity.
    + inversion E; subst. right. right. unfold file_closed. cbn.
      destruct (file fsm); reflexivity.
  - (* SendNextFile *)
    unfold SendNextFileState in E. destruct (_ >=? _); inversion E; subst; cbn; auto.
Qed.

(** X12.  When [Run] returns, the connection is closed if one was made, and
    the file is closed if one was opened: every path that opens a file
    closes it before it goes on, whatever fails. *)
Theorem Run_closes_what_it_opened (fuel : nat) (os : OS) (fsm' : ClientFSM) :
  main fuel os = Done fsm' ->
  currentState fsm' = Terminate /\ con_closed fsm' /\ file_closed fsm'.
Proof.
  intros E. unfold main in E.
  destruct (Client_Run_invariant
              (fun x => currentState x = SendFileName \/
                        currentState x = ReadAndSendFileData \/ file_closed x)
              os (step_file_closed os) fuel 0%nat NewClientFSM fsm')
    as (x & HP & Hs & ->); [right; right; exact I | exact E |].
  split; [exact Hs|]. split.
  - unfold con_closed, TerminateState. cbn. destruct (writer x); reflexivity.
  - destruct HP as [HP|[HP|HP]]; try congruence. exact HP.
Qed.

Lemma Run_closes_what_it_opened_witness :
  exists fsm',
    main 12 (os_demo (peer [])) = Done fsm' /\
    currentState fsm' = Terminate /\ con_closed fsm' /\ file_closed fsm'.
Proof.
  eexists. split; [vm_compute; reflexivity|].
  apply (Run_closes_what_it_opened 12 (os_demo (peer []))).
  vm_compute. reflexivity.
Defined.

(** One file that can be opened and named but not read, on a connection on
    which no write fails: its name is sent, nothing else, and the machine
    goes on to the next file. *)
Lemma file_cycle_unread (os : OS) (now : nat) (fsm : ClientFSM) (w : Writer)
    (f : File) (base : string) (e : error) :
  let name := nth (Z.to_nat (currentFile fsm)) (fileNames fsm) ""%string in
  currentState fsm = OpenFile ->
  0 <= currentFile fsm < len (fileNames fsm) ->
  writer fsm = Some w -> flushed w -> (forall j, wfault (wr w) j = None) ->
  os_Open os now name = inl f -> Stat f = inl base ->
  os_ReadFile os (S (S now)) name = inr e ->
  exists pre fsm' w1,
    leads os now fsm 4 pre fsm' /\ attempted pre = [name] /\
    currentState fsm' = SendNextFile /\ currentFile fsm' = currentFile fsm + 1 /\
    fileNames fsm' = fileNames fsm /\
    writer fsm' = Some w1 /\ flushed w1 /\ (forall j, wfault (wr w1) j = None) /\
    sendBytes w (list_byte_of_string base)
    = Done ((len (list_byte_of_string base), None), w1) /\
    output fsm' = output fsm ++ [("Error: " ++ Error e)%string] /\
    file_closed fsm'.
Proof.
  intros name Hs Hi Hw Hfl Hnf Eopen Estat Eread.
  destruct (sendBytes_ok w (list_byte_of_string base) Hfl Hnf) as (w1 & Es1 & Hnf1).
  destruct (sendBytes_char _ _ _ _ Hfl Es1) as (_ & Hfl1 & _).
  set (fsm1 := set_currentState SendFileName (set_err None (set_file (Some f) fsm))).
  assert (E1 : step os now fsm = Done fsm1).
  { unfold step. rewrite Hs. unfold OpenFileState.
    rewrite (index_in_range _ _ ""%string Hi). fold name. cbn [bind]. rewrite Eopen.
    reflexivity. }
  set (fsm2 := set_currentState ReadAndSendFileData
                 (set_err None (set_writer (Some w1) fsm1))).
  assert (E2 : step os (S now) fsm1 = Done fsm2).
  { unfold step, fsm1. cbn [currentState set_currentState].
    unfold SendFileNameState. cbn. rewrite Estat, Hw, Es1. reflexivity. }
  set (fsm3 := set_currentState HandleError (close_file (set_err (Some e) fsm2))).
  assert (E3 : step os (S (S now)) fsm2 = Done fsm3).
  { unfold step, fsm2. cbn [currentState set_currentState].
    unfold ReadAndSendFileDataState. cbn.
    rewrite (index_in_range _ _ ""%string Hi). fold name. cbn [bind]. rewrite Eread.
    reflexivity. }
  eexists [fsm; fsm1; fsm2; fsm3], _, w1. split.
  { eapply leads_step; [congruence | exact E1 |].
    eapply leads_step; [cbn; congruence | exact E2 |].
    eapply leads_step; [cbn; congruence | exact E3 |].
    eapply leads_step; [cbn; congruence | apply step_HandleError; reflexivity |].
    apply leads_refl. }
  split; [unfold attempted; cbn [flat_map]; rewrite Hs; reflexivity|].
  cbn. repeat split; auto; apply Hfl1.
Qed.

(** X13.  A file that cannot be read after its name was sent leaves the
    name on the connection without a content: the writes of the four rounds
    are those of the name, the length and then the chunks, the error is
    printed, and the cursor moves on to the next file. *)
Theorem read_failure_leaves_name (os : OS) (now : nat) (fsm : ClientFSM) (w : Writer)
    (f : File) (base : string) (e : error) :
  currentState fsm = OpenFile ->
  0 <= currentFile fsm < len (fileNames fsm) ->
  writer fsm = Some w -> flushed w -> (forall j, wfault (wr w) j = None) ->
  os_Open os now (nth (Z.to_nat (currentFile fsm)) (fileNames fsm) ""%string) = inl f ->
  Stat f = inl base ->
  os_ReadFile os (S (S now)) (nth (Z.to_nat (currentFile fsm)) (fileNames fsm) ""%string)
  = inr e ->
  exists fsm' w1 chunks,
    steps 4 os now fsm = Done fsm' /\
    currentState fsm' = SendNextFile /\ currentFile fsm' = currentFile fsm + 1 /\
    writer fsm' = Some w1 /\
    outgoing (wr w1)
    = outgoing (wr w) ++ header (len (list_byte_of_string base)) :: chunks /\
    concat chunks = list_byte_of_string base /\
    output fsm' = output fsm ++ [("Error: " ++ Error e)%string].
Proof.
  intros Hs Hi Hw Hfl Hnf Eopen Estat Eread.
  destruct (sendBytes_ok w (list_byte_of_string base) Hfl Hnf) as (w1 & Es1 & _).
  destruct (sendBytes_chunks _ _ _ _ Hfl Es1) as (chunks & Ho & Hc & _).
  eexists _, w1, chunks. split.
  - cbn [steps]. unfold step at 1. rewrite Hs. unfold OpenFileState.
    rewrite (index_in_range _ _ ""%string Hi). cbn [bind]. rewrite Eopen. cbn [bind fst snd].
    unfold step at 1. cbn [currentState set_currentState]. unfold SendFileNameState.
    cbn [file set_currentState set_err set_file File_Stat writer]. rewrite Estat, Hw, Es1.
    cbn [bind fst snd]. unfold step at 1. cbn [currentState set_currentState].
    unfold ReadAndSendFileDataState.
    cbn [fileNames currentFile set_currentState set_err set_writer set_file].
    rewrite (index_in_range _ _ ""%string Hi). cbn [bind]. rewrite Eread. cbn [bind fst snd].
    rewrite step_HandleError by reflexivity. reflexivity.
  - cbn. repeat split; auto.
Qed.

Lemma read_failure_leaves_name_witness :
  exists fsm' w1 chunks,
    steps 4 (mkOS [] (fun _ _ => inl (peer []))
                  (fun _ path => inl (mkFile (inl "a.txt"%string) true))
                  (fun _ _ => inr (errors_New "read a.txt: input/output error")))
          0 (at_file OpenFile 0 (peer [])) = Done fsm' /\
    currentState fsm' = SendNextFile /\ currentFile fsm' = 0 + 1 /\
    writer fsm' = Some w1 /\
    outgoing (wr w1)
    = outgoing (wr (NewWriter (peer []))) ++ header (len (bytes "a.txt")) :: chunks /\
    concat chunks = bytes "a.txt" /\
    output fsm' = [] ++ ["Error: read a.txt: input/output error"%string].
Proof.
  apply (read_failure_leaves_name
           (mkOS [] (fun _ _ => inl (peer []))
                 (fun _ path => inl (mkFile (inl "a.txt"%string) true))
                 (fun _ _ => inr (errors_New "read a.txt: input/output error")))
           0 (at_file OpenFile 0 (peer [])) (NewWriter (peer []))
           (mkFile (inl "a.txt"%string) true) "a.txt"
           (errors_New "read a.txt: input/output error")).
  - reflexivity.
  - vm_compute. split; [discriminate | reflexivity].
  - reflexivity.
  - split; reflexivity.
  - reflexivity.
  - reflexivity.
  - reflexivity.
  - reflexivity.
Defined.

End ClientEnds.

(** ** Sessions that are cut short *)

Section ServerShort.
Import Server ServerSpec.

#[local] Arguments receiveBytes : simpl never.
#[local] Arguments receiveInt : simpl never.

Lemma Run_HandleError_report (f : nat) (os : Server.OS) (now : nat) (fsm : HandleClientFSM)
    (e : error) :
  currentState fsm = HandleError -> err fsm = Some e ->
  exists fsm',
    Run (S f) os now fsm = Done fsm' /\ currentState fsm' = Exit /\ err fsm' = Some e /\
    currentFile fsm' = currentFile fsm /\ numFiles fsm' = numFiles fsm /\
    disk fsm' = disk fsm /\ output fsm' = output fsm ++ complaint e.
Proof.
  intros Hs He.
  assert (E : exists fsm', step os now fsm = Done fsm' /\ currentState fsm' = Exit /\
                           err fsm' = Some e /\ currentFile fsm' = currentFile fsm /\
                           numFiles fsm' = numFiles fsm /\
                           disk fsm' = disk fsm /\ output fsm' = output fsm ++ complaint e).
  { unfold step. rewrite Hs. unfold HandleErrorState, complaint. rewrite He.
    destruct (String.eqb (Error e) "EOF"); eexists; (split; [reflexivity|]); cbn;
      rewrite ?He, <- ?app_assoc; repeat split. }
  destruct E as (fsm' & E & Hs' & Hrest). exists fsm'.
  rewrite (Server_Run_step f os now fsm fsm' ltac:(congruence) E).
  rewrite Server_Run_Exit by exact Hs'. auto.
Qed.

(** File units that come while the counter does not meet the count: four
    rounds each, and the machine is back in [ReadFileName]. *)
Lemma session_units (files : list (list byte * list byte)) :
  forall (os : Server.OS) (now : nat) (fsm : HandleClientFSM) (r' : Reader),
    (forall t path, os_Create os t path = None /\ File_Write os t path = None) ->
    currentState fsm = ReadFileName ->
    numFiles fsm <= currentFile fsm \/ currentFile fsm + len files < numFiles fsm ->
    receives (reader fsm) files r' ->
    exists fsm',
      (forall f, Run (4 * List.length files + f) os now fsm
                 = Run f os (4 * List.length files + now) fsm') /\
      currentState fsm' = ReadFileName /\
      currentFile fsm' = currentFile fsm + len files /\ numFiles fsm' = numFiles fsm /\
      storageDir fsm' = storageDir fsm /\
      disk fsm' = disk fsm ++ map (stored (storageDir fsm)) files /\
      output fsm' = output fsm ++ map (report (storageDir fsm)) files /\
      reader fsm' = r'.
Proof.
  induction files as [|[name content] rest IH]; intros os now fsm r' Hos Hs Hn Hr.
  - cbn [receives] in Hr. subst r'. exists fsm. cbn [List.length Nat.mul Nat.add map].
    change (len []) with 0. rewrite Z.add_0_r, !app_nil_r. repeat split; auto.
  - destruct Hr as (r1 & r2 & Er1 & Er2 & Hrest).
    set (fsm1 := set_currentState ReadFileContent
                   (set_fileName (string_of_list_byte name) (set_reader r1 fsm))).
    assert (E1 : step os now fsm = Done fsm1).
    { unfold step. rewrite Hs. unfold ReadFileNameState. rewrite Er1. reflexivity. }
    set (fsm2 := set_currentState WriteFile
                   (set_err None (set_fileContent content (set_reader r2 fsm1)))).
    assert (E2 : step os (S now) fsm1 = Done fsm2).
    { unfold step, fsm1. cbn [currentState set_currentState].
      unfold ReadFileContentState. cbn [reader set_currentState set_fileName set_reader].
      rewrite Er2. reflexivity. }
    set (path := (storageDir fsm ++ "/" ++ string_of_list_byte name)%string).
    set (fsm3 := set_currentState ReceiveNextFile
                   (set_currentFile (currentFile fsm + 1)
                      (println ("created file " ++ string_of_list_byte name ++ " in "
                                ++ storageDir fsm)
                         (set_disk (disk fsm ++ [(path, content)]) fsm2)))).
    assert (E3 : step os (S (S now)) fsm2 = Done fsm3).
    { unfold step, fsm2. cbn [currentState set_currentState].
      unfold WriteFileState. cbn [storageDir fileName set_currentState set_err
        set_fileContent set_reader set_fileName fsm1]. fold path.
      destruct (Hos (S (S now)) path) as [-> ->]. reflexivity. }
    set (fsm4 := set_currentState ReadFileName fsm3).
    unfold len in Hn. cbn [List.length] in Hn.
    assert (E4 : step os (S (S (S now))) fsm3 = Done fsm4).
    { unfold step, fsm3. cbn [currentState set_currentState].
      unfold ReceiveNextFileState. cbn.
      destruct (Z.eqb_spec (currentFile fsm + 1) (numFiles fsm)); [lia | reflexivity]. }
    assert (N0 : currentState fsm <> Exit) by congruence.
    assert (N1 : currentState fsm1 <> Exit) by (cbn; congruence).
    assert (N2 : currentState fsm2 <> Exit) by (cbn; congruence).
    assert (N3 : currentState fsm3 <> Exit) by (cbn; congruence).
    destruct (IH os (4 + now)%nat fsm4 r' Hos eq_refl) as
      (fsm' & HR & Hs' & Hc' & Hn' & Hsd' & Hd' & Ho' & Hr').
    { cbn. unfold len. lia. }
    { exact Hrest. }
    exists fsm'. split; [|split; [exact Hs'|]].
    + intros f. cbn [List.length].
      replace (4 * S (List.length rest) + f)%nat
        with (S (S (S (S (4 * List.length rest + f))))) by lia.
      rewrite (Server_Run_step _ _ _ _ _ N0 E1), (Server_Run_step _ _ _ _ _ N1 E2),
        (Server_Run_step _ _ _ _ _ N2 E3), (Server_Run_step _ _ _ _ _ N3 E4), HR.
      f_equal. lia.
    + cbn in Hc', Hn', Hsd', Hd', Ho'. unfold len in *. cbn [List.length map].
      repeat split; auto.
      * lia.
      * rewrite Hd', <- app_assoc. reflexivity.
      * rewrite Ho', <- app_assoc. reflexivity.
Qed.

(** X14.  A session cut short.  When the connection hands out a count and
    file units, the counter never meets the count (the count is zero, or
    larger than the number of units), and the stream is then at its end,
    [Run] stores the units that came and returns after four rounds for each
    and three more, in [Exit], through [HandleError], with the error of the
    connection at hand and the lines of the error printed last. *)
Theorem session_cut_short (files : list (list byte * list byte)) (os : Server.OS)
    (c : Conn) (dir : string) (count : Z) (r0 r' : Reader) :
  (forall t path, os_Create os t path = None /\ File_Write os t path = None) ->
  receiveInt (NewReader c) = ((count, None), r0) ->
  receives r0 files r' ->
  count <= 0 \/ len files < count ->
  at_end r' = true ->
  exists fsm',
    Run (3 + 4 * List.length files) os 0 (NewHandleClientFSM c dir) = Done fsm' /\
    currentState fsm' = Exit /\
    numFiles fsm' = count /\ currentFile fsm' = len files /\
    err fsm' = Some (hangup (rd r')) /\
    disk fsm' = map (stored dir) files /\
    output fsm' = map (report dir) files ++ complaint (hangup (rd r')).
Proof.
  intros Hos Ec Hr Hcount Hend.
  set (fsm1 := set_currentState ReadFileName
                 (set_err None (set_numFiles count
                    (set_reader r0 (NewHandleClientFSM c dir))))).
  assert (E0 : step os 0 (NewHandleClientFSM c dir) = Done fsm1).
  { unfold step. cbn [currentState NewHandleClientFSM]. unfold ReadNumFilesState.
    cbn [reader NewHandleClientFSM]. rewrite Ec. reflexivity. }
  assert (N0 : currentState (NewHandleClientFSM c dir) <> Exit) by (cbn; congruence).
  destruct (session_units files os 1 fsm1 r' Hos eq_refl) as
    (fsm2 & HR & Hs2 & Hc2 & Hn2 & Hsd2 & Hd2 & Ho2 & Hr2).
  { cbn. lia. }
  { exact Hr. }
  cbn in Hc2, Hn2, Hsd2, Hd2, Ho2.
  set (fsm3 := set_currentState HandleError
                 (set_err (Some (hangup (rd r'))) (set_reader r' fsm2))).
  assert (E2 : step os (4 * List.length files + 1) fsm2 = Done fsm3).
  { unfold step. rewrite Hs2. unfold ReadFileNameState, receiveBytes.
    rewrite Hr2, (receiveInt_at_end r' Hend). reflexivity. }
  destruct (Run_HandleError_report 0 os (S (4 * List.length files + 1)) fsm3
              (hangup (rd r')) eq_refl eq_refl)
    as (fsm' & R & Hs' & He' & Hc' & Hn' & Hd' & Ho').
  exists fsm'. split.
  - replace (3 + 4 * List.length files)%nat with (S (4 * List.length files + 2)) by lia.
    rewrite (Server_Run_step _ _ _ _ _ N0 E0), HR.
    assert (N2 : currentState fsm2 <> Exit) by (rewrite Hs2; discriminate).
    rewrite (Server_Run_step 1 os _ fsm2 fsm3 N2 E2). exact R.
  - cbn in Hc', Hn', Hd', Ho'. repeat split; auto; congruence.
Qed.

Lemma session_cut_short_witness :
  exists fsm',
    Run (3 + 4 * 1) sound_disk 0
        (NewHandleClientFSM
           (peer [[x00; x00; x00; x02]; [x00; x00; x00; x05]; bytes "a.txt";
                  [x00; x00; x00; x02]; bytes "hi"]) "store")
    = Done fsm' /\
    currentState fsm' = Exit /\
    numFiles fsm' = 2 /\ currentFile fsm' = 1 /\
    err fsm' = Some io_EOF /\
    disk fsm' = [("store/a.txt"%string, bytes "hi")] /\
    output fsm'
    = ["created file a.txt in store"; "Error: Client closed connection";
       "Error: EOF"]%string.
Proof.
  apply (session_cut_short [(bytes "a.txt", bytes "hi")] sound_disk
           (peer [[x00; x00; x00; x02]; [x00; x00; x00; x05]; bytes "a.txt";
                  [x00; x00; x00; x02]; bytes "hi"])
           "store" 2
           (NewReader (peer [[x00; x00; x00; x05]; bytes "a.txt";
                             [x00; x00; x00; x02]; bytes "hi"]))
           (NewReader (peer []))).
  - intros t path. split; reflexivity.
  - reflexivity.
  - exists (NewReader (peer [[x00; x00; x00; x02]; bytes "hi"])), (NewReader (peer [])).
    split; [reflexivity|]. split; reflexivity.
  - right. reflexivity.
  - reflexivity.
Defined.

End ServerShort.

(** ** A file that is named and not sent *)

Section ServerDangling.
Import Server ServerSpec.

#[local] Arguments receiveBytes : simpl never.
#[local] Arguments receiveInt : simpl never.

(** A name that is followed by the end of the stream: three rounds to
    [Exit], nothing stored. *)
Lemma session_dangling_name (f : nat) (os : Server.OS) (now : nat) (fsm : HandleClientFSM)
    (name : list byte) (r1 : Reader) :
  currentState fsm = ReadFileName ->
  receiveBytes (reader fsm) = Done ((name, None), r1) ->
  at_end r1 = true ->
  exists fsm',
    Run (3 + f) os now fsm = Done fsm' /\ currentState fsm' = Exit /\
    err fsm' = Some (hangup (rd r1)) /\
    fileName fsm' = string_of_list_byte name /\
    currentFile fsm' = currentFile fsm /\ numFiles fsm' = numFiles fsm /\
    disk fsm' = disk fsm /\
    output fsm' = output fsm ++ complaint (hangup (rd r1)).
Proof.
  intros Hs E Hend.
  set (fsm1 := set_currentState ReadFileContent
                 (set_fileName (string_of_list_byte name) (set_reader r1 fsm))).
  assert (E1 : step os now fsm = Done fsm1).
  { unfold step. rewrite Hs. unfold ReadFileNameState. rewrite E. reflexivity. }
  set (fsm2 := set_currentState HandleError
                 (set_err (Some (hangup (rd r1)))
                    (set_fileContent [] (set_reader r1 fsm1)))).
  assert (E2 : step os (S now) fsm1 = Done fsm2).
  { unfold step, fsm1. cbn [currentState set_currentState].
    unfold ReadFileContentState. cbn [reader set_currentState set_fileName set_reader].
    unfold receiveBytes. rewrite (receiveInt_at_end r1 Hend). reflexivity. }
  destruct (Run_HandleError_report f os (S (S now)) fsm2 (hangup (rd r1)) eq_refl eq_refl)
    as (fsm' & R & Hs' & He' & Hc' & Hn' & Hd' & Ho').
  exists fsm'. split.
  - change (3 + f)%nat with (S (S (S f))).
    assert (N0 : currentState fsm <> Exit) by (rewrite Hs; discriminate).
    assert (N1 : currentState fsm1 <> Exit) by (cbn; discriminate).
    rewrite (Server_Run_step _ _ _ _ _ N0 E1), (Server_Run_step _ _ _ _ _ N1 E2).
    exact R.
  - cbn in Hc', Hn', Hd', Ho'. rewrite <- Hs' at 1. repeat split; auto.
    clear - R E2. cbn [Run] in R. unfold fsm2 in R.
    cbn [currentState set_currentState step HandleErrorState err set_err] in R.
    destruct (String.eqb _ _); cbn in R;
      (destruct f; cbn in R; inversion R; reflexivity).
Qed.

End ServerDangling.

(** X15.  A file that is named and not sent shifts the stream.  The client
    is given two files; the first can be opened and named and cannot be
    read, the second can be read; no write fails.  The count 2 and the name
    of the first file are on the connection when the read fails, the client
    prints the error and goes on, and the name and the content of the second
    file follow.  The server, to which the stream arrives as it was written,
    stores under the name of the first file the bytes of the name of the
    second one, takes the content of the second file for the next name, and
    ends at the end of the stream, in [Exit] through [HandleError], with
    one file of the two counted. *)
Theorem unread_file_shifts_the_stream (os : Client.OS) (c : Conn)
    (ip port p1 p2 b1 b2 : string) (e : error) (data : list byte)
    (sos : Server.OS) (dir : string) :
  Client.os_Args os = [ip; port; p1; p2] ->
  ClientSpec.dialled os = inl c ->
  (forall j, wfault c j = None) ->
  (forall t, (exists f, Client.os_Open os t p1 = inl f /\ Client.Stat f = inl b1) /\
             Client.os_ReadFile os t p1 = inr e) ->
  (forall t, (exists f, Client.os_Open os t p2 = inl f /\ Client.Stat f = inl b2) /\
             Client.os_ReadFile os t p2 = inl data) ->
  fits (list_byte_of_string b1, list_byte_of_string b2) ->
  len data < 2 ^ 32 ->
  (forall t path, Server.os_Create sos t path = None /\ Server.File_Write sos t path = None) ->
  exists n fsm' w' sfsm',
    Client.main n os = Done fsm' /\
    Client.writer fsm' = Some w' /\
    Client.output fsm'
    = [("Error: " ++ Error e)%string; ("Sent file " ++ p2)%string;
       "Client Exiting..."%string] /\
    Server.Run 8 sos 0
               (Server.NewHandleClientFSM (rd (delivered_as_written (NewWriter c) w')) dir)
    = Done sfsm' /\
    Server.currentState sfsm' = Server.Exit /\
    Server.numFiles sfsm' = 2 /\ Server.currentFile sfsm' = 1 /\
    Server.disk sfsm' = [((dir ++ "/" ++ b1)%string, list_byte_of_string b2)] /\
    Server.fileName sfsm' = string_of_list_byte data /\
    Server.err sfsm' = Some io_EOF.
Proof.
  intros Hargs Hd Hnf H1 H2 Hfit Hdata Hsos.
  (* the client *)
  destruct (main_connects os c ltac:(rewrite Hargs; cbv; discriminate) Hd) as (pre0 & L0 & _).
  rewrite Hargs in L0. cbn [nth skipn] in L0.
  set (fsm3 := Client.mkClientFSM _ _ _ _ _ _ _ _ _) in L0.
  assert (Hw0 : flushed (NewWriter c)) by (split; reflexivity).
  pose proof (sendInt_ok (NewWriter c) 2 Hw0 (Hnf _)) as Ecount.
  set (w0 := mkWriter _ _ _) in Ecount.
  set (fsm4 := Client.set_currentState Client.OpenFile
                 (Client.set_currentFile 0 (Client.set_writer (Some w0) fsm3))).
  assert (E3 : Client.step os 3 fsm3 = Done fsm4).
  { unfold Client.step, fsm3. cbn [Client.currentState].
    unfold Client.SendFileCountState. cbn [Client.writer Client.fileNames].
    change (len [p1; p2]) with 2. rewrite Ecount. reflexivity. }
  destruct (H1 4%nat) as ((f1 & Eo1 & Est1) & _). destruct (H1 6%nat) as (_ & Er1).
  destruct (file_cycle_unread os 4 fsm4 w0 f1 b1 e eq_refl
              ltac:(cbn; split; [discriminate | reflexivity]) eq_refl
              (flushed_push _ _) Hnf Eo1 Est1 Er1)
    as (preA & fsmA & w1 & LA & _ & HsA & HcA & HnA & HwA & HflA & HnfA & Es1 & HoutA & _).
  cbn in HcA, HnA, HoutA.
  set (fsmB := Client.set_currentState Client.OpenFile fsmA).
  assert (EA : Client.step os 8 fsmA = Done fsmB).
  { rewrite (step_SendNextFile _ _ _ HsA), HcA, HnA. reflexivity. }
  destruct (H2 9%nat) as ((f2 & Eo2 & Est2) & _). destruct (H2 11%nat) as (_ & Er2).
  assert (Hp2 : nth (Z.to_nat (Client.currentFile fsmB)) (Client.fileNames fsmB) ""%string
                = p2).
  { cbn. rewrite HcA, HnA. reflexivity. }
  rewrite <- Hp2 in Eo2, Er2.
  destruct (file_cycle_sent os 9 fsmB w1 f2 b2 data eq_refl
              ltac:(cbn; rewrite HcA, HnA; split; [discriminate | reflexivity])
              HwA HflA HnfA Eo2 Est2 Er2)
    as (preB & fsmC & w2 & w3 & LB & _ & HsC & HcC & HnC & HwC & HflC & _ & Es2 & Es3
        & HoutC & _).
  rewrite Hp2 in HoutC.
  cbn in HcC, HnC, HoutC. rewrite HcA in HcC. rewrite HnA in HnC. rewrite HoutA in HoutC.
  cbn [app] in HoutC.
  set (fsmT := Client.set_currentState Client.Terminate fsmC).
  assert (EC : Client.step os 12 fsmC = Done fsmT).
  { rewrite (step_SendNextFile _ _ _ HsC), HcC, HnC. reflexivity. }
  assert (N3 : Client.currentState fsm3 <> Client.Terminate) by (cbn; discriminate).
  assert (NA : Client.currentState fsmA <> Client.Terminate) by (rewrite HsA; discriminate).
  assert (NC : Client.currentState fsmC <> Client.Terminate) by (rewrite HsC; discriminate).
  pose proof (leads_trans _ _ _ _ _ _ _ _ _ L0
                (leads_step _ _ _ _ _ _ _ N3 E3 (leads_refl os 4 fsm4))) as T1.
  pose proof (leads_trans _ _ _ _ _ _ _ _ _ T1 LA) as T2.
  pose proof (leads_trans _ _ _ _ _ _ _ _ _ T2
                (leads_step _ _ _ _ _ _ _ NA EA (leads_refl os 9 fsmB))) as T3.
  pose proof (leads_trans _ _ _ _ _ _ _ _ _ T3 LB) as T4.
  pose proof (leads_trans _ _ _ _ _ _ _ _ _ T4
                (leads_step _ _ _ _ _ _ _ NC EC (leads_refl os 13 fsmT))) as Lall.
  cbn [Nat.add] in Lall.
  destruct (Lall 1%nat) as [R _].
  destruct (Run_Terminate 0 os (13 + 0) fsmT eq_refl) as [R' _].
  (* the connection *)
  destruct Hfit as [Hf1 Hf2]. cbn [fst snd] in Hf1, Hf2.
  assert (Hsends : sends w0 [(list_byte_of_string b1, list_byte_of_string b2)] w2).
  { cbn [sends]. eauto 10. }
  destruct (sends_arrive _ w0 w2 (flushed_push _ _) Hsends) as (Hfl2 & segs & Ho & Hrecv).
  { constructor; [split; assumption | constructor]. }
  destruct (sendBytes_chunks w2 data _ w3 Hfl2 Es3) as (chunks & Ho3 & Hcat & Hall & _).
  assert (Hdel : rd (delivered_as_written (NewWriter c)
                       (mkWriter (Conn_Close (wr w3)) (wbuf w3) (werr w3)))
                 = feed (peer []) (header 2 :: segs ++ header (len data) :: chunks ++ [])).
  { unfold delivered_as_written. cbn [wr NewWriter Conn_Close outgoing NewReader rd].
    rewrite Ho3, Ho. cbn [w0 wr push outgoing].
    rewrite <- !app_assoc, skipn_app, Nat.sub_diag, skipn_all, app_nil_r. reflexivity. }
  (* the server *)
  set (sfsm1 := Server.set_currentState Server.ReadFileName
                  (Server.set_err None (Server.set_numFiles 2
                     (Server.set_reader
                        (mkReader (feed (peer []) (segs ++ header (len data) :: chunks ++ [])) [])
                        (Server.NewHandleClientFSM
                           (feed (peer []) (header 2 :: segs ++ header (len data)
                                                      :: chunks ++ [])) dir))))).
  assert (S0 : Server.step sos 0
                 (Server.NewHandleClientFSM
                    (feed (peer []) (header 2 :: segs ++ header (len data) :: chunks ++ []))
                    dir) = Done sfsm1).
  { unfold Server.step. cbn [Server.currentState Server.NewHandleClientFSM].
    unfold Server.ReadNumFilesState. cbn [Server.reader Server.NewHandleClientFSM].
    unfold NewReader. rewrite receiveInt_aligned. reflexivity. }
  destruct (session_units [(list_byte_of_string b1, list_byte_of_string b2)] sos 1 sfsm1
              (mkReader (feed (peer []) (header (len data) :: chunks ++ [])) []) Hsos eq_refl)
    as (sfsm2 & HR & Hs2 & Hc2 & Hn2 & Hsd2 & Hd2 & _ & Hr2).
  { right. reflexivity. }
  { apply Hrecv. }
  cbn in Hc2, Hn2, Hsd2, Hd2.
  destruct (session_dangling_name 0 sos (4 * 1 + 1) sfsm2 data
              (mkReader (feed (peer []) []) []) Hs2)
    as (sfsm' & RS & Hs' & He' & Hfn' & Hc' & Hn' & Hd' & _).
  { rewrite Hr2. apply receiveBytes_aligned; assumption. }
  { reflexivity. }
  exists 14%nat, (Client.TerminateState fsmT),
    (mkWriter (Conn_Close (wr w3)) (wbuf w3) (werr w3)), sfsm'.
  split; [unfold Client.main; change 14%nat with (13 + 1)%nat; rewrite R; exact R'|].
  split; [unfold Client.TerminateState; cbn; rewrite HwC; reflexivity|].
  split; [unfold Client.TerminateState; cbn; rewrite HoutC; reflexivity|].
  rewrite Hdel. split.
  { change 8%nat with (S (4 * 1 + 3)).
    assert (N0 : Server.currentState
                   (Server.NewHandleClientFSM
                      (feed (peer []) (header 2 :: segs ++ header (len data) :: chunks ++ []))
                      dir) <> Server.Exit) by (cbn; discriminate).
    rewrite (Server_Run_step _ _ _ _ _ N0 S0), HR. exact RS. }
  rewrite Hc', Hn', Hd', Hc2, Hn2, Hd2. unfold ServerSpec.stored. cbn [fst snd].
  rewrite string_of_list_byte_of_string.
  repeat split; assumption.
Qed.

Lemma unread_file_shifts_the_stream_witness :
  exists n fsm' w' sfsm',
    Client.main n TransferSpec.os_unread = Done fsm' /\
    Client.writer fsm' = Some w' /\
    Client.output fsm'
    = ["Error: read docs: is a directory"; "Sent file b.txt"; "Client Exiting..."]%string /\
    Server.Run 8 ServerSpec.sound_disk 0
               (Server.NewHandleClientFSM (rd (delivered_as_written (NewWriter (peer [])) w'))
                                          "store")
    = Done sfsm' /\
    Server.currentState sfsm' = Server.Exit /\
    Server.numFiles sfsm' = 2 /\ Server.currentFile sfsm' = 1 /\
    Server.disk sfsm' = [("store/docs"%string, bytes "b.txt")] /\
    Server.fileName sfsm' = "hi"%string /\
    Server.err sfsm' = Some io_EOF.
Proof.
  apply (unread_file_shifts_the_stream TransferSpec.os_unread (peer [])
           "127.0.0.1" "9000" "docs" "b.txt" "docs" "b.txt"
           (errors_New "read docs: is a directory") (bytes "hi")
           ServerSpec.sound_disk "store").
  - reflexivity.
  - reflexivity.
  - reflexivity.
  - intros t. split; [eexists; split; reflexivity | reflexivity].
  - intros t. split; [eexists; split; reflexivity | reflexivity].
  - split; reflexivity.
  - reflexivity.
  - intros t path. split; reflexivity.
Defined.
